(** * labeler/conllu.py: reading and writing CoNLL-U datasets

    A shallow embedding of [src/labeler/conllu.py] and the properties of
    its reader, graph builder, graph serializer and formatter.

    Conventions of the embedding.
    - A Python [str] is a Rocq [string]; a character is one code point in
      the range U+0000..U+00FF (Latin-1), which is what [ascii] holds.
      [str.isdigit], [str.isspace] and [int] are modelled exactly on that
      range; text with code points above U+00FF is outside the model.
    - A Python exception is a value of [exn]; code that may raise returns
      a [result].  A generator returns the list of the values it yields
      together with the exception that ends it, if any.
    - [dict] and networkx tables are association lists in insertion order
      (the iteration order of CPython 3.7 and later); the graphs are those
      of networkx 1.x, where [in_edges] returns a list.
    - The file system is an argument: what [open] and the reads give.

    Layout: [Py] (built-ins), [Conllu] (the module), [Spec] and [Props]
    (the vocabulary of the properties), then the facts: [PyFacts],
    [ReaderFacts], [GraphFacts], [LineFacts], [RoundTrip],
    [Idempotence], [ParserProps], [ReaderProps], [WriterProps],
    [GraphProps]. *)

From Stdlib Require Import String Ascii List ZArith NArith Bool Lia Arith.
From Stdlib Require Import Sorting.Sorted Sorting.Permutation.
Import ListNotations.

Local Open Scope string_scope.
Local Open Scope list_scope.

(* ===================================================================== *)
(** ** Python built-ins used by the module *)
(* ===================================================================== *)

Module Py.

(** Exceptions that the module raises or lets escape. *)
Inductive exn : Type :=
| ConlluError (msg : string)
| AssertionError
| ValueError
| StopIteration
| IndexError
| KeyError
| AttributeError
| UnboundLocalError
| IOError.

Inductive result (A : Type) : Type :=
| OK (a : A)
| Raise (e : exn).
Arguments OK {A} a.
Arguments Raise {A} e.

Definition bind {A B} (r : result A) (k : A -> result B) : result B :=
  match r with
  | OK a => k a
  | Raise e => Raise e
  end.

Definition assert (b : bool) : result unit :=
  if b then OK tt else Raise AssertionError.

Declare Scope py_scope.
Delimit Scope py_scope with py.
Notation "x <- c ;; k" := (bind c (fun x => k))
  (at level 61, c at next level, right associativity) : py_scope.
Notation "c ;;; k" := (bind c (fun _ => k))
  (at level 61, right associativity) : py_scope.

(** A value that is an [int] or a [str]: the ID and HEAD columns, node
    keys, the pending document and sentence ids. *)
Inductive pyval : Type :=
| PInt (n : Z)
| PStr (s : string).

(** Python's [==] on such values: an int never equals a str. *)
Definition pyval_eqb (a b : pyval) : bool :=
  match a, b with
  | PInt n, PInt m => Z.eqb n m
  | PStr s, PStr t => String.eqb s t
  | _, _ => false
  end.

(** *** Characters *)

Definition isspace_char (c : ascii) : bool :=
  let n := N_of_ascii c in
  (((9 <=? n) && (n <=? 13)) || ((28 <=? n) && (n <=? 32))
   || (n =? 133) || (n =? 160))%N.

(** The decimal digits [0-9]: what [int] accepts. *)
Definition isdecimal_char (c : ascii) : bool :=
  let n := N_of_ascii c in ((48 <=? n) && (n <=? 57))%N.

(** [c.isdigit()]: the decimal digits and the superscripts U+00B2, U+00B3
    and U+00B9. *)
Definition isdigit_char (c : ascii) : bool :=
  let n := N_of_ascii c in
  (isdecimal_char c || (n =? 178) || (n =? 179) || (n =? 185))%N.

(** *** Strings *)

Fixpoint forallb_str (p : ascii -> bool) (s : string) : bool :=
  match s with
  | "" => true
  | String c s' => p c && forallb_str p s'
  end.

Definition nonempty (s : string) : bool :=
  match s with "" => false | _ => true end.

(** [s.isdigit()]: false on the empty string. *)
Definition isdigit (s : string) : bool :=
  nonempty s && forallb_str isdigit_char s.

Fixpoint lstrip (s : string) : string :=
  match s with
  | "" => ""
  | String c s' => if isspace_char c then lstrip s' else s
  end.

Fixpoint rstrip (s : string) : string :=
  match s with
  | "" => ""
  | String c s' =>
      match rstrip s' with
      | "" => if isspace_char c then "" else String c ""
      | r => String c r
      end
  end.

(** [s.strip()] *)
Definition strip (s : string) : string := rstrip (lstrip s).

(** [s.split(sep)] for a one-character separator, which is all the module
    uses. *)
Fixpoint split (sep : ascii) (s : string) : list string :=
  match s with
  | "" => [""]
  | String c s' =>
      if Ascii.eqb c sep then "" :: split sep s'
      else match split sep s' with
           | h :: t => String c h :: t
           | [] => [String c ""]
           end
  end.

(** [sep.join(l)] *)
Fixpoint join (sep : string) (l : list string) : string :=
  match l with
  | [] => ""
  | [x] => x
  | x :: rest => x ++ sep ++ join sep rest
  end.

Definition startswith (p s : string) : bool := String.prefix p s.

Fixpoint drop (n : nat) (s : string) : string :=
  match n, s with
  | O, _ => s
  | S n', String _ s' => drop n' s'
  | S _, "" => ""
  end.

(** The text after the leftmost occurrence of [sep] in [s]. *)
Fixpoint find_after (sep s : string) : option string :=
  if String.prefix sep s then Some (drop (String.length sep) s)
  else match s with
       | "" => None
       | String _ s' => find_after sep s'
       end.

(** [sep in s] *)
Definition contains (sep s : string) : bool :=
  match find_after sep s with Some _ => true | None => false end.

(** [s.partition(sep)[-1]]; an empty separator raises ValueError. *)
Definition partition_last (sep s : string) : result string :=
  match sep with
  | "" => Raise ValueError
  | _ => match find_after sep s with
         | Some after => OK after
         | None => OK ""
         end
  end.

(** *** Integers *)

Definition digit_of_Z (d : Z) : ascii := ascii_of_N (Z.to_N (48 + d)).
Definition Z_of_digit (c : ascii) : Z := Z.of_N (N_of_ascii c) - 48.

Fixpoint str_digits (fuel : nat) (n : Z) (acc : string) : string :=
  match fuel with
  | O => acc
  | S fuel' =>
      let acc' := String (digit_of_Z (n mod 10)) acc in
      if (n / 10 =? 0)%Z then acc' else str_digits fuel' (n / 10) acc'
  end.

(** [str(n)] for an int. *)
Definition str_of_Z (n : Z) : string :=
  if (n <? 0)%Z
  then String "-" (str_digits (S (Z.to_nat (Z.log2 (- n)))) (- n) "")
  else str_digits (S (Z.to_nat (Z.log2 n))) n "".

Definition str (v : pyval) : string :=
  match v with
  | PInt n => str_of_Z n
  | PStr s => s
  end.

(** The digits of an integer literal after its first digit: decimal
    digits, with single underscores allowed between two digits. *)
Fixpoint int_digits (acc : Z) (s : string) : option Z :=
  match s with
  | "" => Some acc
  | String c s' =>
      if isdecimal_char c then int_digits (acc * 10 + Z_of_digit c) s'
      else if Ascii.eqb c "_" then
        match s' with
        | String d s'' =>
            if isdecimal_char d
            then int_digits (acc * 10 + Z_of_digit d) s''
            else None
        | "" => None
        end
      else None
  end.

Definition int_unsigned (s : string) : option Z :=
  match s with
  | String c s' =>
      if isdecimal_char c then int_digits (Z_of_digit c) s' else None
  | "" => None
  end.

Definition int_signed (s : string) : option Z :=
  match s with
  | String c s' =>
      if Ascii.eqb c "-" then option_map Z.opp (int_unsigned s')
      else if Ascii.eqb c "+" then int_unsigned s'
      else int_unsigned s
  | "" => None
  end.

(** The white space that [int] skips around a literal: the ASCII white
    space U+0009..U+000D and U+0020, and U+0085 and U+00A0, which it reads
    as blanks.  U+001C..U+001F, which [str.strip] removes, are not
    skipped: [int] raises ValueError on them. *)
Definition int_space_char (c : ascii) : bool :=
  let n := N_of_ascii c in
  (((9 <=? n) && (n <=? 13)) || (n =? 32) || (n =? 133) || (n =? 160))%N.

Fixpoint int_lstrip (s : string) : string :=
  match s with
  | "" => ""
  | String c s' => if int_space_char c then int_lstrip s' else s
  end.

Fixpoint int_rstrip (s : string) : string :=
  match s with
  | "" => ""
  | String c s' =>
      match int_rstrip s' with
      | "" => if int_space_char c then "" else String c ""
      | r => String c r
      end
  end.

(** [int(s)]: the white space around the literal is skipped, then an
    optional sign and a decimal literal. *)
Definition int (s : string) : result Z :=
  match int_signed (int_rstrip (int_lstrip s)) with
  | Some n => OK n
  | None => Raise ValueError
  end.

(** *** Sorting *)

Section Sorting.
Context {A : Type} (le : A -> A -> bool).

Fixpoint insert (x : A) (l : list A) : list A :=
  match l with
  | [] => [x]
  | y :: l' => if le x y then x :: l else y :: insert x l'
  end.

Fixpoint sort (l : list A) : list A :=
  match l with
  | [] => []
  | x :: l' => insert x (sort l')
  end.

End Sorting.

(** [sorted(l)] on strings: code-point order. *)
Definition sorted (l : list string) : list string := sort String.leb l.

End Py.

(* ===================================================================== *)
(** ** The module [conllu] *)
(* ===================================================================== *)

Module Conllu.
Import Py.
Local Open Scope list_scope.
Local Open Scope string_scope.
Local Open Scope py_scope.

(** *** Data *)

(** A [frozenset] of strings, listed without repetition. *)
Definition frozenset (l : list string) : list string := nodup string_dec l.

(** The FEATS column: a dict from feature name to a frozenset of values. *)
Definition feats : Type := list (string * list string).

(** [d[k] = v] on a dict: an existing key keeps its position. *)
Fixpoint dict_set {V : Type} (k : string) (v : V) (d : list (string * V))
  : list (string * V) :=
  match d with
  | [] => [(k, v)]
  | (k', v') :: d' =>
      if String.eqb k' k then (k', v) :: d' else (k', v') :: dict_set k v d'
  end.

(** [{k: v for k, v in pairs}] *)
Definition dict_of {V : Type} (pairs : list (string * V)) : list (string * V) :=
  fold_left (fun d kv => dict_set (fst kv) (snd kv) d) pairs [].

(** The namedtuple [Word]. *)
Record Word : Type := mkWord {
  ID : pyval;
  FORM : string;
  LEMMA : string;
  UPOSTAG : string;
  XPOSTAG : string;
  FEATS : feats;
  HEAD : pyval;
  DEPREL : string;
  DEPS : string;
  MISC : string
}.

Inductive labels_type : Type := FORM_LABEL | LEMMA_LABEL | POS_LABEL.

(** The attributes of a [Dataset] that the methods read.  [POS_TAGS] is
    [ud.POS_TAGS_V1] or [ud.POS_TAGS_V2], chosen by the constructor from a
    module that is not part of the sources: it is a field here. *)
Record Dataset : Type := mkDataset {
  file_path : string;
  doc_id_prefix : string;
  sent_id_prefix : string;
  node_labels_type : labels_type;
  POS_TAGS : list string
}.

Definition tab : ascii := "009"%char.
Definition newline : ascii := "010"%char.
Definition cr : ascii := "013"%char.

(** *** Reading *)

Definition id_char (c : ascii) : bool :=
  isdigit_char c || Ascii.eqb c "-" || Ascii.eqb c ".".

(** One [key=value1,value2] item of the FEATS column; the unpacking
    [for key, value in ...] raises ValueError unless the item splits in
    two at "=". *)
Definition read_feat (x : string) : result (string * list string) :=
  match split "=" x with
  | [key; value] => OK (key, frozenset (split "," value))
  | _ => Raise ValueError
  end.

Fixpoint read_feats_items (items : list string)
  : result (list (string * list string)) :=
  match items with
  | [] => OK []
  | x :: rest =>
      kv <- read_feat x ;;
      kvs <- read_feats_items rest ;;
      OK (kv :: kvs)
  end.

Definition read_feats (s : string) : result feats :=
  kvs <- read_feats_items (split "|" s) ;;
  OK (dict_of kvs).

Definition _read_word (ds : Dataset) (line : list string) : result Word :=
  assert ((length line =? 10)%nat && forallb nonempty line) ;;;
  match line with
  | [f0; f1; f2; f3; f4; f5; f6; f7; f8; f9] =>
      id <- (if isdigit f0 then n <- int f0 ;; OK (PInt n)
             else assert (forallb_str id_char f0) ;;; OK (PStr f0)) ;;
      assert (existsb (String.eqb f3) (POS_TAGS ds) || String.eqb f3 "_") ;;;
      fs <- (if String.eqb f5 "_" then OK [] else read_feats f5) ;;
      head <- (if negb (String.eqb f6 "_") then n <- int f6 ;; OK (PInt n)
               else OK (PStr f6)) ;;
      OK (mkWord id f1 f2 f3 f4 fs head f7 f8 f9)
  | _ => Raise AssertionError
  end.

(** The lines a text file yields when iterated with universal newlines:
    "\r\n" and "\r" count as "\n".  Lines are given without their
    terminator, which [strip] removes in the source. *)
Fixpoint universal_newlines (s : string) : string :=
  match s with
  | "" => ""
  | String c s' =>
      if Ascii.eqb c cr then
        match s' with
        | String d _ =>
            if Ascii.eqb d newline then universal_newlines s'
            else String newline (universal_newlines s')
        | "" => String newline ""
        end
      else String c (universal_newlines s')
  end.

Definition file_lines (text : string) : list string :=
  let pieces := split newline (universal_newlines text) in
  match last pieces "" with
  | "" => removelast pieces
  | _ => pieces
  end.

(** The local variables of [gen_sentences]. *)
Record reader : Type := mkReader {
  sent : list Word;
  doc_id : pyval;
  sent_id : pyval;
  sentence_counter : Z
}.

Definition is_int (v : pyval) : bool :=
  match v with PInt _ => true | PStr _ => false end.

(** One iteration of the loop of [gen_sentences] on a stripped line: the
    next state and the sentence yielded, if any. *)
Definition read_line (ds : Dataset) (include_multiwords : bool)
    (st : reader) (line : string)
  : result (reader * option (string * list Word)) :=
  if startswith "#" line then
    if contains (doc_id_prefix ds) line then
      v <- partition_last (doc_id_prefix ds) line ;;
      OK (mkReader (sent st) (PStr v) (sent_id st) (sentence_counter st), None)
    else if contains (sent_id_prefix ds) line then
      v <- partition_last (sent_id_prefix ds) line ;;
      OK (mkReader (sent st) (doc_id st) (PStr v) (sentence_counter st), None)
    else OK (st, None)
  else if nonempty line then
    word <- _read_word ds (split tab line) ;;
    if include_multiwords || is_int (ID word)
    then OK (mkReader (sent st ++ [word])%list (doc_id st) (sent_id st)
               (sentence_counter st), None)
    else OK (st, None)
  else
    let doc_id' :=
      if pyval_eqb (doc_id st) (PStr "") then PInt 0 else doc_id st in
    let sent_id' :=
      if pyval_eqb (sent_id st) (PStr "") then PInt (sentence_counter st)
      else sent_id st in
    let doc_sent_name := str doc_id' ++ "_" ++ str sent_id' in
    OK (mkReader [] doc_id' sent_id' (sentence_counter st + 1),
        Some (doc_sent_name, sent st)).

(** The [for] loop of [gen_sentences]: the sentences yielded and, when an
    exception ends the loop, the exception and the value of [line_num]. *)
Fixpoint read_loop (ds : Dataset) (include_multiwords : bool) (st : reader)
    (line_num : nat) (lines : list string)
  : list (string * list Word) * option (exn * nat) :=
  match lines with
  | [] => ([], None)
  | raw :: rest =>
      match read_line ds include_multiwords st (strip raw) with
      | Raise e => ([], Some (e, line_num))
      | OK (st', y) =>
          let (ys, r) := read_loop ds include_multiwords st' (S line_num) rest in
          (match y with Some s => s :: ys | None => ys end, r)
      end
  end.

Definition initial_reader : reader := mkReader [] (PStr "") (PStr "") 0.

(** What [open] and the iteration over the file give.  [NoFile]: [open]
    raises IOError.  [File text failure]: the file yields the lines of
    [text], and then either ends or, when [failure] is an exception, the
    read raises it: IOError, or ValueError when the bytes that follow are
    not UTF-8 (UnicodeDecodeError is a ValueError). *)
Inductive file : Type :=
| NoFile
| File (text : string) (failure : option exn).

(** A file that is read to its end. *)
Definition text_file (text : string) : file := File text None.

(** The [except] clauses of [gen_sentences].  [line_num] is [None] as
    long as the [for] statement has not bound the variable. *)
Definition read_handler (ds : Dataset) (e : exn) (line_num : option nat)
  : exn :=
  match e with
  | IOError => ConlluError ("Could not open " ++ file_path ds)
  | AssertionError | ValueError =>
      match line_num with
      | Some n =>
          ConlluError ("Could not read " ++ file_path ds ++ ":"
                       ++ str_of_Z (Z.of_nat n))
      | None => UnboundLocalError
      end
  | _ => e
  end.

(** The value of [line_num] after the lines have been enumerated. *)
Definition last_line_num (lines : list string) : option nat :=
  match lines with
  | [] => None
  | _ :: rest => Some (length rest)
  end.

Definition gen_sentences (ds : Dataset) (f : file)
    (include_multiwords : bool)
  : list (string * list Word) * option exn :=
  match f with
  | NoFile => ([], Some (read_handler ds IOError None))
  | File text failure =>
      let lines := file_lines text in
      let (ys, r) :=
        read_loop ds include_multiwords initial_reader 0 lines in
      (ys, match r with
           | Some (e, line_num) => Some (read_handler ds e (Some line_num))
           | None =>
               match failure with
               | Some e => Some (read_handler ds e (last_line_num lines))
               | None => None
               end
           end)
  end.

(** *** Graphs

    A [networkx.DiGraph] as the module uses it (networkx 1.x, where
    [in_edges] returns a list): the node table, the edge table and the
    graph attribute dict [graph.graph], each in insertion order.  Only the
    attributes that the module reads or writes are kept. *)

Record node_data : Type := mkNodeData {
  attr_label : option string;
  attr_FORM : option string;
  attr_LEMMA : option string;
  attr_UPOSTAG : option string;
  attr_XPOSTAG : option string;
  attr_FEATS : option feats;
  attr_DEPS : option string;
  attr_MISC : option string
}.

Record edge_data : Type := mkEdgeData {
  attr_edge_label : option string;
  attr_DEPREL : option string
}.

(** What a sentence on the writing side may hold: a [Word], or the [str]
    that [gen_graphs] stores in [graph.graph]. *)
Inductive item : Type :=
| IWord (w : Word)
| IStr (s : string).

Record DiGraph : Type := mkDiGraph {
  nodes : list (pyval * node_data);
  edges : list (pyval * pyval * edge_data);
  graph : list (string * item)
}.

Definition no_data : node_data :=
  mkNodeData None None None None None None None None.

Definition label_data (l : string) : node_data :=
  mkNodeData (Some l) None None None None None None None.

Definition or_else {A : Type} (new old : option A) : option A :=
  match new with Some _ => new | None => old end.

(** [dict.update] on the attributes of a node and of an edge. *)
Definition update_node (old new : node_data) : node_data :=
  mkNodeData
    (or_else (attr_label new) (attr_label old))
    (or_else (attr_FORM new) (attr_FORM old))
    (or_else (attr_LEMMA new) (attr_LEMMA old))
    (or_else (attr_UPOSTAG new) (attr_UPOSTAG old))
    (or_else (attr_XPOSTAG new) (attr_XPOSTAG old))
    (or_else (attr_FEATS new) (attr_FEATS old))
    (or_else (attr_DEPS new) (attr_DEPS old))
    (or_else (attr_MISC new) (attr_MISC old)).

Definition update_edge (old new : edge_data) : edge_data :=
  mkEdgeData
    (or_else (attr_edge_label new) (attr_edge_label old))
    (or_else (attr_DEPREL new) (attr_DEPREL old)).

Fixpoint set_node (ns : list (pyval * node_data)) (n : pyval)
    (data : node_data) : list (pyval * node_data) :=
  match ns with
  | [] => [(n, data)]
  | (k, d) :: ns' =>
      if pyval_eqb k n then (k, update_node d data) :: ns'
      else (k, d) :: set_node ns' n data
  end.

(** [graph.add_node(n, **data)] *)
Definition add_node (g : DiGraph) (n : pyval) (data : node_data) : DiGraph :=
  mkDiGraph (set_node (nodes g) n data) (edges g) (graph g).

Fixpoint set_edge (es : list (pyval * pyval * edge_data)) (u v : pyval)
    (data : edge_data) : list (pyval * pyval * edge_data) :=
  match es with
  | [] => [(u, v, data)]
  | (u', v', d) :: es' =>
      if pyval_eqb u' u && pyval_eqb v' v
      then (u', v', update_edge d data) :: es'
      else (u', v', d) :: set_edge es' u v data
  end.

(** [graph.add_edge(u, v, **data)]: the end points become nodes when they
    are not nodes yet. *)
Definition add_edge (g : DiGraph) (u v : pyval) (data : edge_data) : DiGraph :=
  let ns := set_node (nodes g) u no_data in
  let ns := set_node ns v no_data in
  mkDiGraph ns (set_edge (edges g) u v data) (graph g).

(** [graph.in_edges(key, data=True)] *)
Definition in_edges (g : DiGraph) (key : pyval)
  : list (pyval * pyval * edge_data) :=
  filter (fun e => pyval_eqb (snd (fst e)) key) (edges g).

(** U+00A0, the label of the root. *)
Definition nbsp : string := String "160"%char "".

Definition empty_graph : DiGraph := mkDiGraph [] [] [].

(** The body of the inner loop of [gen_graphs]. *)
Definition add_word (ds : Dataset) (edgeless : bool) (g : DiGraph)
    (word : Word) : DiGraph :=
  if is_int (ID word) then
    let node_label :=
      match node_labels_type ds with
      | FORM_LABEL => FORM word
      | LEMMA_LABEL => LEMMA word
      | POS_LABEL => UPOSTAG word
      end in
    let g := add_node g (PStr (str (ID word))) (label_data node_label) in
    if negb edgeless && negb (pyval_eqb (HEAD word) (PStr "_"))
    then add_edge g (PStr (str (HEAD word))) (PStr (str (ID word)))
           (mkEdgeData (Some (DEPREL word)) None)
    else g
  else
    mkDiGraph (nodes g) (edges g)
      (dict_set (str (ID word)) (IStr (str (ID word))) (graph g)).

Definition sentence_graph (ds : Dataset) (edgeless : bool)
    (sent : list Word) : DiGraph :=
  fold_left (add_word ds edgeless) sent
    (add_node empty_graph (PStr "0") (label_data nbsp)).

Definition gen_graphs (ds : Dataset) (file : file) (edgeless : bool)
  : list (string * DiGraph) * option exn :=
  let (ys, r) := gen_sentences ds file true in
  (map (fun y => (fst y, sentence_graph ds edgeless (snd y))) ys, r).

(** *** Writing *)

(** [sorted(word.FEATS.items())]: the keys of a dict are distinct, so the
    order of the pairs is the order of their keys. *)
Definition sorted_items (d : feats) : list (string * list string) :=
  sort (fun a b => String.leb (fst a) (fst b)) d.

Definition format_feat (kv : string * list string) : string :=
  fst kv ++ "=" ++ join "," (sorted (snd kv)).

Definition format_feats (d : feats) : string :=
  match d with
  | [] => "_"
  | _ => join "|" (map format_feat (sorted_items d))
  end.

Definition format_word (word : Word) : string :=
  join (String tab "")
    [str (ID word); FORM word; LEMMA word; UPOSTAG word; XPOSTAG word;
     format_feats (FEATS word); str (HEAD word); DEPREL word; DEPS word;
     MISC word].

Definition format_sentence (sentence : list Word) : string :=
  join (String newline "") (map format_word sentence ++ [""; ""])%list.

Definition is_word (x : item) : bool :=
  match x with IWord _ => true | IStr _ => false end.

Definition words_of (sentence : list item) : list Word :=
  flat_map (fun x => match x with IWord w => [w] | IStr _ => [] end) sentence.

(** [try: ... except ...:] with the handler given as the exception that
    leaves the statement. *)
Definition try {A : Type} (r : result A) (handler : exn -> exn) : result A :=
  match r with
  | OK a => OK a
  | Raise e => Raise (handler e)
  end.

Fixpoint write_loop (sentences : list (list item)) : result string :=
  match sentences with
  | [] => OK ""
  | sentence :: rest =>
      assert (forallb is_word sentence) ;;;
      text <- write_loop rest ;;
      OK (format_sentence (words_of sentence) ++ text)
  end.

Definition write_handler (ds : Dataset) (e : exn) : exn :=
  match e with
  | IOError => ConlluError ("Could not write " ++ file_path ds)
  | AssertionError => ConlluError "Sentences must be sequences of Word tuples"
  | _ => e
  end.

(** [write_sentences]: [writable] is false when [open] raises IOError; the
    result is the text written to the file. *)
Definition write_sentences (ds : Dataset) (writable : bool)
    (sentences : list (list item)) : result string :=
  try (if writable then write_loop sentences else Raise IOError)
      (write_handler ds).

Definition annotation_handler (e : exn) : exn :=
  match e with
  | StopIteration | ValueError =>
      ConlluError "Graphs do not conform to the spec"
  | _ => e
  end.

Definition node_handler (e : exn) : exn :=
  match e with
  | StopIteration | AssertionError =>
      ConlluError "Graphs do not conform to the spec"
  | _ => e
  end.

Definition is_some {A : Type} (o : option A) : bool :=
  match o with Some _ => true | None => false end.

(** [d[k]] *)
Definition getitem {A : Type} (o : option A) : result A :=
  match o with Some a => OK a | None => Raise KeyError end.

Definition get_default (o : option string) : string :=
  match o with Some s => s | None => "_" end.

(** [l[0]] *)
Definition first {A : Type} (l : list A) : result A :=
  match l with x :: _ => OK x | [] => Raise IndexError end.

(** The body of the loop over [graph.nodes(data=True)] for a node that is
    not skipped. *)
Definition node_word (g : DiGraph) (key : pyval) (data : node_data)
  : result Word :=
  edge <- try (edge <- first (in_edges g key) ;;
               assert (is_some (attr_FORM data)) ;;;
               assert (is_some (attr_LEMMA data)) ;;;
               assert (is_some (attr_UPOSTAG data)) ;;;
               OK edge)
              node_handler ;;
  form <- getitem (attr_FORM data) ;;
  lemma <- getitem (attr_LEMMA data) ;;
  upostag <- getitem (attr_UPOSTAG data) ;;
  fs <- getitem (attr_FEATS data) ;;
  OK (mkWord key form lemma upostag
        (get_default (attr_XPOSTAG data)) fs
        (fst (fst edge))
        (get_default (attr_DEPREL (snd edge)))
        (get_default (attr_DEPS data))
        (get_default (attr_MISC data))).

Fixpoint node_words (g : DiGraph) (ns : list (pyval * node_data))
  : result (list item) :=
  match ns with
  | [] => OK []
  | (key, data) :: ns' =>
      if pyval_eqb key (PInt 0) then node_words g ns'
      else
        w <- node_word g key data ;;
        ws <- node_words g ns' ;;
        OK (IWord w :: ws)
  end.

(** [next((i for i, w in enumerate(sentence) if w.ID == key))]: a [str]
    in the sentence has no attribute ID. *)
Fixpoint next_index (sentence : list item) (key : Z) (i : nat) : result nat :=
  match sentence with
  | [] => Raise StopIteration
  | IStr _ :: _ => Raise AttributeError
  | IWord w :: rest =>
      if pyval_eqb (ID w) (PInt key) then OK i
      else next_index rest key (S i)
  end.

(** [sentence.insert(i, word)] *)
Definition list_insert {A : Type} (i : nat) (x : A) (l : list A) : list A :=
  (firstn i l ++ x :: skipn i l)%list.

(** The loop over [graph.graph.items()]. *)
Fixpoint splice (sentence : list item) (annotations : list (string * item))
  : result (list item) :=
  match annotations with
  | [] => OK sentence
  | (key, word) :: rest =>
      sentence' <- try (key' <- int (hd "" (split "-" key)) ;;
                        i <- next_index sentence key' 0 ;;
                        OK (list_insert i word sentence))
                       annotation_handler ;;
      splice sentence' rest
  end.

(** The body of the loop over [graphs] in [write_graphs]. *)
Definition graph_sentence (g : DiGraph) : result (list item) :=
  sentence <- node_words g (nodes g) ;;
  splice sentence (graph g).

Fixpoint graph_sentences (graphs : list DiGraph) : result (list (list item)) :=
  match graphs with
  | [] => OK []
  | g :: rest =>
      sentence <- graph_sentence g ;;
      sentences <- graph_sentences rest ;;
      OK (sentence :: sentences)
  end.

Definition write_graphs (ds : Dataset) (writable : bool)
    (graphs : list DiGraph) : result string :=
  sentences <- graph_sentences graphs ;;
  write_sentences ds writable sentences.

End Conllu.

(* ===================================================================== *)
(** ** Vocabulary of the properties *)
(* ===================================================================== *)

Module Spec.
Import Py Conllu.
Local Open Scope list_scope.
Local Open Scope string_scope.

(** *** Examples *)

(** A dataset used in the examples: the universal POS tags of UD v2 and
    the usual comment prefixes. *)
Definition example_ds : Dataset :=
  mkDataset "f.conllu" "# newdoc id = " "# sent_id = " FORM_LABEL
    ["ADJ"; "ADP"; "ADV"; "AUX"; "CCONJ"; "DET"; "INTJ"; "NOUN"; "NUM";
     "PART"; "PRON"; "PROPN"; "PUNCT"; "SCONJ"; "SYM"; "VERB"; "X"].

(** A line of a file: the fields between tabs, and a line feed. *)
Definition line_of (fields : list string) : string :=
  join (String tab "") fields ++ String newline "".

(** The empty line that closes a sentence. *)
Definition blank_line : string := String newline "".

(** "1 The the DET _ _ 2 det _ _", "2 dog dog NOUN _ _ 0 root _ _" and a
    blank line. *)
Definition the_dog : string :=
  line_of ["1"; "The"; "the"; "DET"; "_"; "_"; "2"; "det"; "_"; "_"]
  ++ line_of ["2"; "dog"; "dog"; "NOUN"; "_"; "_"; "0"; "root"; "_"; "_"]
  ++ blank_line.

(** The same sentence twice: a file of two sentences without comments. *)
Definition two_sentences : string := the_dog ++ the_dog.

(** "The dog" with no blank line after it. *)
Definition unterminated : string :=
  line_of ["1"; "The"; "the"; "DET"; "_"; "_"; "2"; "det"; "_"; "_"]
  ++ line_of ["2"; "dog"; "dog"; "NOUN"; "_"; "_"; "0"; "root"; "_"; "_"].

(** The multiword token "3-4 gonna" with its words 3 "gon" and 4 "na". *)
Definition gonna : string :=
  line_of ["3-4"; "gonna"; "_"; "_"; "_"; "_"; "_"; "_"; "_"; "_"]
  ++ line_of ["3"; "gon"; "go"; "VERB"; "_"; "_"; "0"; "root"; "_"; "_"]
  ++ line_of ["4"; "na"; "to"; "PART"; "_"; "_"; "3"; "mark"; "_"; "_"]
  ++ blank_line.

(** A line whose HEAD column is "x". *)
Definition bad_head : string :=
  join (String tab "")
    ["1"; "The"; "the"; "DET"; "_"; "_"; "x"; "det"; "_"; "_"].

(** A line whose ID column is "0". *)
Definition zero_id : string :=
  join (String tab "")
    ["0"; "The"; "the"; "DET"; "_"; "_"; "2"; "det"; "_"; "_"].

(** A line whose HEAD column is U+001C and "3": [str.strip] would remove
    the separator, [int] does not. *)
Definition separator_head : string :=
  join (String tab "")
    ["1"; "The"; "the"; "DET"; "_"; "_"; String "028"%char "3"; "det"; "_";
     "_"].

(** "The dog" as words, with FEATS out of order on the first. *)
Definition the_dog_words : list Word :=
  [mkWord (PInt 1) "The" "the" "DET" "_"
     [("PronType", ["Art"]); ("Definite", ["Def"])] (PInt 2) "det" "_" "_";
   mkWord (PInt 2) "dog" "dog" "NOUN" "_" [("Number", ["Sing"])] (PInt 0)
     "root" "_" "_"].

(** *** The reader *)

(** No comment line of [lines] holds the document or the sentence id
    prefix. *)
Definition no_id_comments (ds : Dataset) (lines : list string) : bool :=
  forallb (fun raw =>
             let line := strip raw in
             negb (startswith "#" line)
             || (negb (contains (doc_id_prefix ds) line)
                 && negb (contains (sent_id_prefix ds) line)))
          lines.

(** The pending ids of a reader that has seen no id comment. *)
Definition unnamed (st : reader) : Prop :=
  (doc_id st = PStr "" \/ doc_id st = PInt 0)
  /\ ((sent_id st = PStr "" /\ sentence_counter st = 0%Z)
      \/ sent_id st = PInt 0).

(** A line that closes a sentence: nothing is left of it after [strip]. *)
Definition is_blank (raw : string) : bool := negb (nonempty (strip raw)).

(** The reader accepts the line [raw], whatever it has read before. *)
Definition readable (ds : Dataset) (include_multiwords : bool) (raw : string)
  : Prop :=
  forall st, exists r, read_line ds include_multiwords st (strip raw) = OK r.

(** The file cannot be opened. *)
Definition open_error (ds : Dataset) : exn :=
  ConlluError ("Could not open " ++ file_path ds).

(** The file does not conform at line [n], counted from 0. *)
Definition format_error (ds : Dataset) (n : nat) : exn :=
  ConlluError ("Could not read " ++ file_path ds ++ ":"
               ++ str_of_Z (Z.of_nat n)).

(** The exceptions that the reader turns into the second error. *)
Definition read_exn (e : exn) : Prop := e = AssertionError \/ e = ValueError.

(** The computation raised. *)
Definition is_error {A : Type} (r : result A) : bool :=
  match r with Raise _ => true | OK _ => false end.

(** *** Lines that the parser refuses *)

(** How many times [c] occurs in [s]. *)
Fixpoint count_char (c : ascii) (s : string) : nat :=
  match s with
  | "" => 0
  | String a s' => (if Ascii.eqb a c then 1 else 0) + count_char c s'
  end.

(** Ten fields, none of them empty. *)
Definition ten_fields (line : list string) : bool :=
  (length line =? 10)%nat && forallb nonempty line.

(** Field [i] of a line, counted from 0. *)
Definition field (i : nat) (line : list string) : string := nth i line "".

(** An integer id: decimal digits only. *)
Definition integer_id (s : string) : bool :=
  nonempty s && forallb_str isdecimal_char s.

(** The id of a multiword token or of an empty node: made of digits, "-"
    and ".", and not of digits only. *)
Definition span_id (s : string) : bool :=
  negb (isdigit s) && forallb_str id_char s.

(** The UPOSTAG column is in the POS tag set or is "_". *)
Definition upos_ok (ds : Dataset) (s : string) : bool :=
  existsb (String.eqb s) (POS_TAGS ds) || String.eqb s "_".

(** The FEATS column reads as "key=value1,value2|key2=...": it is "_", or
    each of its items between "|" has one "=". *)
Definition feats_ok (s : string) : bool :=
  String.eqb s "_"
  || forallb (fun x => (count_char "=" x =? 1)%nat) (split "|" s).

(** The HEAD column is "_" or an integer literal. *)
Definition head_ok (s : string) : bool :=
  String.eqb s "_" || match int s with OK _ => true | Raise _ => false end.

(** A positive integer: decimal digits, not all of them "0". *)
Definition positive_id (s : string) : bool :=
  integer_id s && negb (forallb_str (Ascii.eqb "0") s).

(** The lines that the specification says are rejected: it asks for a
    positive integer as id and says nothing of the head. *)
Definition spec_rejected (ds : Dataset) (line : list string) : bool :=
  negb (ten_fields line)
  || negb (positive_id (field 0 line) || span_id (field 0 line))
  || negb (upos_ok ds (field 3 line))
  || negb (feats_ok (field 5 line)).

(** The lines that are rejected: the id may be any integer written in
    decimal digits, 0 included, and the head must be "_" or an integer. *)
Definition rejected (ds : Dataset) (line : list string) : bool :=
  negb (ten_fields line)
  || negb (integer_id (field 0 line) || span_id (field 0 line))
  || negb (upos_ok ds (field 3 line))
  || negb (feats_ok (field 5 line))
  || negb (head_ok (field 6 line)).

(** *** Graphs *)

(** The first node is the root as [gen_graphs] keys it, the str "0", and
    it has no FORM attribute. *)
Definition root_first (g : DiGraph) : Prop :=
  exists d rest, nodes g = (PStr "0", d) :: rest /\ attr_FORM d = None.

(** The number that an id stands for, if any. *)
Definition numeric (v : pyval) : option Z :=
  match v with
  | PInt n => Some n
  | PStr s => match int s with OK n => Some n | Raise _ => None end
  end.

(** [a] stands for a smaller number than [b]. *)
Definition numeric_ltb (a b : pyval) : bool :=
  match numeric a, numeric b with
  | Some n, Some m => (n <? m)%Z
  | _, _ => false
  end.

(** Ascending numeric id order. *)
Fixpoint ascending (ids : list pyval) : bool :=
  match ids with
  | a :: (b :: _) as rest => numeric_ltb a b && ascending rest
  | _ => true
  end.

(** The keys that the serializer does not skip: all but the int 0. *)
Definition not_root (key : pyval) : bool := negb (pyval_eqb key (PInt 0)).

(** The attributes of a node that carries a full word. *)
Definition word_data (form lemma upostag : string) : node_data :=
  mkNodeData None (Some form) (Some lemma) (Some upostag) None (Some [])
    None None.

(** The attributes of an edge that carries a relation. *)
Definition deprel_data (deprel : string) : edge_data :=
  mkEdgeData None (Some deprel).

(** "The dog" with the node of word 2 added before the node of word 1. *)
Definition unordered_graph : DiGraph :=
  let g := add_node empty_graph (PInt 0) (label_data nbsp) in
  let g := add_node g (PInt 2) (word_data "dog" "dog" "NOUN") in
  let g := add_node g (PInt 1) (word_data "The" "the" "DET") in
  let g := add_edge g (PInt 0) (PInt 2) (deprel_data "root") in
  add_edge g (PInt 2) (PInt 1) (deprel_data "det").

(** A graph in which node 1 has two incoming edges, from 0 and from 2. *)
Definition two_heads_graph : DiGraph :=
  let g := add_node empty_graph (PInt 0) (label_data nbsp) in
  let g := add_node g (PInt 1) (word_data "The" "the" "DET") in
  let g := add_node g (PInt 2) (word_data "dog" "dog" "NOUN") in
  let g := add_edge g (PInt 0) (PInt 1) (deprel_data "dep") in
  let g := add_edge g (PInt 2) (PInt 1) (deprel_data "det") in
  add_edge g (PInt 0) (PInt 2) (deprel_data "root").

(** One of FORM, LEMMA, UPOSTAG is not among the attributes. *)
Definition missing_required (d : node_data) : bool :=
  negb (is_some (attr_FORM d) && is_some (attr_LEMMA d)
        && is_some (attr_UPOSTAG d)).

(** The shape violations of a graph as the specification lists them: a
    node other than the root with zero or several incoming edges, or
    without one of FORM, LEMMA, UPOSTAG. *)
Definition shape_violation (g : DiGraph) : bool :=
  existsb (fun kd =>
             not_root (fst kd)
             && (negb (length (in_edges g (fst kd)) =? 1)%nat
                 || missing_required (snd kd)))
          (nodes g).

(** A node other than the root lacks a required attribute. *)
Definition lacks_required (ns : list (pyval * node_data)) : bool :=
  existsb (fun kd => not_root (fst kd) && missing_required (snd kd)) ns.

(** [w] is the record that the serializer builds for the node [kd]: id
    and attributes of the node, head and relation of its first incoming
    edge. *)
Definition word_of_node (g : DiGraph) (kd : pyval * node_data) (w : Word)
  : Prop :=
  exists e es,
    in_edges g (fst kd) = e :: es
    /\ ID w = fst kd
    /\ attr_FORM (snd kd) = Some (FORM w)
    /\ attr_LEMMA (snd kd) = Some (LEMMA w)
    /\ attr_UPOSTAG (snd kd) = Some (UPOSTAG w)
    /\ attr_FEATS (snd kd) = Some (FEATS w)
    /\ XPOSTAG w = get_default (attr_XPOSTAG (snd kd))
    /\ DEPS w = get_default (attr_DEPS (snd kd))
    /\ MISC w = get_default (attr_MISC (snd kd))
    /\ HEAD w = fst (fst e)
    /\ DEPREL w = get_default (attr_DEPREL (snd e)).

(** *** Well-formed words *)

(** The number that a string of decimal digits denotes after the digits
    that gave [acc]. *)
Fixpoint digits_value (acc : Z) (s : string) : Z :=
  match s with
  | "" => acc
  | String c s' => digits_value (acc * 10 + Z_of_digit c) s'
  end.

(** [c] does not occur in [s]. *)
Definition no_char (c : ascii) (s : string) : bool :=
  forallb_str (fun a => negb (Ascii.eqb a c)) s.

(** No tab, line feed or carriage return. *)
Definition clean_char (c : ascii) : bool :=
  negb (Ascii.eqb c tab || Ascii.eqb c newline || Ascii.eqb c cr).

(** No tab or line end in [s]. *)
Definition clean (s : string) : bool := forallb_str clean_char s.

(** A column: not empty, on one line, without a tab. *)
Definition column (s : string) : bool := nonempty s && clean s.

(** No line feed or carriage return. *)
Definition one_line (s : string) : bool :=
  forallb_str (fun c => negb (Ascii.eqb c newline || Ascii.eqb c cr)) s.

(** The first character is neither white space nor "#". *)
Definition first_ok (s : string) : bool :=
  match s with
  | String c _ => negb (isspace_char c) && negb (Ascii.eqb c "#")
  | "" => false
  end.

(** No string occurs twice. *)
Fixpoint distinct (l : list string) : bool :=
  match l with
  | [] => true
  | x :: l' => negb (existsb (String.eqb x) l') && distinct l'
  end.

(** A feature name: no "=", "|", tab or line end. *)
Definition wf_key (k : string) : bool :=
  clean k && no_char "=" k && no_char "|" k.

(** A feature value: no "=", "|", ",", tab or line end. *)
Definition wf_value (v : string) : bool :=
  clean v && no_char "=" v && no_char "|" v && no_char "," v.

(** A feature with its set of one or more values. *)
Definition wf_feat (kv : string * list string) : bool :=
  wf_key (fst kv)
  && match snd kv with [] => false | _ => true end
  && distinct (snd kv)
  && forallb wf_value (snd kv).

(** A FEATS dict that can be written and read back: distinct keys, each
    with a set of one or more values, no separator inside a key or a
    value. *)
Definition wf_feats (d : feats) : bool :=
  distinct (map fst d) && forallb wf_feat d.

(** An ID: a natural number, or the id of a multiword token or empty
    node. *)
Definition wf_id (v : pyval) : bool :=
  match v with
  | PInt n => (0 <=? n)%Z
  | PStr s => nonempty s && span_id s
  end.

(** A HEAD: an integer or "_". *)
Definition wf_head (v : pyval) : bool :=
  match v with
  | PInt _ => true
  | PStr s => String.eqb s "_"
  end.

(** A well-formed word: an integer id or the id of a multiword token or
    empty node; a head that is an integer or "_"; a POS tag of the tag
    set or "_"; columns that are not empty and hold no tab or line end;
    a last column that does not end in white space. *)
Definition wf_word (ds : Dataset) (w : Word) : bool :=
  wf_id (ID w)
  && column (FORM w) && column (LEMMA w)
  && upos_ok ds (UPOSTAG w) && column (UPOSTAG w)
  && column (XPOSTAG w)
  && wf_feats (FEATS w)
  && wf_head (HEAD w)
  && column (DEPREL w) && column (DEPS w) && column (MISC w)
  && String.eqb (rstrip (MISC w)) (MISC w).

(** Sentences of well-formed words. *)
Definition wf_sentences (ds : Dataset) (S : list (list Word)) : bool :=
  forallb (forallb (wf_word ds)) S.

(** What the reader has read so far for the sentence and yields later:
    well-formed words, with integer ids unless multiwords are kept. *)
Definition kept (ds : Dataset) (inc : bool) (ws : list Word) : bool :=
  forallb (fun w => wf_word ds w && (inc || is_int (ID w))) ws.

(** *** Written text and canonical order *)

(** The columns of a word as [format_word] writes them. *)
Definition columns (w : Word) : list string :=
  [str (ID w); FORM w; LEMMA w; UPOSTAG w; XPOSTAG w;
   format_feats (FEATS w); str (HEAD w); DEPREL w; DEPS w; MISC w].

(** The order that a comparison function decides. *)
Definition holds {A : Type} (le : A -> A -> bool) (a b : A) : Prop :=
  le a b = true.

(** The text of lines that each end in a line feed. *)
Fixpoint terminated (lines : list string) : string :=
  match lines with
  | [] => ""
  | l :: rest => l ++ String newline (terminated rest)
  end.

(** The lines that [write_sentences] writes: the words of each sentence
    and an empty line. *)
Definition written_lines (sentences : list (list Word)) : list string :=
  flat_map (fun s => map format_word s ++ [""])%list sentences.

(** Canonical order of FEATS: keys sorted, values sorted within a key. *)
Definition norm_feats (d : feats) : feats :=
  map (fun kv => (fst kv, sorted (snd kv))) (sorted_items d).

(** The word with its FEATS in canonical order. *)
Definition norm_word (w : Word) : Word :=
  mkWord (ID w) (FORM w) (LEMMA w) (UPOSTAG w) (XPOSTAG w)
    (norm_feats (FEATS w)) (HEAD w) (DEPREL w) (DEPS w) (MISC w).

(** The sentences that [S] reads back as: named "0_0", FEATS in canonical
    order. *)
Definition read_back (S : list (list Word)) : list (string * list Word) :=
  map (fun s => ("0_0", map norm_word s)) S.

End Spec.

(* ===================================================================== *)
(** ** Vocabulary of further properties *)
(* ===================================================================== *)

Module Props.
Import Py Conllu Spec.
Local Open Scope list_scope.
Local Open Scope string_scope.

(** [d.get(k)] *)
Fixpoint lookup {V : Type} (k : string) (d : list (string * V)) : option V :=
  match d with
  | [] => None
  | (k', v) :: d' => if String.eqb k' k then Some v else lookup k d'
  end.

(** A feature with one or more values, none of them twice. *)
Definition value_set (kv : string * list string) : bool :=
  match snd kv with [] => false | _ => true end && distinct (snd kv).

(** The words of a sentence that have an integer id. *)
Definition int_words (s : list Word) : list Word :=
  filter (fun w => is_int (ID w)) s.

(** A sentence as [include_multiwords=False] gives it. *)
Definition without_multiwords (y : string * list Word) : string * list Word :=
  (fst y, int_words (snd y)).

(** The reader that has buffered the integer-id words only. *)
Definition drop_multiwords (st : reader) : reader :=
  mkReader (int_words (sent st)) (doc_id st) (sent_id st)
    (sentence_counter st).

(** A comment line. *)
Definition is_comment (raw : string) : bool := startswith "#" (strip raw).

(** A comment line that holds neither id prefix. *)
Definition plain_comment (ds : Dataset) (raw : string) : bool :=
  is_comment raw
  && negb (contains (doc_id_prefix ds) (strip raw))
  && negb (contains (sent_id_prefix ds) (strip raw)).

(** The name that the next blank line gives to its sentence. *)
Definition pending_name (st : reader) : string :=
  str (if pyval_eqb (doc_id st) (PStr "") then PInt 0 else doc_id st)
  ++ "_"
  ++ str (if pyval_eqb (sent_id st) (PStr "")
          then PInt (sentence_counter st) else sent_id st).

(** A file with ids in comments: a document, a sentence "s1" with a
    multiword token, and "The dog" twice after the comment of "s2". *)
Definition named_file : string :=
  line_of ["# newdoc id = d7"] ++ line_of ["# sent_id = s1"] ++ gonna
  ++ line_of ["# sent_id = s2"] ++ the_dog ++ the_dog.

(** "The dog" with a comment before each word. *)
Definition commented : string :=
  line_of ["# text = The dog"]
  ++ line_of ["1"; "The"; "the"; "DET"; "_"; "_"; "2"; "det"; "_"; "_"]
  ++ line_of ["# a remark"]
  ++ line_of ["2"; "dog"; "dog"; "NOUN"; "_"; "_"; "0"; "root"; "_"; "_"]
  ++ blank_line.

(** A file whose line 3, the fourth, has nine fields. *)
Definition nine_fields : string :=
  the_dog ++ line_of ["1"; "The"; "the"; "DET"; "_"; "_"; "2"; "det"; "_"].

(** The example dataset with an empty document id prefix. *)
Definition no_doc_prefix : Dataset :=
  mkDataset "f.conllu" "" "# sent_id = " FORM_LABEL (POS_TAGS example_ds).

(** "The dog" as words, the FEATS of the first in another order. *)
Definition the_dog_words' : list Word :=
  [mkWord (PInt 1) "The" "the" "DET" "_"
     [("Definite", ["Def"]); ("PronType", ["Art"])] (PInt 2) "det" "_" "_";
   mkWord (PInt 2) "dog" "dog" "NOUN" "_" [("Number", ["Sing"])] (PInt 0)
     "root" "_" "_"].

(** A word with an integer id and a head: the words that [gen_graphs]
    gives an incoming edge. *)
Definition headed (w : Word) : bool :=
  is_int (ID w) && negb (pyval_eqb (HEAD w) (PStr "_")).

(** The edge that [gen_graphs] adds for a word: from its head to it,
    labelled with its relation. *)
Definition word_edge (w : Word) : pyval * pyval * edge_data :=
  (PStr (str (HEAD w)), PStr (str (ID w)),
   mkEdgeData (Some (DEPREL w)) None).



(** The words of "The dog" and of "gonna", as the reader gives them with
    multiwords. *)
Definition the_dog_sentence : list Word :=
  snd (hd ("", []) (fst (gen_sentences example_ds (text_file the_dog) true))).


(** The node of a full word, all attributes of the serializer present. *)
Definition full_data (w : Word) : node_data :=
  mkNodeData None (Some (FORM w)) (Some (LEMMA w)) (Some (UPOSTAG w))
    (Some (XPOSTAG w)) (Some (FEATS w)) (Some (DEPS w)) (Some (MISC w)).

(** The records of "gonna", "gon" and "na". *)
Definition gonna_token : Word :=
  mkWord (PStr "3-4") "gonna" "_" "_" "_" [] (PStr "_") "_" "_" "_".

Definition gon_word : Word :=
  mkWord (PInt 3) "gon" "go" "VERB" "_" [] (PInt 0) "root" "_" "_".

Definition na_word : Word :=
  mkWord (PInt 4) "na" "to" "PART" "_" [] (PInt 3) "mark" "_" "_".

(** "gon na" as a graph with integer keys and the record of "gonna" stored
    under "3-4", as [write_graphs] expects it. *)
Definition gonna_graph : DiGraph :=
  let g := add_node empty_graph (PInt 0) (label_data nbsp) in
  let g := add_node g (PInt 3) (full_data gon_word) in
  let g := add_node g (PInt 4) (full_data na_word) in
  let g := add_edge g (PInt 0) (PInt 3) (deprel_data "root") in
  let g := add_edge g (PInt 3) (PInt 4) (deprel_data "mark") in
  mkDiGraph (nodes g) (edges g) [("3-4", IWord gonna_token)].

(** All required attributes and FEATS are present. *)
Definition has_word_data (d : node_data) : bool :=
  is_some (attr_FORM d) && is_some (attr_LEMMA d)
  && is_some (attr_UPOSTAG d) && is_some (attr_FEATS d).

End Props.

(* ===================================================================== *)
(** ** Facts about the built-ins *)
(* ===================================================================== *)

Module PyFacts.
Import Py Conllu Spec.
Local Open Scope string_scope.
Local Open Scope list_scope.

(** Case analysis on a character: all 256 of them. *)
Ltac ascii_cases c :=
  destruct c as [[] [] [] [] [] [] [] []]; try discriminate; try reflexivity.

Lemma bind_OK {A B} (r : result A) (k : A -> result B) (b : B) :
  bind r k = OK b -> exists a, r = OK a /\ k a = OK b.
Proof.
  destruct r as [a|e]; simpl; intros H; [eauto | discriminate].
Qed.

Lemma bind_Raise {A B} (r : result A) (k : A -> result B) e :
  bind r k = Raise e ->
  r = Raise e \/ exists a, r = OK a /\ k a = Raise e.
Proof.
  destruct r as [a|e']; simpl; intros H.
  - right. exists a. split; [reflexivity | exact H].
  - left. injection H as <-. reflexivity.
Qed.

Lemma is_error_bind {A B} (r : result A) (k : A -> result B) :
  is_error (bind r k)
  = match r with OK a => is_error (k a) | Raise _ => true end.
Proof. destruct r; reflexivity. Qed.

Lemma digit_not_space c : isdigit_char c = true -> isspace_char c = false.
Proof. ascii_cases c. Qed.

Lemma digit_not_sign c :
  isdigit_char c = true ->
  Ascii.eqb c "-" = false /\ Ascii.eqb c "+" = false /\ Ascii.eqb c "_" = false.
Proof. ascii_cases c; intros _; repeat split. Qed.

Lemma decimal_digit c : isdecimal_char c = true -> isdigit_char c = true.
Proof. ascii_cases c. Qed.

(** *** [strip] *)

Lemma rstrip_app a b : b <> "" -> rstrip b = b -> rstrip (a ++ b) = (a ++ b)%string.
Proof.
  intros Hb Hr. induction a as [|c a IH]; [exact Hr |].
  cbn [append rstrip]. rewrite IH.
  destruct (a ++ b)%string eqn:E; [| reflexivity].
  destruct a; [contradiction Hb | discriminate].
Qed.

Lemma rstrip_no_space s :
  forallb_str (fun c => negb (isspace_char c)) s = true -> rstrip s = s.
Proof.
  induction s as [|c s IH]; [reflexivity |].
  cbn [forallb_str rstrip]. intros H. apply andb_prop in H as [Hc Hs].
  rewrite (IH Hs). apply negb_true_iff in Hc. rewrite Hc.
  destruct s; reflexivity.
Qed.

Lemma forallb_str_impl (p q : ascii -> bool) s :
  (forall c, p c = true -> q c = true) ->
  forallb_str p s = true -> forallb_str q s = true.
Proof.
  intros Hpq. induction s as [|c s IH]; [reflexivity |].
  cbn [forallb_str]. intros H. apply andb_prop in H as [Hc Hs].
  rewrite (Hpq c Hc), (IH Hs). reflexivity.
Qed.

Lemma strip_digits s : forallb_str isdigit_char s = true -> strip s = s.
Proof.
  intros H. unfold strip.
  assert (Hl : lstrip s = s).
  { destruct s as [|c s]; [reflexivity |].
    cbn [forallb_str] in H. apply andb_prop in H as [Hc _].
    cbn [lstrip]. rewrite (digit_not_space c Hc). reflexivity. }
  rewrite Hl. apply rstrip_no_space.
  apply (forallb_str_impl isdigit_char); [| exact H].
  intros c Hc. rewrite (digit_not_space c Hc). reflexivity.
Qed.

Lemma lstrip_all_space s :
  forallb_str isspace_char s = true -> lstrip s = "".
Proof.
  induction s as [|c s IH]; [reflexivity |].
  cbn [forallb_str lstrip]. intros H. apply andb_prop in H as [-> H].
  apply IH, H.
Qed.

Lemma lstrip_app_newline s :
  lstrip (s ++ String newline "")
  = if forallb_str isspace_char s then ""
    else (lstrip s ++ String newline "")%string.
Proof.
  induction s as [|c s IH]; [reflexivity |].
  cbn [append lstrip forallb_str].
  destruct (isspace_char c); [exact IH | reflexivity].
Qed.

Lemma rstrip_app_newline s : rstrip (s ++ String newline "") = rstrip s.
Proof.
  induction s as [|c s IH]; [reflexivity |].
  cbn [append rstrip]. rewrite IH. reflexivity.
Qed.

(** A file yields each line with its terminator; [strip] removes it, so
    the lines are modelled without it. *)
Lemma strip_terminator s : strip (s ++ String newline "") = strip s.
Proof.
  unfold strip. rewrite lstrip_app_newline.
  destruct (forallb_str isspace_char s) eqn:H.
  - rewrite (lstrip_all_space s H). reflexivity.
  - apply rstrip_app_newline.
Qed.

(** *** The white space of [int] *)

Lemma int_space_space c : int_space_char c = true -> isspace_char c = true.
Proof. ascii_cases c. Qed.

Lemma int_rstrip_no_space s :
  forallb_str (fun c => negb (isspace_char c)) s = true -> int_rstrip s = s.
Proof.
  induction s as [|c s IH]; [reflexivity |].
  cbn [forallb_str int_rstrip]. intros H. apply andb_prop in H as [Hc Hs].
  rewrite (IH Hs). apply negb_true_iff in Hc.
  destruct (int_space_char c) eqn:E;
    [rewrite (int_space_space c E) in Hc; discriminate Hc |].
  destruct s; reflexivity.
Qed.

Lemma int_lstrip_first c s :
  isspace_char c = false -> int_lstrip (String c s) = String c s.
Proof.
  intros H. cbn [int_lstrip].
  destruct (int_space_char c) eqn:E; [| reflexivity].
  rewrite (int_space_space c E) in H. discriminate H.
Qed.

Lemma int_strip_digits s :
  forallb_str isdigit_char s = true -> int_rstrip (int_lstrip s) = s.
Proof.
  intros H.
  assert (Hl : int_lstrip s = s).
  { destruct s as [|c s]; [reflexivity |].
    cbn [forallb_str] in H. apply andb_prop in H as [Hc _].
    apply int_lstrip_first, digit_not_space, Hc. }
  rewrite Hl. apply int_rstrip_no_space.
  apply (forallb_str_impl isdigit_char); [| exact H].
  intros c Hc. rewrite (digit_not_space c Hc). reflexivity.
Qed.

Lemma int_strip_decimal s :
  forallb_str isdecimal_char s = true -> int_rstrip (int_lstrip s) = s.
Proof.
  intros H. apply int_strip_digits.
  apply (forallb_str_impl _ _ s decimal_digit H).
Qed.

(** *** [int] on digits *)

Lemma int_digits_digits s :
  forallb_str isdigit_char s = true ->
  forall acc,
    match int_digits acc s with Some _ => true | None => false end
    = forallb_str isdecimal_char s.
Proof.
  induction s as [|c s IH]; intros H acc; [reflexivity |].
  cbn [forallb_str] in H. apply andb_prop in H as [Hc Hs].
  cbn [int_digits forallb_str].
  destruct (isdecimal_char c); [apply IH, Hs |].
  destruct (digit_not_sign c Hc) as (_ & _ & ->). reflexivity.
Qed.

Lemma int_isdigit s :
  isdigit s = true -> is_error (int s) = negb (forallb_str isdecimal_char s).
Proof.
  unfold isdigit. intros H. apply andb_prop in H as [Hne Hd].
  unfold int. rewrite (int_strip_digits s Hd).
  destruct s as [|c s]; [discriminate |].
  cbn [forallb_str] in Hd. apply andb_prop in Hd as [Hc Hs].
  cbn [int_signed forallb_str].
  destruct (digit_not_sign c Hc) as (-> & -> & _).
  cbn [int_unsigned].
  destruct (isdecimal_char c); [| reflexivity].
  pose proof (int_digits_digits s Hs (Z_of_digit c)) as Hi.
  destruct (int_digits (Z_of_digit c) s); cbn [andb is_error];
    rewrite <- Hi; reflexivity.
Qed.

(** *** [split] *)

Lemma split_length c s : length (split c s) = S (count_char c s).
Proof.
  induction s as [|a s IH]; [reflexivity |].
  cbn [split count_char]. destruct (Ascii.eqb a c).
  - cbn [length]. rewrite IH. reflexivity.
  - destruct (split c s); [discriminate |]. exact IH.
Qed.

(** *** Dicts *)

Lemma dict_set_In {V : Type} k (v : V) d k' v' :
  In (k', v') (dict_set k v d) -> In (k', v') d \/ (k' = k /\ v' = v).
Proof.
  induction d as [|[k0 v0] d IH]; simpl.
  - intros [[= <- <-] | []]. right; split; reflexivity.
  - destruct (String.eqb_spec k0 k) as [-> | Hne]; simpl.
    + intros [[= <- <-] | H]; [right; split; reflexivity | left; right; exact H].
    + intros [H | H]; [left; left; exact H |].
      destruct (IH H) as [H' | H']; [left; right; exact H' | right; exact H'].
Qed.

Lemma dict_set_keys {V : Type} k (v : V) d :
  map fst (dict_set k v d)
  = if existsb (String.eqb k) (map fst d) then map fst d
    else map fst d ++ [k].
Proof.
  induction d as [|[k' v'] d IH]; [reflexivity |].
  cbn [dict_set map fst existsb]. rewrite (String.eqb_sym k k').
  destruct (String.eqb k' k); [reflexivity |].
  cbn [map fst orb]. rewrite IH.
  destruct (existsb (String.eqb k) (map fst d)); reflexivity.
Qed.

(** *** Concatenation *)

Lemma append_nil_r s : (s ++ "")%string = s.
Proof. induction s as [|c s IH]; [reflexivity | cbn; rewrite IH; reflexivity]. Qed.

Lemma append_assoc a b c : ((a ++ b) ++ c = a ++ (b ++ c))%string.
Proof. induction a as [|x a IH]; [reflexivity | cbn; rewrite IH; reflexivity]. Qed.

Lemma forallb_str_app p a b :
  forallb_str p (a ++ b) = forallb_str p a && forallb_str p b.
Proof.
  induction a as [|c a IH]; [reflexivity |].
  cbn [append forallb_str]. rewrite IH, andb_assoc. reflexivity.
Qed.

Lemma nonempty_app_l a b : nonempty a = true -> nonempty (a ++ b) = true.
Proof. destruct a; [discriminate | reflexivity]. Qed.

(** *** [split] and [join] *)

Lemma split_not_nil c s : split c s <> [].
Proof.
  destruct s as [|a s]; [discriminate |].
  cbn [split]. destruct (Ascii.eqb a c); [discriminate |].
  destruct (split c s); discriminate.
Qed.

Lemma split_no_sep c s : no_char c s = true -> split c s = [s].
Proof.
  unfold no_char. induction s as [|a s IH]; [reflexivity |].
  cbn [forallb_str split]. intros H. apply andb_prop in H as [Ha Hs].
  apply negb_true_iff in Ha. rewrite Ha, (IH Hs). reflexivity.
Qed.

Lemma split_app_sep c a b :
  no_char c a = true -> split c (a ++ String c b) = a :: split c b.
Proof.
  unfold no_char. induction a as [|x a IH].
  - intros _. cbn [append split]. rewrite Ascii.eqb_refl. reflexivity.
  - cbn [forallb_str append split]. intros H. apply andb_prop in H as [Hx Ha].
    apply negb_true_iff in Hx. rewrite Hx, (IH Ha). reflexivity.
Qed.

Lemma split_join c l :
  l <> [] -> forallb (no_char c) l = true ->
  split c (join (String c "") l) = l.
Proof.
  induction l as [|x l IH]; [intros H; contradiction H; reflexivity |].
  intros _ H. cbn [forallb] in H. apply andb_prop in H as [Hx Hl].
  destruct l as [|y l].
  - cbn [join]. apply split_no_sep, Hx.
  - change (join (String c "") (x :: y :: l))
      with (x ++ String c (join (String c "") (y :: l)))%string.
    rewrite (split_app_sep c x _ Hx), IH; [reflexivity | discriminate | exact Hl].
Qed.

Lemma join_split c s : join (String c "") (split c s) = s.
Proof.
  induction s as [|a s IH]; [reflexivity |].
  cbn [split]. destruct (Ascii.eqb_spec a c) as [-> | Hne].
  - pose proof (split_not_nil c s) as Hn.
    destruct (split c s) as [|h t]; [contradiction Hn; reflexivity |].
    change (join (String c "") ("" :: h :: t))
      with (String c (join (String c "") (h :: t))).
    rewrite IH. reflexivity.
  - pose proof (split_not_nil c s) as Hn.
    destruct (split c s) as [|h t]; [contradiction Hn; reflexivity |].
    destruct t as [|h' t].
    + cbn [join] in *. rewrite IH. reflexivity.
    + change (join (String c "") (String a h :: h' :: t))
        with (String a (h ++ String c (join (String c "") (h' :: t))))%string.
      change (join (String c "") (h :: h' :: t))
        with (h ++ String c (join (String c "") (h' :: t)))%string in IH.
      rewrite IH. reflexivity.
Qed.

Lemma split_pieces_no_sep c s : forallb (no_char c) (split c s) = true.
Proof.
  induction s as [|a s IH]; [reflexivity |].
  cbn [split]. destruct (Ascii.eqb a c) eqn:Ha.
  - cbn [forallb]. rewrite IH. reflexivity.
  - pose proof (split_not_nil c s) as Hn.
    destruct (split c s) as [|h t]; [contradiction Hn; reflexivity |].
    cbn [forallb] in *. unfold no_char in *. cbn [forallb_str].
    rewrite Ha. exact IH.
Qed.

Lemma split_pieces_forall p c s :
  forallb_str p s = true -> forallb (forallb_str p) (split c s) = true.
Proof.
  induction s as [|a s IH]; [reflexivity |].
  cbn [forallb_str split]. intros H. apply andb_prop in H as [Ha Hs].
  specialize (IH Hs). destruct (Ascii.eqb a c).
  - cbn [forallb forallb_str]. exact IH.
  - pose proof (split_not_nil c s) as Hn.
    destruct (split c s) as [|h t]; [contradiction Hn; reflexivity |].
    cbn [forallb forallb_str] in *. rewrite Ha. exact IH.
Qed.

Lemma join_forall p sep l :
  forallb_str p sep = true -> forallb (forallb_str p) l = true ->
  forallb_str p (join sep l) = true.
Proof.
  intros Hsep. induction l as [|x l IH]; [reflexivity |].
  cbn [forallb]. intros H. apply andb_prop in H as [Hx Hl].
  destruct l as [|y l]; [exact Hx |].
  change (join sep (x :: y :: l)) with (x ++ sep ++ join sep (y :: l))%string.
  rewrite !forallb_str_app, Hx, Hsep, (IH Hl). reflexivity.
Qed.

(** *** More on [strip] *)

Lemma lstrip_forall p s : forallb_str p s = true -> forallb_str p (lstrip s) = true.
Proof.
  induction s as [|c s IH]; [reflexivity |].
  cbn [lstrip]. destruct (isspace_char c); [| trivial].
  cbn [forallb_str]. intros H. apply andb_prop in H as [_ H]. apply IH, H.
Qed.

Lemma rstrip_forall p s : forallb_str p s = true -> forallb_str p (rstrip s) = true.
Proof.
  induction s as [|c s IH]; [reflexivity |].
  cbn [forallb_str rstrip]. intros H. apply andb_prop in H as [Hc Hs].
  specialize (IH Hs). destruct (rstrip s).
  - destruct (isspace_char c); [reflexivity |].
    cbn [forallb_str]. rewrite Hc. reflexivity.
  - cbn [forallb_str] in *. rewrite Hc. exact IH.
Qed.

Lemma strip_forall p s : forallb_str p s = true -> forallb_str p (strip s) = true.
Proof. intros H. apply rstrip_forall, lstrip_forall, H. Qed.

Lemma rstrip_idem s : rstrip (rstrip s) = rstrip s.
Proof.
  induction s as [|c s IH]; [reflexivity |].
  cbn [rstrip]. destruct (rstrip s) as [|d r] eqn:E.
  - destruct (isspace_char c) eqn:Hc; [reflexivity |].
    cbn [rstrip]. rewrite Hc. reflexivity.
  - cbn [rstrip] in *. rewrite IH. reflexivity.
Qed.

Lemma rstrip_strip s : rstrip (strip s) = strip s.
Proof. apply rstrip_idem. Qed.

Lemma rstrip_app_inv a b :
  b <> "" -> rstrip (a ++ b) = (a ++ b)%string -> rstrip b = b.
Proof.
  intros Hb. induction a as [|c a IH]; [trivial |].
  cbn [append rstrip]. destruct (rstrip (a ++ b)) as [|d r] eqn:E.
  - destruct (isspace_char c); [discriminate |].
    intros [= H]. destruct a; [contradiction Hb; symmetry; exact H | discriminate].
  - intros [= H]. apply IH. exact H.
Qed.

(** *** [str] and [int] *)

Lemma digit_of_Z_spec d :
  (0 <= d < 10)%Z ->
  isdecimal_char (digit_of_Z d) = true /\ Z_of_digit (digit_of_Z d) = d.
Proof.
  intros H.
  assert (C : (d = 0 \/ d = 1 \/ d = 2 \/ d = 3 \/ d = 4 \/ d = 5 \/ d = 6
               \/ d = 7 \/ d = 8 \/ d = 9)%Z) by lia.
  repeat (destruct C as [-> | C]; [split; reflexivity |]).
  subst d. split; reflexivity.
Qed.

Lemma digits_value_app a d1 d2 :
  digits_value a (d1 ++ d2) = digits_value (digits_value a d1) d2.
Proof.
  revert a. induction d1 as [|c d1 IH]; intros a; [reflexivity |].
  cbn [append digits_value]. apply IH.
Qed.

Lemma int_digits_decimal d :
  forallb_str isdecimal_char d = true ->
  forall a, int_digits a d = Some (digits_value a d).
Proof.
  induction d as [|c d IH]; intros H a; [reflexivity |].
  cbn [forallb_str] in H. apply andb_prop in H as [Hc Hd].
  cbn [int_digits digits_value]. rewrite Hc. apply IH, Hd.
Qed.

Lemma str_digits_spec fuel :
  forall n acc,
    (0 <= n < 2 ^ Z.of_nat (S fuel))%Z ->
    exists d,
      str_digits (S fuel) n acc = (d ++ acc)%string
      /\ nonempty d = true
      /\ forallb_str isdecimal_char d = true
      /\ digits_value 0 d = n.
Proof.
  induction fuel as [|fuel IH]; intros n acc Hn;
    assert (Hm : (0 <= n mod 10 < 10)%Z) by (apply Z.mod_pos_bound; lia);
    destruct (digit_of_Z_spec _ Hm) as [Hdec Hval];
    pose proof (Z.div_mod n 10 ltac:(lia)) as Hdm;
    cbn [str_digits];
    destruct (Z.eqb_spec (n / 10) 0) as [Hq | Hq].
  - exists (String (digit_of_Z (n mod 10)) "").
    cbn [append nonempty forallb_str digits_value].
    rewrite Hdec, Hval. repeat split. lia.
  - exfalso. change (2 ^ Z.of_nat 1)%Z with 2%Z in Hn.
    apply Hq. apply Z.div_small. lia.
  - exists (String (digit_of_Z (n mod 10)) "").
    cbn [append nonempty forallb_str digits_value].
    rewrite Hdec, Hval. repeat split. lia.
  - assert (Hb : (0 <= n / 10 < 2 ^ Z.of_nat (S fuel))%Z).
    { rewrite (Nat2Z.inj_succ (S fuel)), Z.pow_succ_r in Hn by lia.
      split; [apply Z.div_pos; lia |].
      apply Z.div_lt_upper_bound; lia. }
    destruct (IH (n / 10)%Z (String (digit_of_Z (n mod 10)) acc) Hb)
      as (d & Hs & Hne & Hall & Hv).
    exists (d ++ String (digit_of_Z (n mod 10)) "")%string.
    change (str_digits (S fuel) (n / 10) (String (digit_of_Z (n mod 10)) acc)
            = ((d ++ String (digit_of_Z (n mod 10)) "") ++ acc)%string /\
            nonempty (d ++ String (digit_of_Z (n mod 10)) "") = true /\
            forallb_str isdecimal_char (d ++ String (digit_of_Z (n mod 10)) "")
            = true /\
            digits_value 0 (d ++ String (digit_of_Z (n mod 10)) "") = n).
    rewrite Hs, append_assoc. cbn [append].
    split; [reflexivity |].
    split; [apply nonempty_app_l, Hne |].
    rewrite forallb_str_app, Hall. cbn [forallb_str]. rewrite Hdec.
    split; [reflexivity |].
    rewrite digits_value_app, Hv. cbn [digits_value]. rewrite Hval. lia.
Qed.

Lemma fuel_enough n :
  (0 <= n)%Z -> (0 <= n < 2 ^ Z.of_nat (S (Z.to_nat (Z.log2 n))))%Z.
Proof.
  intros Hn. split; [exact Hn |].
  rewrite Nat2Z.inj_succ, Z2Nat.id by apply Z.log2_nonneg.
  destruct (Z.eq_dec n 0) as [-> | Hz]; [reflexivity |].
  apply Z.log2_spec. lia.
Qed.

(** [str] of a natural number: its decimal digits. *)
Lemma str_of_Z_nonneg n :
  (0 <= n)%Z ->
  nonempty (str_of_Z n) = true
  /\ forallb_str isdecimal_char (str_of_Z n) = true
  /\ digits_value 0 (str_of_Z n) = n.
Proof.
  intros Hn. unfold str_of_Z.
  destruct (Z.ltb_spec n 0) as [Hlt | _]; [lia |].
  destruct (str_digits_spec _ n "" (fuel_enough n Hn)) as (d & Hd & H).
  rewrite Hd, append_nil_r. exact H.
Qed.

(** [str] of a negative number: "-" and the digits of its opposite. *)
Lemma str_of_Z_neg n :
  (n < 0)%Z -> str_of_Z n = String "-" (str_of_Z (- n)).
Proof.
  intros Hn. unfold str_of_Z.
  destruct (Z.ltb_spec n 0) as [_ | Hge]; [| lia].
  destruct (Z.ltb_spec (- n) 0) as [Hlt | _]; [lia | reflexivity].
Qed.

Lemma decimal_facts c :
  isdecimal_char c = true ->
  isspace_char c = false /\ clean_char c = true
  /\ Ascii.eqb c "-" = false /\ Ascii.eqb c "+" = false
  /\ Ascii.eqb c "#" = false /\ Ascii.eqb c "_" = false.
Proof. ascii_cases c; intros _; repeat split. Qed.

Lemma lstrip_first c s : isspace_char c = false -> lstrip (String c s) = String c s.
Proof. intros H. cbn [lstrip]. rewrite H. reflexivity. Qed.

Lemma strip_decimal s : forallb_str isdecimal_char s = true -> strip s = s.
Proof.
  intros H. apply strip_digits.
  apply (forallb_str_impl _ _ s decimal_digit H).
Qed.

Lemma int_decimal s :
  nonempty s = true -> forallb_str isdecimal_char s = true ->
  int_signed s = Some (digits_value 0 s).
Proof.
  intros Hne H. destruct s as [|c s]; [discriminate |].
  cbn [forallb_str] in H. apply andb_prop in H as [Hc Hs].
  cbn [int_signed int_unsigned digits_value].
  destruct (decimal_facts c Hc) as (_ & _ & -> & -> & _).
  rewrite Hc. apply int_digits_decimal, Hs.
Qed.

(** [int(str(n)) == n] *)
Lemma int_str n : int (str_of_Z n) = OK n.
Proof.
  unfold int. destruct (Z.ltb_spec n 0) as [Hlt | Hge].
  - rewrite (str_of_Z_neg n Hlt).
    destruct (str_of_Z_nonneg (- n)) as (Hne & Hall & Hv); [lia |].
    assert (Hs : int_rstrip (int_lstrip (String "-" (str_of_Z (- n))))
                 = String "-" (str_of_Z (- n))).
    { rewrite int_lstrip_first by reflexivity.
      apply int_rstrip_no_space. cbn [forallb_str].
      apply (forallb_str_impl isdecimal_char); [| exact Hall].
      intros c Hc. destruct (decimal_facts c Hc) as (-> & _). reflexivity. }
    rewrite Hs. cbn [int_signed].
    change (Ascii.eqb "-" "-") with true. cbn iota.
    destruct (str_of_Z (- n)) as [|c s] eqn:E; [discriminate |].
    cbn [forallb_str] in Hall. apply andb_prop in Hall as [Hc Hs'].
    cbn [int_unsigned]. rewrite Hc.
    rewrite (int_digits_decimal s Hs'). cbn [option_map].
    cbn [digits_value] in Hv.
    change (0 * 10 + Z_of_digit c)%Z with (Z_of_digit c) in Hv.
    rewrite Hv. f_equal. lia.
  - destruct (str_of_Z_nonneg n Hge) as (Hne & Hall & Hv).
    rewrite (int_strip_decimal _ Hall), (int_decimal _ Hne Hall), Hv.
    reflexivity.
Qed.

(** *** Sorting *)

Section SortFacts.
Context {A : Type} (le : A -> A -> bool).
Hypothesis le_total : forall a b, le a b = true \/ le b a = true.

Lemma insert_perm x l : Permutation (insert le x l) (x :: l).
Proof.
  induction l as [|y l IH]; cbn [insert]; [reflexivity |].
  destruct (le x y); [reflexivity |].
  rewrite IH. apply perm_swap.
Qed.

Lemma sort_perm l : Permutation (sort le l) l.
Proof.
  induction l as [|x l IH]; cbn [sort]; [reflexivity |].
  rewrite insert_perm, IH. reflexivity.
Qed.

Lemma insert_sorted x l : Sorted (holds le) l -> Sorted (holds le) (insert le x l).
Proof.
  induction 1 as [|y l Hl IH Hhd]; cbn [insert].
  - repeat constructor.
  - destruct (le x y) eqn:Hxy.
    + constructor; [constructor; assumption | constructor; exact Hxy].
    + constructor; [exact IH |].
      assert (Hyx : holds le y x) by (destruct (le_total x y); [congruence | assumption]).
      destruct Hhd as [|z l Hyz]; cbn [insert].
      * constructor. exact Hyx.
      * destruct (le x z); constructor; assumption.
Qed.

Lemma sort_sorted l : Sorted (holds le) (sort le l).
Proof.
  induction l as [|x l IH]; cbn [sort]; [constructor | apply insert_sorted, IH].
Qed.

Lemma sort_fixed l : Sorted (holds le) l -> sort le l = l.
Proof.
  induction 1 as [|x l Hl IH Hhd]; [reflexivity |].
  cbn [sort]. rewrite IH.
  destruct Hhd as [|y l Hxy]; cbn [insert]; [reflexivity |].
  unfold holds in Hxy. rewrite Hxy. reflexivity.
Qed.

Lemma sort_idem l : sort le (sort le l) = sort le l.
Proof. apply sort_fixed, sort_sorted. Qed.

Lemma sort_forallb p l : forallb p (sort le l) = forallb p l.
Proof.
  assert (Hi : forall x l', forallb p (insert le x l') = p x && forallb p l').
  { intros x l'. induction l' as [|y l' IH]; cbn [insert forallb]; [reflexivity |].
    destruct (le x y); cbn [forallb]; [reflexivity |].
    rewrite IH. destruct (p x), (p y); reflexivity. }
  induction l as [|x l IH]; cbn [sort forallb]; [reflexivity |].
  rewrite Hi, IH. reflexivity.
Qed.

Lemma sort_nil l : sort le l = [] -> l = [].
Proof.
  intros H. pose proof (sort_perm l) as P. rewrite H in P.
  apply Permutation_nil. exact P.
Qed.

End SortFacts.

Lemma distinct_NoDup l : distinct l = true <-> NoDup l.
Proof.
  induction l as [|x l IH]; cbn [distinct].
  - split; [constructor | reflexivity].
  - rewrite andb_true_iff, negb_true_iff, IH. split.
    + intros [Hx Hl]. constructor; [| exact Hl].
      intros Hin. apply Bool.not_true_iff_false in Hx. apply Hx.
      apply existsb_exists. exists x. split; [exact Hin | apply String.eqb_refl].
    + intros H. inversion H as [|? ? Hx Hl]; subst. split; [| exact Hl].
      apply Bool.not_true_iff_false. intros He.
      apply existsb_exists in He as (y & Hy & Hxy).
      apply String.eqb_eq in Hxy. subst y. contradiction.
Qed.

Lemma distinct_perm l l' :
  Permutation l l' -> distinct l = true -> distinct l' = true.
Proof.
  intros P H. apply distinct_NoDup. apply distinct_NoDup in H.
  apply (Permutation_NoDup P H).
Qed.

Lemma sorted_distinct l : distinct l = true -> distinct (sorted l) = true.
Proof.
  apply distinct_perm. symmetry. apply sort_perm.
Qed.

Lemma frozenset_distinct l : distinct l = true -> frozenset l = l.
Proof.
  intros H. apply nodup_fixed_point. apply distinct_NoDup, H.
Qed.

Lemma sorted_idem l : sorted (sorted l) = sorted l.
Proof. apply sort_idem. apply String.leb_total. Qed.

Lemma key_le_total (a b : string * list string) :
  String.leb (fst a) (fst b) = true \/ String.leb (fst b) (fst a) = true.
Proof. apply String.leb_total. Qed.

Lemma sorted_items_keys d :
  distinct (map fst d) = true -> distinct (map fst (sorted_items d)) = true.
Proof.
  apply distinct_perm. apply Permutation_map. symmetry. apply sort_perm.
Qed.

End PyFacts.

(* ===================================================================== *)
(** ** The sentence reader *)
(* ===================================================================== *)

Module ReaderFacts.
Import Py Conllu Spec PyFacts.
Local Open Scope string_scope.
Local Open Scope list_scope.

(** A line that is not an id comment leaves a reader without pending ids
    in that condition, and the sentence it closes is named "0_0". *)
Lemma read_line_unnamed ds inc st line st' y :
  unnamed st ->
  negb (startswith "#" line)
  || (negb (contains (doc_id_prefix ds) line)
      && negb (contains (sent_id_prefix ds) line)) = true ->
  read_line ds inc st line = OK (st', y) ->
  unnamed st' /\ (forall s, y = Some s -> fst s = "0_0").
Proof.
  intros Hst Hline. unfold read_line.
  destruct (startswith "#" line) eqn:Hc; simpl in Hline.
  - apply andb_prop in Hline as [Hd Hs].
    apply negb_true_iff in Hd, Hs. rewrite Hd, Hs.
    intros [= <- <-]. split; [assumption | discriminate].
  - destruct (nonempty line).
    + intros H. apply bind_OK in H as (word & _ & H).
      destruct (inc || is_int (ID word)); injection H as <- <-;
        (split; [exact Hst | discriminate]).
    + intros [= <- <-].
      destruct Hst as [[Hd | Hd] [[Hs Hn] | Hs]]; rewrite Hd, Hs;
        try rewrite Hn; simpl;
        (split; [split; [right | right]; reflexivity
                | intros s [= <-]; reflexivity]).
Qed.

Lemma read_loop_unnamed ds inc lines :
  forall st n,
    unnamed st ->
    no_id_comments ds lines = true ->
    Forall (fun y => fst y = "0_0") (fst (read_loop ds inc st n lines)).
Proof.
  induction lines as [|raw rest IH]; intros st n Hst Hno; simpl.
  - constructor.
  - simpl in Hno. apply andb_prop in Hno as [Hraw Hrest].
    destruct (read_line ds inc st (strip raw)) as [[st' y]|e] eqn:Hr.
    + destruct (read_line_unnamed _ _ _ _ _ _ Hst Hraw Hr) as [Hst' Hy].
      specialize (IH st' (S n) Hst' Hrest).
      destruct (read_loop ds inc st' (S n) rest) as [ys r]. simpl in *.
      destruct y as [s|]; [constructor; auto | assumption].
    + constructor.
Qed.

(** C5. In a file without document-id or sentence-id comments every
    sentence that the reader yields is named "0_0": the pending ids are
    not reset after a sentence, so the counter names the first one only. *)
Theorem names_without_id_comments ds text inc :
  no_id_comments ds (file_lines text) = true ->
  Forall (fun y => fst y = "0_0") (fst (gen_sentences ds (text_file text) inc)).
Proof.
  intros Hno. unfold gen_sentences, text_file.
  pose proof (read_loop_unnamed ds inc (file_lines text) initial_reader 0) as H.
  destruct (read_loop ds inc initial_reader 0 (file_lines text)) as [ys r].
  apply H; [| exact Hno].
  split; [left; reflexivity | left; split; reflexivity].
Qed.

Lemma names_without_id_comments_witness :
  no_id_comments example_ds (file_lines two_sentences) = true
  /\ map fst (fst (gen_sentences example_ds (text_file two_sentences) false))
     = ["0_0"; "0_0"]
  /\ Forall (fun y => fst y = "0_0")
       (fst (gen_sentences example_ds (text_file two_sentences) false)).
Proof.
  split; [vm_compute; reflexivity |].
  split; [vm_compute; reflexivity |].
  apply (names_without_id_comments example_ds two_sentences false).
  vm_compute; reflexivity.
Defined.

(** *** Sentences are closed by blank lines only *)

Lemma read_line_not_blank ds inc st line st' y :
  line <> "" -> read_line ds inc st line = OK (st', y) -> y = None.
Proof.
  intros Hne. unfold read_line.
  destruct (startswith "#" line).
  - destruct (contains (doc_id_prefix ds) line).
    + intros H. apply bind_OK in H as (v & _ & [= <- <-]). reflexivity.
    + destruct (contains (sent_id_prefix ds) line).
      * intros H. apply bind_OK in H as (v & _ & [= <- <-]). reflexivity.
      * intros [= <- <-]. reflexivity.
  - destruct line as [|c line]; [contradiction Hne; reflexivity |].
    cbn [nonempty]. intros H. apply bind_OK in H as (word & _ & H).
    destruct (inc || is_int (ID word)); injection H as <- <-; reflexivity.
Qed.

Lemma read_loop_tail ds inc l2 :
  Forall (fun raw => strip raw <> "") l2 ->
  Forall (readable ds inc) l2 ->
  forall st n, read_loop ds inc st n l2 = ([], None).
Proof.
  induction 1 as [|raw l2 Hraw _ IH]; intros Hok st n; [reflexivity |].
  inversion Hok as [|? ? Hr Hok']; subst. cbn [read_loop].
  destruct (Hr st) as [[st' y] Hst]. rewrite Hst.
  rewrite (read_line_not_blank _ _ _ _ _ _ Hraw Hst).
  rewrite (IH Hok'). reflexivity.
Qed.

Lemma read_loop_app_tail ds inc l2 :
  Forall (fun raw => strip raw <> "") l2 ->
  Forall (readable ds inc) l2 ->
  forall l1 st n ys,
    read_loop ds inc st n l1 = (ys, None) ->
    read_loop ds inc st n (l1 ++ l2) = (ys, None).
Proof.
  intros Hnb Hok. induction l1 as [|raw l1 IH]; intros st n ys.
  - intros [= <-]. apply read_loop_tail; assumption.
  - cbn [read_loop app].
    destruct (read_line ds inc st (strip raw)) as [[st' y]|e]; [| discriminate].
    destruct (read_loop ds inc st' (S n) l1) as [ys1 r1] eqn:H1.
    intros [= <- ->]. rewrite (IH _ _ _ H1). reflexivity.
Qed.

Lemma read_line_yields ds inc st raw st' y :
  read_line ds inc st (strip raw) = OK (st', y) ->
  is_blank raw = true <-> y <> None.
Proof.
  unfold is_blank. intros H.
  destruct (strip raw) as [|c line] eqn:Hs.
  - cbn in H. injection H as <- <-. split; [discriminate | reflexivity].
  - assert (Hne : String c line <> "") by discriminate.
    rewrite (read_line_not_blank _ _ _ _ _ _ Hne H).
    split; [discriminate | intros Hc; contradiction Hc; reflexivity].
Qed.

Lemma read_loop_count ds inc lines :
  forall st n ys,
    read_loop ds inc st n lines = (ys, None) ->
    length ys = length (filter is_blank lines).
Proof.
  induction lines as [|raw lines IH]; intros st n ys.
  - intros [= <-]. reflexivity.
  - cbn [read_loop filter].
    destruct (read_line ds inc st (strip raw)) as [[st' y]|e] eqn:Hr;
      [| discriminate].
    destruct (read_loop ds inc st' (S n) lines) as [ys1 r1] eqn:H1.
    intros [= <- ->]. pose proof (read_line_yields _ _ _ _ _ _ Hr) as Hy.
    specialize (IH _ _ _ H1).
    destruct y as [s|].
    + rewrite (proj2 Hy) by discriminate. simpl. rewrite IH. reflexivity.
    + destruct (is_blank raw); [| exact IH].
      destruct (proj1 Hy eq_refl). reflexivity.
Qed.

(** C10. Let the lines of a file be [l1] followed by [l2], where no line
    of [l2] is blank and the reader accepts each of them.  The reader
    yields for the file what it yields for [l1], one sentence for each
    blank line, and raises nothing: the records of [l2], which no blank
    line closes, are dropped in silence. *)
Theorem unterminated_sentence_discarded ds inc text l1 l2 ys :
  file_lines text = l1 ++ l2 ->
  read_loop ds inc initial_reader 0 l1 = (ys, None) ->
  Forall (fun raw => strip raw <> "") l2 ->
  Forall (readable ds inc) l2 ->
  gen_sentences ds (text_file text) inc = (ys, None)
  /\ length ys = length (filter is_blank (file_lines text)).
Proof.
  intros Hlines H1 Hnb Hok.
  pose proof (read_loop_app_tail ds inc l2 Hnb Hok l1 _ _ _ H1) as H.
  unfold gen_sentences, text_file. rewrite Hlines, H.
  split; [reflexivity |].
  apply (read_loop_count ds inc (l1 ++ l2) initial_reader 0 ys H).
Qed.

Lemma unterminated_sentence_discarded_witness :
  gen_sentences example_ds (text_file (the_dog ++ unterminated)%string) false
  = (fst (gen_sentences example_ds (text_file the_dog) false), None)
  /\ length (fst (gen_sentences example_ds (text_file the_dog) false)) = 1%nat.
Proof.
  assert (Hok : Forall (readable example_ds false) (file_lines unterminated)).
  { repeat constructor; intros st; eexists; vm_compute; reflexivity. }
  assert (Hnb : Forall (fun raw => strip raw <> "") (file_lines unterminated)).
  { repeat constructor; vm_compute; discriminate. }
  destruct (unterminated_sentence_discarded example_ds false
              (the_dog ++ unterminated)%string
              (file_lines the_dog) (file_lines unterminated)
              (fst (gen_sentences example_ds (text_file the_dog) false))
              eq_refl eq_refl Hnb Hok) as [H1 H2].
  split; [exact H1 | exact H2].
Defined.

(** *** Errors *)

Lemma assert_raises b e : assert b = Raise e -> read_exn e.
Proof. destruct b; [discriminate | intros [= <-]; left; reflexivity]. Qed.

Lemma int_raises s e : int s = Raise e -> read_exn e.
Proof.
  unfold int. destruct (int_signed _); [discriminate |].
  intros [= <-]. right; reflexivity.
Qed.

Lemma read_feats_items_raises items e :
  read_feats_items items = Raise e -> read_exn e.
Proof.
  induction items as [|x items IH]; [discriminate |].
  cbn [read_feats_items]. intros H.
  apply bind_Raise in H as [H | (kv & _ & H)].
  - unfold read_feat in H.
    destruct (split "=" x) as [|k [|v [|? ?]]]; try discriminate;
      injection H as <-; right; reflexivity.
  - apply bind_Raise in H as [H | (kvs & _ & H)]; [apply IH, H | discriminate].
Qed.

Lemma read_word_raises ds line e :
  _read_word ds line = Raise e -> read_exn e.
Proof.
  unfold _read_word. intros H.
  apply bind_Raise in H as [H | ([] & _ & H)]; [apply (assert_raises _ _ H) |].
  destruct line as [|f0 [|f1 [|f2 [|f3 [|f4 [|f5 [|f6 [|f7 [|f8 [|f9 [|? ?]]]]]]]]]]];
    try (injection H as <-; left; reflexivity).
  apply bind_Raise in H as [H | (id & _ & H)].
  { destruct (isdigit f0).
    - apply bind_Raise in H as [H | (n & _ & H)];
        [apply (int_raises _ _ H) | discriminate].
    - apply bind_Raise in H as [H | (u & _ & H)];
        [apply (assert_raises _ _ H) | discriminate]. }
  apply bind_Raise in H as [H | ([] & _ & H)]; [apply (assert_raises _ _ H) |].
  apply bind_Raise in H as [H | (fs & _ & H)].
  { destruct (String.eqb f5 "_"); [discriminate |].
    unfold read_feats in H.
    apply bind_Raise in H as [H | (kvs & _ & H)];
      [apply (read_feats_items_raises _ _ H) | discriminate]. }
  apply bind_Raise in H as [H | (head & _ & H)]; [| discriminate].
  destruct (negb (String.eqb f6 "_")); [| discriminate].
  apply bind_Raise in H as [H | (n & _ & H)];
    [apply (int_raises _ _ H) | discriminate].
Qed.

Lemma partition_last_raises sep s e :
  partition_last sep s = Raise e -> read_exn e.
Proof.
  unfold partition_last. destruct sep.
  - intros [= <-]. right; reflexivity.
  - destruct (find_after _ s); discriminate.
Qed.

Lemma read_line_raises ds inc st line e :
  read_line ds inc st line = Raise e -> read_exn e.
Proof.
  unfold read_line.
  destruct (startswith "#" line).
  - destruct (contains (doc_id_prefix ds) line).
    + intros H. apply bind_Raise in H as [H | (v & _ & H)];
        [apply (partition_last_raises _ _ _ H) | discriminate].
    + destruct (contains (sent_id_prefix ds) line); [| discriminate].
      intros H. apply bind_Raise in H as [H | (v & _ & H)];
        [apply (partition_last_raises _ _ _ H) | discriminate].
  - destruct (nonempty line); [| discriminate].
    intros H. apply bind_Raise in H as [H | (word & _ & H)].
    + apply (read_word_raises _ _ _ H).
    + destruct (inc || is_int (ID word)); discriminate.
Qed.

Lemma read_handler_format ds e n :
  read_exn e -> read_handler ds e (Some n) = format_error ds n.
Proof. intros [-> | ->]; reflexivity. Qed.

(** Where the loop stops: at the first line that the reader refuses. *)
Lemma read_loop_error ds inc lines :
  forall st k ys e m,
    read_loop ds inc st k lines = (ys, Some (e, m)) ->
    exists i raw st',
      m = (k + i)%nat
      /\ nth_error lines i = Some raw
      /\ read_line ds inc st' (strip raw) = Raise e
      /\ read_loop ds inc st k (firstn i lines) = (ys, None).
Proof.
  induction lines as [|raw lines IH]; intros st k ys e m; [discriminate |].
  cbn [read_loop].
  destruct (read_line ds inc st (strip raw)) as [[st1 y]|e1] eqn:Hr.
  - destruct (read_loop ds inc st1 (S k) lines) as [ys1 r1] eqn:H1.
    intros [= <- ->].
    destruct (IH _ _ _ _ _ H1) as (i & raw' & st' & -> & Hn & He & Hf).
    exists (S i), raw', st'. cbn [nth_error firstn read_loop].
    rewrite Hr, Hf.
    repeat split; [lia | exact Hn | exact He].
  - intros [= <- <- <-]. exists 0%nat, raw, st.
    repeat split; [lia | exact Hr].
Qed.

(** When the reader fails on a file that can be read to its end, the
    lines before some line [n], counted from 0, were read, the reader
    refuses line [n], and the error is "Could not read" with the path and
    [n]; when the file cannot be opened the error is "Could not open"
    with the path.  The two errors are never the same. *)
Lemma text_file_failures ds text inc ys e :
  gen_sentences ds (text_file text) inc = (ys, Some e) ->
  (exists n raw st e',
      nth_error (file_lines text) n = Some raw
      /\ read_loop ds inc initial_reader 0 (firstn n (file_lines text))
         = (ys, None)
      /\ read_line ds inc st (strip raw) = Raise e'
      /\ e = format_error ds n)
  /\ gen_sentences ds NoFile inc = ([], Some (open_error ds))
  /\ (forall ds' n, open_error ds' <> format_error ds n).
Proof.
  intros H. split; [| split; [reflexivity | intros ds' n; discriminate]].
  unfold gen_sentences, text_file in H.
  destruct (read_loop ds inc initial_reader 0 (file_lines text))
    as [ys1 [[e1 m]|]] eqn:Hl; [| discriminate].
  injection H as <- <-.
  destruct (read_loop_error _ _ _ _ _ _ _ _ Hl)
    as (i & raw & st & -> & Hn & He & Hf).
  exists i, raw, st, e1.
  repeat split; try assumption.
  apply read_handler_format, (read_line_raises _ _ _ _ _ He).
Qed.

(** C4. A failure of the reader that is neither of the two errors: when
    the read raises ValueError before the first line, as it does for a
    file that does not start with UTF-8 text, the handler refers to
    [line_num], which the loop has not bound, and UnboundLocalError
    leaves [gen_sentences]. *)
Theorem undecodable_file_error ds inc :
  gen_sentences ds (File "" (Some ValueError)) inc
  = ([], Some UnboundLocalError)
  /\ UnboundLocalError <> open_error ds
  /\ (forall n, UnboundLocalError <> format_error ds n).
Proof.
  split; [reflexivity |]. split; [discriminate | intros n; discriminate].
Qed.

End ReaderFacts.

(* ===================================================================== *)
(** ** The graph builder and the graph serializer *)
(* ===================================================================== *)

Module GraphFacts.
Import Py Conllu Spec PyFacts.
Local Open Scope string_scope.
Local Open Scope list_scope.

(** *** Graphs built by [gen_graphs] *)

Lemma set_node_root_first d rest n data :
  attr_FORM d = None -> attr_FORM data = None ->
  exists d' rest',
    set_node ((PStr "0", d) :: rest) n data = (PStr "0", d') :: rest'
    /\ attr_FORM d' = None.
Proof.
  intros Hd Hdata. cbn [set_node].
  destruct (pyval_eqb (PStr "0") n).
  - eexists; eexists; split; [reflexivity |].
    unfold update_node. simpl. rewrite Hdata. exact Hd.
  - eexists; eexists; split; [reflexivity | exact Hd].
Qed.

Lemma add_node_root_first g n data :
  root_first g -> attr_FORM data = None -> root_first (add_node g n data).
Proof.
  intros (d & rest & Hn & Hd) Hdata. unfold root_first, add_node. simpl.
  rewrite Hn. apply set_node_root_first; assumption.
Qed.

Lemma add_edge_root_first g u v data :
  root_first g -> root_first (add_edge g u v data).
Proof.
  intros (d & rest & Hn & Hd). unfold root_first, add_edge. simpl.
  rewrite Hn.
  destruct (set_node_root_first d rest u no_data Hd eq_refl)
    as (d1 & rest1 & -> & Hd1).
  apply set_node_root_first; [assumption | reflexivity].
Qed.

Lemma add_word_root_first ds edgeless g word :
  root_first g -> root_first (add_word ds edgeless g word).
Proof.
  intros Hg. unfold add_word.
  destruct (is_int (ID word)).
  - destruct (negb edgeless && negb (pyval_eqb (HEAD word) (PStr "_"))).
    + apply add_edge_root_first, add_node_root_first; [assumption | reflexivity].
    + apply add_node_root_first; [assumption | reflexivity].
  - exact Hg.
Qed.

Lemma fold_add_word_root_first ds edgeless sent :
  forall g, root_first g -> root_first (fold_left (add_word ds edgeless) sent g).
Proof.
  induction sent as [|word sent IH]; intros g Hg; simpl; [exact Hg |].
  apply IH, add_word_root_first, Hg.
Qed.

Lemma sentence_graph_root_first ds edgeless sent :
  root_first (sentence_graph ds edgeless sent).
Proof.
  apply fold_add_word_root_first.
  exists (label_data nbsp), []. split; reflexivity.
Qed.

(** The serializer does not skip such a root: it asks for its incoming
    edge and for its FORM. *)
Lemma root_first_not_serialized g :
  root_first g ->
  graph_sentence g = Raise IndexError
  \/ graph_sentence g = Raise (ConlluError "Graphs do not conform to the spec").
Proof.
  intros (d & rest & Hn & Hd). unfold graph_sentence. rewrite Hn. simpl.
  unfold node_word. destruct (in_edges g (PStr "0")) as [|e es]; simpl.
  - left; reflexivity.
  - rewrite Hd. simpl. right; reflexivity.
Qed.

(** C1. Whatever the file, [write_graphs] rejects the graphs that
    [gen_graphs] yields: it never gives back the text of the sentences,
    it raises IndexError or ConlluError at the root of the first graph. *)
Theorem gen_graphs_not_writable ds file edgeless ds' writable :
  fst (gen_graphs ds file edgeless) <> [] ->
  let graphs := map snd (fst (gen_graphs ds file edgeless)) in
  write_graphs ds' writable graphs = Raise IndexError
  \/ write_graphs ds' writable graphs
     = Raise (ConlluError "Graphs do not conform to the spec").
Proof.
  unfold gen_graphs.
  destruct (gen_sentences ds file true) as [ys r]. simpl.
  destruct ys as [|[name sent] ys]; [intros H; contradiction H; reflexivity |].
  intros _. simpl. unfold write_graphs. simpl.
  destruct (root_first_not_serialized _ (sentence_graph_root_first ds edgeless sent))
    as [-> | ->]; simpl; [left | right]; reflexivity.
Qed.

Lemma gen_graphs_not_writable_witness :
  fst (gen_graphs example_ds (text_file the_dog) false) <> []
  /\ write_graphs example_ds true
       (map snd (fst (gen_graphs example_ds (text_file the_dog) false)))
     = Raise IndexError.
Proof.
  assert (H : fst (gen_graphs example_ds (text_file the_dog) false) <> [])
    by (vm_compute; discriminate).
  split; [exact H |].
  destruct (gen_graphs_not_writable example_ds (text_file the_dog) false
              example_ds true H) as [E | E]; [exact E |].
  vm_compute in E. discriminate E.
Defined.

(** *** Side annotations *)

Lemma add_word_annotations ds edgeless g word :
  (forall k v, In (k, v) (graph g) -> v = IStr k) ->
  forall k v, In (k, v) (graph (add_word ds edgeless g word)) -> v = IStr k.
Proof.
  intros Hg k v. unfold add_word.
  destruct (is_int (ID word)).
  - destruct (negb edgeless && negb (pyval_eqb (HEAD word) (PStr "_")));
      simpl; apply Hg.
  - simpl. intros H. apply dict_set_In in H as [H | [-> ->]];
      [apply Hg, H | reflexivity].
Qed.

Lemma fold_add_word_annotations ds edgeless sent :
  forall g,
    (forall k v, In (k, v) (graph g) -> v = IStr k) ->
    forall k v,
      In (k, v) (graph (fold_left (add_word ds edgeless) sent g)) -> v = IStr k.
Proof.
  induction sent as [|word sent IH]; intros g Hg; simpl; [exact Hg |].
  apply IH, add_word_annotations, Hg.
Qed.

(** C7. What the graph builder stores under the id of a multiword token
    or empty node is that id again, a str: the record is not stored. *)
Theorem annotation_is_id ds edgeless sent k v :
  In (k, v) (graph (sentence_graph ds edgeless sent)) -> v = IStr k.
Proof.
  apply fold_add_word_annotations. intros k' v' [].
Qed.

Lemma annotation_is_id_witness :
  let sent := snd (hd ("", []) (fst (gen_sentences example_ds (text_file gonna) true))) in
  In ("3-4", IStr "3-4") (graph (sentence_graph example_ds false sent))
  /\ IStr "3-4" = IStr "3-4".
Proof.
  intros sent.
  assert (H : In ("3-4", IStr "3-4") (graph (sentence_graph example_ds false sent)))
    by (vm_compute; left; reflexivity).
  split; [exact H |].
  exact (annotation_is_id example_ds false sent "3-4" (IStr "3-4") H).
Defined.

(** *** The serializer *)

Lemma node_word_ID g key data w :
  node_word g key data = OK w -> ID w = key.
Proof.
  unfold node_word. intros H.
  apply bind_OK in H as (edge & _ & H).
  apply bind_OK in H as (form & _ & H).
  apply bind_OK in H as (lemma & _ & H).
  apply bind_OK in H as (upostag & _ & H).
  apply bind_OK in H as (fs & _ & H).
  injection H as <-. reflexivity.
Qed.

Lemma node_words_order_from g ns :
  forall s,
    node_words g ns = OK s ->
    map ID (words_of s) = filter not_root (map fst ns)
    /\ forallb is_word s = true.
Proof.
  induction ns as [|[key data] ns IH]; intros s; simpl.
  - intros [= <-]. split; reflexivity.
  - unfold not_root at 1.
    destruct (pyval_eqb key (PInt 0)); simpl; [apply IH |].
    intros H.
    apply bind_OK in H as (w & Hw & H).
    apply bind_OK in H as (ws & Hws & H).
    injection H as <-. simpl.
    destruct (IH ws Hws) as [Hids Hall].
    rewrite Hids, Hall, (node_word_ID _ _ _ _ Hw). split; reflexivity.
Qed.

(** C9 as stated fails: the graph "The dog" whose node 2 was added before
    node 1 is accepted and written, with word 2 before word 1. *)
Lemma unordered_graph_accepted :
  exists s text,
    node_words unordered_graph (nodes unordered_graph) = OK s
    /\ map ID (words_of s) = [PInt 2; PInt 1]
    /\ ascending (map ID (words_of s)) = false
    /\ write_graphs example_ds true [unordered_graph] = OK text.
Proof.
  eexists; eexists.
  split; [vm_compute; reflexivity |].
  split; [reflexivity |].
  split; [reflexivity |].
  vm_compute; reflexivity.
Qed.

(** C9, amended. The word records that the serializer reconstructs, before
    the side annotations are spliced in, follow the order of the node
    table of the graph, the node with key 0 left out; they are in
    ascending numeric id order when the node table is. *)
Theorem node_words_order g s :
  node_words g (nodes g) = OK s ->
  map ID (words_of s) = filter not_root (map fst (nodes g))
  /\ forallb is_word s = true
  /\ (ascending (filter not_root (map fst (nodes g))) = true ->
      ascending (map ID (words_of s)) = true).
Proof.
  intros H. destruct (node_words_order_from g (nodes g) s H) as [Hids Hall].
  split; [exact Hids |]. split; [exact Hall |].
  rewrite Hids. trivial.
Qed.

Lemma node_words_order_witness :
  let s := [IWord (mkWord (PInt 2) "dog" "dog" "NOUN" "_" [] (PInt 0) "root" "_" "_");
            IWord (mkWord (PInt 1) "The" "the" "DET" "_" [] (PInt 2) "det" "_" "_")] in
  node_words unordered_graph (nodes unordered_graph) = OK s
  /\ map ID (words_of s) = filter not_root (map fst (nodes unordered_graph)).
Proof.
  intros s.
  assert (H : node_words unordered_graph (nodes unordered_graph) = OK s)
    by (vm_compute; reflexivity).
  split; [exact H |].
  exact (proj1 (node_words_order unordered_graph s H)).
Defined.

(** C3 as stated fails: node 1 of [two_heads_graph] has two incoming
    edges, and the graph is serialized and written, with the first of the
    two edges as the head of word 1. *)
Lemma two_heads_graph_accepted :
  exists w1 w2 text,
    shape_violation two_heads_graph = true
    /\ length (in_edges two_heads_graph (PInt 1)) = 2%nat
    /\ graph_sentence two_heads_graph = OK [IWord w1; IWord w2]
    /\ HEAD w1 = PInt 0
    /\ write_graphs example_ds true [two_heads_graph] = OK text.
Proof.
  eexists; eexists; eexists.
  split; [vm_compute; reflexivity |].
  split; [vm_compute; reflexivity |].
  split; [vm_compute; reflexivity |].
  split; [reflexivity |].
  vm_compute; reflexivity.
Qed.

(** A node without incoming edge: [in_edges(key)[0]] raises IndexError,
    which the [except] clause does not name. *)
Lemma node_word_no_edge g key data :
  in_edges g key = [] -> node_word g key data = Raise IndexError.
Proof. intros H. unfold node_word. rewrite H. reflexivity. Qed.

Lemma node_word_first_edge g key data e es :
  in_edges g key = e :: es ->
  attr_FEATS data <> None ->
  if missing_required data
  then node_word g key data
       = Raise (ConlluError "Graphs do not conform to the spec")
  else exists w, node_word g key data = OK w
                 /\ word_of_node g (key, data) w.
Proof.
  intros He Hf. unfold node_word, missing_required, word_of_node.
  rewrite He. simpl.
  destruct (attr_FORM data) as [form|] eqn:E1; simpl; [| reflexivity].
  destruct (attr_LEMMA data) as [lemma|] eqn:E2; simpl; [| reflexivity].
  destruct (attr_UPOSTAG data) as [upostag|] eqn:E3; simpl; [| reflexivity].
  destruct (attr_FEATS data) as [fs|] eqn:E4; [| contradiction Hf; reflexivity].
  simpl. eexists. split; [reflexivity |].
  exists e, es. simpl. repeat split; assumption || reflexivity.
Qed.

Lemma node_words_first_edge g ns :
  (forall k d, In (k, d) ns -> not_root k = true ->
               in_edges g k <> [] /\ attr_FEATS d <> None) ->
  if lacks_required ns
  then node_words g ns = Raise (ConlluError "Graphs do not conform to the spec")
  else exists ws,
      node_words g ns = OK (map IWord ws)
      /\ Forall2 (word_of_node g)
           (filter (fun kd => not_root (fst kd)) ns) ws.
Proof.
  induction ns as [|[key data] ns IH]; intros Hns.
  - exists []. split; [reflexivity | constructor].
  - assert (Hns' : forall k d, In (k, d) ns -> not_root k = true ->
                               in_edges g k <> [] /\ attr_FEATS d <> None)
      by (intros k d Hin; apply Hns; right; exact Hin).
    specialize (IH Hns').
    cbn [lacks_required existsb node_words filter fst snd].
    fold (lacks_required ns).
    destruct (not_root key) eqn:Hk; unfold not_root in Hk.
    + apply negb_true_iff in Hk. rewrite Hk.
      destruct (Hns key data (or_introl eq_refl)) as [He Hf];
        [unfold not_root; rewrite Hk; reflexivity |].
      destruct (in_edges g key) as [|e es] eqn:Hin;
        [contradiction He; reflexivity |].
      pose proof (node_word_first_edge g key data e es Hin Hf) as Hw.
      destruct (missing_required data); cbn [andb orb].
      * rewrite Hw. reflexivity.
      * destruct Hw as (w & Hw & Hwn). rewrite Hw. cbn [bind].
        destruct (lacks_required ns).
        -- rewrite IH. reflexivity.
        -- destruct IH as (ws & IH & Hws). rewrite IH. cbn [bind].
           exists (w :: ws). split; [reflexivity |].
           constructor; [exact Hwn | exact Hws].
    + apply negb_false_iff in Hk. rewrite Hk. cbn [andb orb]. exact IH.
Qed.

(** C3, amended. When every node other than the node with key 0 has at
    least one incoming edge and a FEATS attribute, the serializer fails
    with ConlluError if one of them lacks FORM, LEMMA or UPOSTAG, and
    otherwise builds one record per such node, in order, from the node
    and the first of its incoming edges, however many there are; the node
    with key 0 gives no record. *)
Theorem first_incoming_edge g :
  (forall k d, In (k, d) (nodes g) -> not_root k = true ->
               in_edges g k <> [] /\ attr_FEATS d <> None) ->
  if lacks_required (nodes g)
  then node_words g (nodes g)
       = Raise (ConlluError "Graphs do not conform to the spec")
  else exists ws,
      node_words g (nodes g) = OK (map IWord ws)
      /\ Forall2 (word_of_node g)
           (filter (fun kd => not_root (fst kd)) (nodes g)) ws.
Proof.
  apply node_words_first_edge.
Qed.

Lemma first_incoming_edge_witness :
  (forall k d, In (k, d) (nodes two_heads_graph) -> not_root k = true ->
               in_edges two_heads_graph k <> [] /\ attr_FEATS d <> None)
  /\ exists ws,
      node_words two_heads_graph (nodes two_heads_graph) = OK (map IWord ws)
      /\ Forall2 (word_of_node two_heads_graph)
           (filter (fun kd => not_root (fst kd)) (nodes two_heads_graph)) ws.
Proof.
  assert (H : forall k d, In (k, d) (nodes two_heads_graph) ->
                          not_root k = true ->
                          in_edges two_heads_graph k <> []
                          /\ attr_FEATS d <> None).
  { intros k d [[= <- <-] | [[= <- <-] | [[= <- <-] | []]]] Hk;
      try discriminate Hk; split; discriminate. }
  split; [exact H |].
  exact (first_incoming_edge two_heads_graph H).
Defined.

End GraphFacts.

(* ===================================================================== *)
(** ** The line parser *)
(* ===================================================================== *)

Module LineFacts.
Import Py Conllu Spec PyFacts.
Local Open Scope string_scope.
Local Open Scope list_scope.

(** *** Which lines are rejected *)

Lemma read_feat_error x :
  is_error (read_feat x) = negb (count_char "=" x =? 1)%nat.
Proof.
  unfold read_feat. pose proof (split_length "=" x) as H.
  destruct (split "=" x) as [|k [|v [|? ?]]]; cbn [length] in H;
    try discriminate H; injection H as H; rewrite <- H; reflexivity.
Qed.

Lemma read_feats_items_error items :
  is_error (read_feats_items items)
  = negb (forallb (fun x => (count_char "=" x =? 1)%nat) items).
Proof.
  induction items as [|x items IH]; [reflexivity |].
  cbn [read_feats_items forallb]. rewrite is_error_bind.
  pose proof (read_feat_error x) as Hx.
  destruct (read_feat x) as [kv|e]; cbn [is_error] in Hx.
  - apply (f_equal negb) in Hx. rewrite negb_involutive in Hx.
    rewrite <- Hx. cbn [negb andb].
    rewrite is_error_bind.
    destruct (read_feats_items items); exact IH.
  - apply (f_equal negb) in Hx. rewrite negb_involutive in Hx.
    rewrite <- Hx. reflexivity.
Qed.

Lemma feats_step_error f5 :
  is_error (if String.eqb f5 "_" then OK [] else read_feats f5)
  = negb (feats_ok f5).
Proof.
  unfold feats_ok, read_feats. destruct (String.eqb f5 "_"); [reflexivity |].
  cbn [orb]. rewrite is_error_bind.
  pose proof (read_feats_items_error (split "|" f5)) as H.
  destruct (read_feats_items (split "|" f5)); exact H.
Qed.

Lemma integer_id_isdigit s : integer_id s = true -> isdigit s = true.
Proof.
  unfold integer_id, isdigit. intros H. apply andb_prop in H as [-> H].
  apply (forallb_str_impl _ _ s decimal_digit H).
Qed.

Lemma id_step_error f0 :
  is_error (if isdigit f0 then bind (int f0) (fun n => OK (PInt n))
            else bind (assert (forallb_str id_char f0))
                   (fun _ => OK (PStr f0)))
  = negb (integer_id f0 || span_id f0).
Proof.
  unfold span_id. destruct (isdigit f0) eqn:Hd.
  - rewrite is_error_bind. pose proof (int_isdigit f0 Hd) as Hi.
    unfold integer_id. unfold isdigit in Hd.
    apply andb_prop in Hd as [-> _]. cbn [negb andb orb].
    rewrite orb_false_r. destruct (int f0); exact Hi.
  - destruct (integer_id f0) eqn:Hi.
    + rewrite (integer_id_isdigit f0 Hi) in Hd. discriminate.
    + cbn [negb andb orb]. destruct (forallb_str id_char f0); reflexivity.
Qed.

Lemma head_step_error f6 :
  is_error (if negb (String.eqb f6 "_")
            then bind (int f6) (fun n => OK (PInt n))
            else OK (PStr f6))
  = negb (head_ok f6).
Proof.
  unfold head_ok. destruct (String.eqb f6 "_"); [reflexivity |].
  cbn [negb orb]. destruct (int f6); reflexivity.
Qed.

Lemma read_word_error ds line :
  is_error (_read_word ds line) = rejected ds line.
Proof.
  unfold _read_word, rejected.
  fold (ten_fields line).
  destruct (ten_fields line) eqn:Hten; [| reflexivity].
  cbn [assert bind negb orb].
  unfold ten_fields in Hten. apply andb_prop in Hten as [Hlen _].
  apply Nat.eqb_eq in Hlen.
  destruct line as [|f0 [|f1 [|f2 [|f3 [|f4 [|f5 [|f6 [|f7 [|f8 [|f9 [|? ?]]]]]]]]]]];
    try discriminate Hlen.
  unfold field. cbn [nth].
  rewrite is_error_bind. pose proof (id_step_error f0) as Hid.
  destruct (if isdigit f0 then _ else _) as [id|e]; cbn [is_error] in Hid;
    rewrite <- Hid; [| reflexivity].
  cbn [orb]. rewrite is_error_bind. fold (upos_ok ds f3).
  destruct (upos_ok ds f3); [| reflexivity].
  cbn [assert negb orb]. rewrite is_error_bind.
  pose proof (feats_step_error f5) as Hf.
  destruct (if String.eqb f5 "_" then _ else _) as [fs|e];
    cbn [is_error] in Hf; rewrite <- Hf; [| reflexivity].
  cbn [orb]. rewrite is_error_bind.
  pose proof (head_step_error f6) as Hh.
  destruct (if negb (String.eqb f6 "_") then _ else _) as [head|e];
    cbn [is_error] in Hh; rewrite <- Hh; reflexivity.
Qed.

(** C6 as stated fails, in both directions.  The line whose HEAD column
    is "x" has ten non-empty fields, a positive integer id, a known tag
    and the FEATS "_", and the parser refuses it.  The line whose ID
    column is "0" has no positive integer id, and the parser accepts it,
    with the ID 0. *)
Lemma bad_head_rejected :
  (spec_rejected example_ds (split tab bad_head) = false
   /\ _read_word example_ds (split tab bad_head) = Raise ValueError
   /\ snd (gen_sentences example_ds (text_file bad_head) false)
      = Some (format_error example_ds 0))
  /\ (spec_rejected example_ds (split tab zero_id) = true
      /\ (exists w, _read_word example_ds (split tab zero_id) = OK w
                    /\ ID w = PInt 0)
      /\ snd (gen_sentences example_ds (text_file zero_id) false) = None).
Proof.
  split; [repeat split; vm_compute; reflexivity |].
  split; [vm_compute; reflexivity |]. split; [| vm_compute; reflexivity].
  eexists. split; vm_compute; reflexivity.
Qed.

(** A head that [str.strip] would reduce to an integer is refused all the
    same: [int] does not skip U+001C. *)
Lemma separator_head_rejected :
  _read_word example_ds (split tab separator_head) = Raise ValueError
  /\ rejected example_ds (split tab separator_head) = true.
Proof. split; vm_compute; reflexivity. Qed.

(** C6, amended. Parsing a line fails exactly when the line does not
    split into 10 non-empty tab-separated fields, or its id field is
    neither an integer written in decimal digits (0 included) nor an id
    of a multiword token or empty node made of digits, "-" and ".", or
    its upos field is neither "_" nor in the POS tag set, or its feats
    field does not read as "key=value1,value2|key2=...", or its head
    field is neither "_" nor an integer literal that [int] accepts; the
    reader reports each such failure as its format error. *)
Theorem line_rejected_iff ds (line : string) (n : nat) :
  ((exists e, _read_word ds (split tab line) = Raise e)
   <-> rejected ds (split tab line) = true)
  /\ (forall e, _read_word ds (split tab line) = Raise e ->
                read_handler ds e (Some n) = format_error ds n).
Proof.
  split.
  - rewrite <- read_word_error.
    destruct (_read_word ds (split tab line)) as [w|e]; cbn [is_error].
    + split; [intros [e H]; discriminate | discriminate].
    + split; [reflexivity | intros _; exists e; reflexivity].
  - intros e H. destruct (ReaderFacts.read_word_raises ds _ e H) as [-> | ->];
      reflexivity.
Qed.

End LineFacts.

(* ===================================================================== *)
(** ** Writing and reading back *)
(* ===================================================================== *)

Module RoundTrip.
Import Py Conllu Spec PyFacts.
Local Open Scope string_scope.
Local Open Scope list_scope.

(** *** Characters of the columns *)

Lemma clean_no_tab s : clean s = true -> no_char tab s = true.
Proof.
  apply forallb_str_impl. intros c. unfold clean_char.
  destruct (Ascii.eqb c tab); [discriminate | reflexivity].
Qed.

Lemma id_char_facts c :
  id_char c = true ->
  isspace_char c = false /\ clean_char c = true /\ Ascii.eqb c "#" = false.
Proof. ascii_cases c; intros _; repeat split. Qed.

Lemma decimal_clean s :
  forallb_str isdecimal_char s = true -> clean s = true.
Proof.
  apply forallb_str_impl. intros c Hc.
  destruct (decimal_facts c Hc) as (_ & H & _). exact H.
Qed.

Lemma str_of_Z_column n : column (str_of_Z n) = true.
Proof.
  unfold column. destruct (Z.ltb_spec n 0) as [Hlt | Hge].
  - rewrite (str_of_Z_neg n Hlt).
    destruct (str_of_Z_nonneg (- n)) as (_ & Hall & _); [lia |].
    cbn [nonempty andb]. unfold clean. cbn [forallb_str].
    change (clean_char "-") with true. cbn [andb].
    apply decimal_clean, Hall.
  - destruct (str_of_Z_nonneg n Hge) as (-> & Hall & _).
    apply decimal_clean, Hall.
Qed.

(** *** The FEATS column *)

Lemma dict_set_fresh {V : Type} k (v : V) d :
  existsb (String.eqb k) (map fst d) = false ->
  dict_set k v d = d ++ [(k, v)].
Proof.
  induction d as [|[k' v'] d IH]; [reflexivity |].
  cbn [map fst existsb dict_set app]. intros H.
  apply orb_false_iff in H as [Hk Hd].
  rewrite String.eqb_sym, Hk, (IH Hd). reflexivity.
Qed.

Lemma dict_of_distinct_from {V : Type} (l : list (string * V)) :
  forall acc,
    distinct (map fst acc ++ map fst l) = true ->
    fold_left (fun d kv => dict_set (fst kv) (snd kv) d) l acc = acc ++ l.
Proof.
  induction l as [|[k v] l IH]; intros acc H.
  - rewrite app_nil_r. reflexivity.
  - cbn [fold_left fst snd].
    assert (Hk : existsb (String.eqb k) (map fst acc) = false).
    { apply Bool.not_true_iff_false. intros He.
      apply existsb_exists in He as (y & Hy & Hky).
      apply String.eqb_eq in Hky. subst y.
      apply distinct_NoDup in H. apply NoDup_remove_2 in H.
      apply H, in_or_app. left. exact Hy. }
    rewrite (dict_set_fresh k v acc Hk), IH.
    + rewrite <- app_assoc. reflexivity.
    + rewrite map_app, <- app_assoc. exact H.
Qed.

Lemma dict_of_distinct {V : Type} (l : list (string * V)) :
  distinct (map fst l) = true -> dict_of l = l.
Proof. intros H. apply (dict_of_distinct_from l []). exact H. Qed.

Lemma wf_value_no_comma vs :
  forallb wf_value vs = true -> forallb (no_char ",") vs = true.
Proof.
  intros H. rewrite forallb_forall in *. intros v Hv.
  specialize (H v Hv). unfold wf_value in H.
  apply andb_prop in H as [_ H]. exact H.
Qed.

(** The rendered values of a feature hold no character that [p] refuses,
    when the values and the comma don't. *)
Lemma join_values p vs :
  p ","%char = true ->
  forallb (forallb_str p) vs = true ->
  forallb_str p (join "," (sorted vs)) = true.
Proof.
  intros Hp H. apply join_forall.
  - cbn [forallb_str]. rewrite Hp. reflexivity.
  - unfold sorted. rewrite sort_forallb. exact H.
Qed.

Lemma format_feat_forall p kv :
  p ","%char = true -> p "="%char = true ->
  forallb_str p (fst kv) = true ->
  forallb (forallb_str p) (snd kv) = true ->
  forallb_str p (format_feat kv) = true.
Proof.
  intros Hc He Hk Hv. unfold format_feat.
  rewrite !forallb_str_app, Hk, (join_values p _ Hc Hv).
  cbn [forallb_str]. rewrite He. reflexivity.
Qed.

Lemma forallb_impl {A : Type} (p q : A -> bool) l :
  (forall x, p x = true -> q x = true) ->
  forallb p l = true -> forallb q l = true.
Proof.
  intros Hpq H. rewrite forallb_forall in *. intros x Hx. apply Hpq, H, Hx.
Qed.

(** Reading one rendered feature gives the key and the sorted values. *)
Lemma read_format_feat kv :
  wf_feat kv = true ->
  read_feat (format_feat kv) = OK (fst kv, sorted (snd kv)).
Proof.
  destruct kv as [k vs]. unfold wf_feat, wf_key. cbn [fst snd]. intros H.
  apply andb_prop in H as [H Hvs]. apply andb_prop in H as [H Hd].
  apply andb_prop in H as [Hk Hne].
  apply andb_prop in Hk as [Hk _]. apply andb_prop in Hk as [_ Hk].
  unfold read_feat, format_feat. cbn [fst snd].
  change (k ++ "=" ++ join "," (sorted vs))%string
    with (k ++ String "=" (join "," (sorted vs)))%string.
  rewrite (split_app_sep "=" k _ Hk).
  assert (Hno : no_char "=" (join "," (sorted vs)) = true).
  { apply join_values; [reflexivity |].
    apply (forallb_impl wf_value); [| exact Hvs].
    intros v Hv. unfold wf_value in Hv.
    apply andb_prop in Hv as [Hv _]. apply andb_prop in Hv as [Hv _].
    apply andb_prop in Hv as [_ Hv]. exact Hv. }
  rewrite (split_no_sep "=" _ Hno).
  rewrite (split_join "," (sorted vs)).
  - rewrite (frozenset_distinct _ (sorted_distinct vs Hd)). reflexivity.
  - intros Hs. apply sort_nil in Hs. subst vs. discriminate Hne.
  - unfold sorted. rewrite sort_forallb. apply wf_value_no_comma, Hvs.
Qed.

Lemma read_format_feats_items items :
  forallb wf_feat items = true ->
  read_feats_items (map format_feat items)
  = OK (map (fun kv => (fst kv, sorted (snd kv))) items).
Proof.
  induction items as [|kv items IH]; [reflexivity |].
  cbn [forallb map read_feats_items]. intros H.
  apply andb_prop in H as [Hkv Hitems].
  rewrite (read_format_feat kv Hkv), (IH Hitems). reflexivity.
Qed.

Lemma format_feat_not_placeholder kv rest :
  String.eqb (format_feat kv ++ rest) "_" = false.
Proof.
  unfold format_feat. destruct kv as [k vs]. cbn [fst snd].
  destruct k as [|c [|c' k]]; cbn [append]; try reflexivity.
  - cbn [String.eqb]. destruct (Ascii.eqb c "_"); reflexivity.
  - cbn [String.eqb]. destruct (Ascii.eqb c "_"); reflexivity.
Qed.

Lemma wf_feat_no_bar kv :
  wf_feat kv = true -> no_char "|" (format_feat kv) = true.
Proof.
  unfold wf_feat, wf_key. intros H.
  apply andb_prop in H as [H Hvs]. apply andb_prop in H as [H _].
  apply andb_prop in H as [Hk _]. apply andb_prop in Hk as [_ Hk].
  apply format_feat_forall; try reflexivity; [exact Hk |].
  apply (forallb_impl wf_value); [| exact Hvs].
  intros v Hv. unfold wf_value in Hv.
  apply andb_prop in Hv as [Hv _]. apply andb_prop in Hv as [_ Hv]. exact Hv.
Qed.

Lemma wf_feat_clean kv :
  wf_feat kv = true -> clean (format_feat kv) = true.
Proof.
  unfold wf_feat, wf_key. intros H.
  apply andb_prop in H as [H Hvs]. apply andb_prop in H as [H _].
  apply andb_prop in H as [Hk _]. apply andb_prop in Hk as [Hk _].
  apply andb_prop in Hk as [Hk _].
  apply format_feat_forall; try reflexivity; [exact Hk |].
  apply (forallb_impl wf_value); [| exact Hvs].
  intros v Hv. unfold wf_value in Hv.
  apply andb_prop in Hv as [Hv _]. apply andb_prop in Hv as [Hv _].
  apply andb_prop in Hv as [Hv _]. exact Hv.
Qed.

Lemma join_cons_app sep x l :
  exists rest, join sep (x :: l) = (x ++ rest)%string.
Proof.
  destruct l as [|y l].
  - exists "". cbn [join]. rewrite append_nil_r. reflexivity.
  - exists (sep ++ join sep (y :: l))%string. reflexivity.
Qed.

(** Reading the rendered FEATS gives the dict in canonical order. *)
Lemma read_format_feats d :
  wf_feats d = true ->
  (if String.eqb (format_feats d) "_" then OK []
   else read_feats (format_feats d)) = OK (norm_feats d).
Proof.
  unfold wf_feats. intros H. apply andb_prop in H as [Hkeys Hall].
  destruct d as [|kv0 d0] eqn:Ed; [reflexivity |].
  assert (Hd : d <> []) by (rewrite Ed; discriminate).
  rewrite <- Ed in *. clear kv0 d0 Ed.
  unfold format_feats.
  assert (Hf : match d with [] => "_"
               | _ :: _ => join "|" (map format_feat (sorted_items d)) end
               = join "|" (map format_feat (sorted_items d))).
  { destruct d; [contradiction Hd; reflexivity | reflexivity]. }
  rewrite Hf. clear Hf.
  assert (Hall' : forallb wf_feat (sorted_items d) = true)
    by (unfold sorted_items; rewrite sort_forallb; exact Hall).
  destruct (sorted_items d) as [|kv items] eqn:Es.
  { apply sort_nil in Es. contradiction. }
  destruct (join_cons_app "|" (format_feat kv) (map format_feat items))
    as [rest Hrest].
  cbn [map]. rewrite Hrest, format_feat_not_placeholder, <- Hrest.
  unfold read_feats.
  change (format_feat kv :: map format_feat items)
    with (map format_feat (kv :: items)).
  rewrite (split_join "|").
  - rewrite (read_format_feats_items _ Hall'). cbn [bind].
    unfold norm_feats. rewrite Es.
    rewrite dict_of_distinct; [reflexivity |].
    rewrite map_map. cbn [fst]. rewrite <- Es.
    apply sorted_items_keys, Hkeys.
  - discriminate.
  - rewrite forallb_forall. intros x Hx.
    apply in_map_iff in Hx as (kv' & <- & Hin).
    apply wf_feat_no_bar. rewrite forallb_forall in Hall'. apply Hall', Hin.
Qed.

Lemma format_feats_column d :
  wf_feats d = true -> column (format_feats d) = true.
Proof.
  unfold wf_feats, column. intros H. apply andb_prop in H as [_ Hall].
  destruct d as [|kv0 d0] eqn:Ed; [reflexivity |].
  assert (Hd : d <> []) by (rewrite Ed; discriminate).
  rewrite <- Ed in *. clear kv0 d0 Ed.
  unfold format_feats.
  replace (match d with [] => "_"
           | _ :: _ => join "|" (map format_feat (sorted_items d)) end)
    with (join "|" (map format_feat (sorted_items d)))
    by (destruct d; [contradiction Hd; reflexivity | reflexivity]).
  assert (Hall' : forallb wf_feat (sorted_items d) = true)
    by (unfold sorted_items; rewrite sort_forallb; exact Hall).
  apply andb_true_intro. split.
  - destruct (sorted_items d) as [|kv items] eqn:Es.
    { apply sort_nil in Es. contradiction. }
    destruct (join_cons_app "|" (format_feat kv) (map format_feat items))
      as [rest Hrest].
    cbn [map]. rewrite Hrest. apply nonempty_app_l.
    unfold format_feat. destruct (fst kv); reflexivity.
  - apply join_forall; [reflexivity |].
    rewrite forallb_forall. intros x Hx.
    apply in_map_iff in Hx as (kv' & <- & Hin).
    apply wf_feat_clean. rewrite forallb_forall in Hall'. apply Hall', Hin.
Qed.

(** *** One word *)

Lemma str_id_column v : wf_id v = true -> column (str v) = true.
Proof.
  destruct v as [n|s]; cbn [wf_id str].
  - intros _. apply str_of_Z_column.
  - unfold span_id, column. intros H. apply andb_prop in H as [-> H].
    apply andb_prop in H as [_ H]. cbn [andb].
    apply (forallb_str_impl id_char); [| exact H].
    intros c Hc. destruct (id_char_facts c Hc) as (_ & Hcl & _). exact Hcl.
Qed.

Lemma str_id_first v : wf_id v = true -> first_ok (str v) = true.
Proof.
  destruct v as [n|s]; cbn [wf_id str].
  - intros Hn. apply Z.leb_le in Hn.
    destruct (str_of_Z_nonneg n Hn) as (Hne & Hall & _).
    destruct (str_of_Z n) as [|c r]; [discriminate |].
    cbn [forallb_str] in Hall. apply andb_prop in Hall as [Hc _].
    destruct (decimal_facts c Hc) as (Hs & _ & _ & _ & Hh & _).
    cbn [first_ok]. rewrite Hs, Hh. reflexivity.
  - unfold span_id. intros H. apply andb_prop in H as [Hne H].
    apply andb_prop in H as [_ H].
    destruct s as [|c r]; [discriminate |].
    cbn [forallb_str] in H. apply andb_prop in H as [Hc _].
    destruct (id_char_facts c Hc) as (Hs & _ & Hh).
    cbn [first_ok]. rewrite Hs, Hh. reflexivity.
Qed.

Lemma str_head_column v : wf_head v = true -> column (str v) = true.
Proof.
  destruct v as [n|s]; cbn [wf_head str].
  - intros _. apply str_of_Z_column.
  - intros H. apply String.eqb_eq in H. subst s. reflexivity.
Qed.

Lemma wf_word_columns ds w :
  wf_word ds w = true -> forallb column (columns w) = true.
Proof.
  unfold wf_word. intros H.
  repeat (apply andb_prop in H as [H ?]).
  cbn [columns forallb].
  rewrite (str_id_column _ H), (str_head_column (HEAD w)) by assumption.
  rewrite (format_feats_column (FEATS w)) by assumption.
  repeat match goal with
         | Hc : column _ = true |- _ => rewrite Hc; clear Hc
         end.
  reflexivity.
Qed.

Lemma format_word_columns w :
  format_word w = join (String tab "") (columns w).
Proof. reflexivity. Qed.

Lemma split_format_word ds w :
  wf_word ds w = true -> split tab (format_word w) = columns w.
Proof.
  intros H. rewrite format_word_columns. apply split_join; [discriminate |].
  apply (forallb_impl column); [| apply (wf_word_columns ds w H)].
  intros x Hx. unfold column in Hx. apply andb_prop in Hx as [_ Hx].
  apply clean_no_tab, Hx.
Qed.

Lemma str_of_Z_not_placeholder n : String.eqb (str_of_Z n) "_" = false.
Proof.
  destruct (Z.ltb_spec n 0) as [Hlt | Hge].
  - rewrite (str_of_Z_neg n Hlt). reflexivity.
  - destruct (str_of_Z_nonneg n Hge) as (Hne & Hall & _).
    destruct (str_of_Z n) as [|c r]; [discriminate |].
    cbn [forallb_str] in Hall. apply andb_prop in Hall as [Hc _].
    destruct (decimal_facts c Hc) as (_ & _ & _ & _ & _ & Hu).
    cbn [String.eqb]. rewrite Hu. reflexivity.
Qed.

Lemma read_id v :
  wf_id v = true ->
  (if isdigit (str v) then bind (int (str v)) (fun n => OK (PInt n))
   else bind (assert (forallb_str id_char (str v))) (fun _ => OK (PStr (str v))))
  = OK v.
Proof.
  destruct v as [n|s]; cbn [wf_id str].
  - intros Hn. apply Z.leb_le in Hn.
    destruct (str_of_Z_nonneg n Hn) as (Hne & Hall & _).
    unfold isdigit. rewrite Hne.
    rewrite (forallb_str_impl _ _ _ decimal_digit Hall).
    cbn [andb]. rewrite int_str. reflexivity.
  - unfold span_id. intros H. apply andb_prop in H as [_ H].
    apply andb_prop in H as [Hd Hc]. apply negb_true_iff in Hd.
    rewrite Hd, Hc. reflexivity.
Qed.

Lemma read_head v :
  wf_head v = true ->
  (if negb (String.eqb (str v) "_")
   then bind (int (str v)) (fun n => OK (PInt n))
   else OK (PStr (str v)))
  = OK v.
Proof.
  destruct v as [n|s]; cbn [wf_head str].
  - intros _. rewrite str_of_Z_not_placeholder, int_str. reflexivity.
  - intros H. rewrite H. reflexivity.
Qed.

(** Reading the columns of a well-formed word gives the word back, its
    FEATS in canonical order. *)
Lemma read_columns ds w :
  wf_word ds w = true -> _read_word ds (columns w) = OK (norm_word w).
Proof.
  intros Hw. pose proof (wf_word_columns ds w Hw) as Hcols.
  unfold _read_word.
  assert (Hne : forallb nonempty (columns w) = true).
  { apply (forallb_impl column); [| exact Hcols].
    intros x Hx. unfold column in Hx. apply andb_prop in Hx as [Hx _]. exact Hx. }
  rewrite Hne. cbn [columns length Nat.eqb andb assert bind].
  unfold wf_word in Hw. repeat (apply andb_prop in Hw as [Hw ?]).
  rewrite (read_id _ Hw). cbn [bind].
  match goal with H : upos_ok _ _ = true |- _ => unfold upos_ok in H; rewrite H end.
  cbn [assert bind].
  rewrite (read_format_feats (FEATS w)) by assumption. cbn [bind].
  rewrite (read_head (HEAD w)) by assumption. reflexivity.
Qed.

Lemma rstrip_join_last sep l x :
  x <> "" -> rstrip x = x ->
  join sep (l ++ [x]) <> ""
  /\ rstrip (join sep (l ++ [x])) = join sep (l ++ [x]).
Proof.
  intros Hx Hr. induction l as [|y l [IHn IHr]]; [split; assumption |].
  assert (Hj : join sep ((y :: l) ++ [x])
               = ((y ++ sep) ++ join sep (l ++ [x]))%string).
  { cbn [app]. destruct (l ++ [x]) eqn:E.
    - destruct l; discriminate.
    - rewrite append_assoc. reflexivity. }
  rewrite Hj. split.
  - destruct ((y ++ sep))%string; cbn [append]; [exact IHn | discriminate].
  - apply rstrip_app; assumption.
Qed.

Lemma strip_format_word ds w :
  wf_word ds w = true -> strip (format_word w) = format_word w.
Proof.
  intros Hw. unfold strip.
  assert (Hl : lstrip (format_word w) = format_word w).
  { assert (Hf : first_ok (str (ID w)) = true).
    { apply str_id_first. unfold wf_word in Hw.
      repeat (apply andb_prop in Hw as [Hw ?]). exact Hw. }
    unfold format_word. cbn [join].
    destruct (str (ID w)) as [|c r]; [discriminate |].
    cbn [first_ok] in Hf. apply andb_prop in Hf as [Hs _].
    apply negb_true_iff in Hs. cbn [append lstrip]. rewrite Hs. reflexivity. }
  rewrite Hl. rewrite format_word_columns.
  unfold wf_word in Hw. apply andb_prop in Hw as [Hw Hr].
  apply andb_prop in Hw as [_ Hm]. apply String.eqb_eq in Hr.
  unfold column in Hm. apply andb_prop in Hm as [Hm _].
  change (columns w)
    with ([str (ID w); FORM w; LEMMA w; UPOSTAG w; XPOSTAG w;
           format_feats (FEATS w); str (HEAD w); DEPREL w; DEPS w]
          ++ [MISC w]).
  apply rstrip_join_last; [| exact Hr].
  intros E. rewrite E in Hm. discriminate.
Qed.

Lemma format_word_first ds w :
  wf_word ds w = true -> first_ok (format_word w) = true.
Proof.
  intros Hw.
  assert (Hf : first_ok (str (ID w)) = true).
  { apply str_id_first. unfold wf_word in Hw.
    repeat (apply andb_prop in Hw as [Hw ?]). exact Hw. }
  unfold format_word. cbn [join].
  destruct (str (ID w)) as [|c r]; [discriminate | exact Hf].
Qed.

Lemma first_ok_line s :
  first_ok s = true -> startswith "#" s = false /\ nonempty s = true.
Proof.
  destruct s as [|c r]; [discriminate |].
  cbn [first_ok]. intros H. apply andb_prop in H as [_ H].
  apply negb_true_iff in H. split; [| reflexivity].
  unfold startswith. cbn [String.prefix].
  destruct (ascii_dec "#" c) as [<- | _]; [discriminate H | reflexivity].
Qed.

Lemma clean_one_line s : clean s = true -> one_line s = true.
Proof.
  apply forallb_str_impl. intros c. unfold clean_char.
  destruct (Ascii.eqb c tab); [discriminate | trivial].
Qed.

Lemma format_word_one_line ds w :
  wf_word ds w = true -> one_line (format_word w) = true.
Proof.
  intros Hw. rewrite format_word_columns. apply join_forall; [reflexivity |].
  apply (forallb_impl column); [| apply (wf_word_columns ds w Hw)].
  intros x Hx. unfold column in Hx. apply andb_prop in Hx as [_ Hx].
  apply clean_one_line, Hx.
Qed.

(** *** Canonical order is a fixed point of formatting *)

Lemma sorted_items_idem d : sorted_items (sorted_items d) = sorted_items d.
Proof. apply sort_idem. intros a b. apply String.leb_total. Qed.

Lemma sorted_items_norm d :
  sorted_items (norm_feats d) = norm_feats d.
Proof.
  unfold norm_feats. apply sort_fixed.
  pose proof (sort_sorted _ key_le_total d) as Hs.
  fold (sorted_items d) in Hs.
  induction Hs as [|kv l Hl IH Hhd]; [constructor |].
  cbn [map]. constructor; [exact IH |].
  destruct Hhd as [|kv' l Hk]; cbn [map]; constructor. exact Hk.
Qed.

Lemma format_feats_not_nil d :
  d <> [] -> format_feats d = join "|" (map format_feat (sorted_items d)).
Proof. destruct d; [intros H; contradiction H; reflexivity | reflexivity]. Qed.

Lemma format_feats_norm d : format_feats (norm_feats d) = format_feats d.
Proof.
  assert (Hd : d = [] \/ d <> []) by (destruct d; [left | right]; congruence).
  destruct Hd as [-> | Hd]; [reflexivity |].
  assert (Hn : norm_feats d <> []).
  { unfold norm_feats. intros E. apply map_eq_nil in E.
    apply sort_nil in E. contradiction. }
  rewrite (format_feats_not_nil _ Hn), (format_feats_not_nil _ Hd).
  rewrite sorted_items_norm.
  unfold norm_feats. rewrite map_map. f_equal.
  apply map_ext. intros kv. unfold format_feat. cbn [fst snd].
  rewrite sorted_idem. reflexivity.
Qed.

Lemma format_word_norm w : format_word (norm_word w) = format_word w.
Proof.
  unfold format_word, norm_word. cbn [ID FORM LEMMA UPOSTAG XPOSTAG FEATS
    HEAD DEPREL DEPS MISC]. rewrite format_feats_norm. reflexivity.
Qed.

(** *** The text of a file *)

Lemma terminated_app a b :
  terminated (a ++ b) = (terminated a ++ terminated b)%string.
Proof.
  induction a as [|l a IH]; [reflexivity |].
  cbn [app terminated]. rewrite IH, append_assoc. reflexivity.
Qed.

Lemma format_sentence_terminated s :
  format_sentence s = terminated (map format_word s ++ [""]).
Proof.
  unfold format_sentence.
  induction (map format_word s) as [|l ls IH]; [reflexivity |].
  cbn [app terminated]. rewrite <- IH.
  destruct ls; reflexivity.
Qed.

Lemma is_word_map s : forallb is_word (map IWord s) = true.
Proof. induction s; [reflexivity | assumption]. Qed.

Lemma words_of_map s : words_of (map IWord s) = s.
Proof.
  induction s as [|w s IH]; [reflexivity |].
  cbn [map]. unfold words_of in *. cbn [flat_map app]. rewrite IH. reflexivity.
Qed.

Lemma write_loop_words S :
  write_loop (map (map IWord) S) = OK (terminated (written_lines S)).
Proof.
  induction S as [|s S IH]; [reflexivity |].
  cbn [map write_loop].
  rewrite is_word_map, IH, words_of_map. cbn [assert bind].
  unfold written_lines. cbn [flat_map].
  rewrite terminated_app, format_sentence_terminated. reflexivity.
Qed.

Lemma universal_newlines_id t : no_char cr t = true -> universal_newlines t = t.
Proof.
  unfold no_char. induction t as [|c t IH]; [reflexivity |].
  cbn [forallb_str universal_newlines]. intros H. apply andb_prop in H as [Hc Ht].
  apply negb_true_iff in Hc. rewrite Hc, (IH Ht). reflexivity.
Qed.

Lemma one_line_no_char s :
  one_line s = true -> no_char newline s = true /\ no_char cr s = true.
Proof.
  intros H. split; revert H; apply forallb_str_impl; intros c;
    destruct (Ascii.eqb c newline), (Ascii.eqb c cr); trivial.
Qed.

Lemma terminated_no_cr ls :
  forallb one_line ls = true -> no_char cr (terminated ls) = true.
Proof.
  induction ls as [|l ls IH]; [reflexivity |].
  cbn [forallb terminated]. intros H. apply andb_prop in H as [Hl Hls].
  pose proof (proj2 (one_line_no_char l Hl)) as Hcr. specialize (IH Hls).
  unfold no_char in *. rewrite forallb_str_app. cbn [forallb_str].
  rewrite Hcr, IH. reflexivity.
Qed.

Lemma split_terminated ls :
  forallb one_line ls = true -> split newline (terminated ls) = ls ++ [""].
Proof.
  induction ls as [|l ls IH]; [reflexivity |].
  cbn [forallb terminated]. intros H. apply andb_prop in H as [Hl Hls].
  rewrite (split_app_sep newline l _ (proj1 (one_line_no_char l Hl))).
  rewrite (IH Hls). reflexivity.
Qed.

(** The lines of a text made of terminated lines. *)
Lemma file_lines_terminated ls :
  forallb one_line ls = true -> file_lines (terminated ls) = ls.
Proof.
  intros H. unfold file_lines.
  rewrite (universal_newlines_id _ (terminated_no_cr ls H)).
  rewrite (split_terminated ls H), last_last, removelast_last. reflexivity.
Qed.

Lemma written_lines_one_line ds S :
  wf_sentences ds S = true -> forallb one_line (written_lines S) = true.
Proof.
  unfold wf_sentences, written_lines. induction S as [|s S IH]; [reflexivity |].
  cbn [forallb flat_map]. intros H. apply andb_prop in H as [Hs HS].
  rewrite !forallb_app, (IH HS). cbn [forallb one_line forallb_str].
  rewrite !andb_true_r. rewrite forallb_forall in *. intros x Hx.
  apply in_map_iff in Hx as (w & <- & Hw).
  apply (format_word_one_line ds), Hs, Hw.
Qed.

(** *** Reading what was written *)

Lemma read_format_line ds inc st w :
  wf_word ds w = true ->
  inc || is_int (ID w) = true ->
  read_line ds inc st (strip (format_word w))
  = OK (mkReader (sent st ++ [norm_word w]) (doc_id st) (sent_id st)
          (sentence_counter st), None).
Proof.
  intros Hw Hinc. rewrite (strip_format_word ds w Hw). unfold read_line.
  destruct (first_ok_line _ (format_word_first ds w Hw)) as [-> ->].
  rewrite (split_format_word ds w Hw), (read_columns ds w Hw).
  cbn [bind norm_word ID]. rewrite Hinc. reflexivity.
Qed.

Lemma read_words ds inc ws :
  forallb (wf_word ds) ws = true ->
  forallb (fun w => inc || is_int (ID w)) ws = true ->
  forall st n rest,
    read_loop ds inc st n (map format_word ws ++ rest)
    = read_loop ds inc
        (mkReader (sent st ++ map norm_word ws) (doc_id st) (sent_id st)
           (sentence_counter st))
        (n + length ws) rest.
Proof.
  induction ws as [|w ws IH]; intros Hwf Hinc st n rest.
  - cbn [map app length]. rewrite app_nil_r, Nat.add_0_r.
    destruct st; reflexivity.
  - cbn [forallb] in Hwf, Hinc.
    apply andb_prop in Hwf as [Hw Hws]. apply andb_prop in Hinc as [Hi His].
    cbn [map app read_loop length].
    rewrite (read_format_line ds inc st w Hw Hi).
    rewrite (IH Hws His). cbn [sent doc_id sent_id sentence_counter].
    rewrite <- app_assoc, Nat.add_succ_r. cbn [app Nat.add].
    destruct (read_loop ds inc _ (S (n + length ws)) rest). reflexivity.
Qed.

Lemma read_blank_unnamed ds inc st :
  unnamed st ->
  exists st',
    read_line ds inc st (strip "") = OK (st', Some ("0_0", sent st))
    /\ unnamed st' /\ sent st' = [].
Proof.
  intros Hst. change (strip "") with "". unfold read_line.
  change (startswith "#" "") with false. cbn [nonempty].
  destruct Hst as [[Hd | Hd] [[Hs Hn] | Hs]]; rewrite Hd, Hs;
    try rewrite Hn; eexists; (split; [reflexivity |]);
    (split; [split; [right | right] |]; reflexivity).
Qed.

Lemma read_written_lines ds inc S :
  wf_sentences ds S = true ->
  forallb (forallb (fun w => inc || is_int (ID w))) S = true ->
  forall st n,
    unnamed st -> sent st = [] ->
    read_loop ds inc st n (written_lines S) = (read_back S, None).
Proof.
  unfold wf_sentences, written_lines, read_back.
  induction S as [|s S IH]; intros Hwf Hinc st n Hst Hsent; [reflexivity |].
  cbn [forallb] in Hwf, Hinc.
  apply andb_prop in Hwf as [Hs HS]. apply andb_prop in Hinc as [Hi HI].
  cbn [flat_map map]. rewrite <- app_assoc.
  rewrite (read_words ds inc s Hs Hi). cbn [app read_loop].
  set (st1 := mkReader _ _ _ _).
  assert (Hst1 : unnamed st1) by exact Hst.
  destruct (read_blank_unnamed ds inc st1 Hst1) as (st' & Hr & Hst' & Hsent').
  rewrite Hr, (IH HS HI st' _ Hst' Hsent').
  unfold st1. cbn [sent]. rewrite Hsent. reflexivity.
Qed.

(** The text that [write_sentences] writes. *)
Lemma write_sentences_text ds S :
  write_sentences ds true (map (map IWord) S)
  = OK (terminated (written_lines S)).
Proof. unfold write_sentences. rewrite write_loop_words. reflexivity. Qed.

(** What is written for well-formed sentences is read back as the same
    sentences, FEATS in canonical order. *)
Lemma read_written ds inc S :
  wf_sentences ds S = true ->
  forallb (forallb (fun w => inc || is_int (ID w))) S = true ->
  gen_sentences ds (text_file (terminated (written_lines S))) inc
  = (read_back S, None).
Proof.
  intros Hwf Hinc. unfold gen_sentences, text_file.
  rewrite (file_lines_terminated _ (written_lines_one_line ds S Hwf)).
  rewrite (read_written_lines ds inc S Hwf Hinc initial_reader 0);
    [reflexivity | | reflexivity].
  split; [left; reflexivity | left; split; reflexivity].
Qed.



End RoundTrip.

(* ===================================================================== *)
(** ** Reading, then writing *)
(* ===================================================================== *)

Module Idempotence.
Import Py Conllu Spec PyFacts RoundTrip.
Local Open Scope string_scope.
Local Open Scope list_scope.

(** *** What the line parser returns is well formed *)

Lemma Z_of_digit_nonneg c : isdecimal_char c = true -> (0 <= Z_of_digit c)%Z.
Proof.
  unfold isdecimal_char, Z_of_digit. intros H.
  apply andb_prop in H as [H _]. apply N.leb_le in H. lia.
Qed.

Lemma digits_value_nonneg s :
  forallb_str isdecimal_char s = true ->
  forall acc, (0 <= acc)%Z -> (0 <= digits_value acc s)%Z.
Proof.
  induction s as [|c s IH]; intros H acc Hacc; [exact Hacc |].
  cbn [forallb_str] in H. apply andb_prop in H as [Hc Hs].
  cbn [digits_value]. apply (IH Hs).
  pose proof (Z_of_digit_nonneg c Hc). lia.
Qed.

Lemma int_isdigit_nonneg s n :
  isdigit s = true -> int s = OK n -> (0 <= n)%Z.
Proof.
  intros Hd Hi. pose proof (int_isdigit s Hd) as He.
  rewrite Hi in He. cbn [is_error] in He.
  symmetry in He. apply negb_false_iff in He.
  unfold isdigit in Hd. apply andb_prop in Hd as [Hne _].
  unfold int in Hi.
  rewrite (int_strip_decimal s He), (int_decimal s Hne He) in Hi.
  injection Hi as <-. apply (digits_value_nonneg s He). lia.
Qed.

Lemma clean_of s : no_char tab s = true -> one_line s = true -> clean s = true.
Proof.
  unfold no_char, one_line, clean.
  induction s as [|c s IH]; [reflexivity |].
  cbn [forallb_str]. intros H1 H2.
  apply andb_prop in H1 as [Ht H1]. apply andb_prop in H2 as [Hn H2].
  rewrite (IH H1 H2). unfold clean_char.
  apply negb_true_iff in Ht. rewrite Ht. cbn [orb]. rewrite Hn. reflexivity.
Qed.

Lemma forallb_In {A : Type} (p : A -> bool) l x :
  forallb p l = true -> In x l -> p x = true.
Proof. intros H. rewrite forallb_forall in H. apply H. Qed.

Lemma frozenset_not_nil l : l <> [] -> frozenset l <> [].
Proof.
  destruct l as [|x l]; [intros H; contradiction H; reflexivity |].
  intros _ E. assert (Hin : In x (frozenset (x :: l)))
    by (apply nodup_In; left; reflexivity).
  rewrite E in Hin. contradiction Hin.
Qed.

Lemma read_feat_wf x kv :
  clean x = true -> no_char "|" x = true ->
  read_feat x = OK kv -> wf_feat kv = true.
Proof.
  intros Hc Hb. unfold read_feat.
  pose proof (split_pieces_no_sep "=" x) as He.
  pose proof (split_pieces_forall _ "=" x Hc) as Hcs.
  pose proof (split_pieces_forall _ "=" x Hb) as Hbs.
  destruct (split "=" x) as [|k [|v [|? ?]]]; try discriminate.
  intros [= <-]. cbn [forallb] in He, Hcs, Hbs.
  apply andb_prop in He as [Hek He]. apply andb_prop in He as [Hev _].
  apply andb_prop in Hcs as [Hck Hcs]. apply andb_prop in Hcs as [Hcv _].
  apply andb_prop in Hbs as [Hbk Hbs]. apply andb_prop in Hbs as [Hbv _].
  unfold wf_feat, wf_key. cbn [fst snd].
  fold (clean k) in Hck. fold (no_char "|" k) in Hbk.
  rewrite Hck, Hek, Hbk. cbn [andb].
  pose proof (frozenset_not_nil (split "," v) (split_not_nil "," v)) as Hne.
  destruct (frozenset (split "," v)) as [|v0 vs0] eqn:E;
    [contradiction Hne; reflexivity |].
  rewrite <- E. cbn [andb].
  assert (Hd : distinct (frozenset (split "," v)) = true)
    by (apply distinct_NoDup, NoDup_nodup).
  rewrite Hd. cbn [andb].
  rewrite forallb_forall. intros e He'. apply nodup_In in He'.
  unfold wf_value, clean, no_char in *.
  rewrite (forallb_In _ _ e (split_pieces_forall _ "," v Hcv) He').
  rewrite (forallb_In _ _ e (split_pieces_forall _ "," v Hev) He').
  rewrite (forallb_In _ _ e (split_pieces_forall _ "," v Hbv) He').
  pose proof (forallb_In _ _ e (split_pieces_no_sep "," v) He') as Hcomma.
  unfold no_char in Hcomma. rewrite Hcomma.
  reflexivity.
Qed.

Lemma read_feats_items_wf items kvs :
  forallb clean items = true -> forallb (no_char "|") items = true ->
  read_feats_items items = OK kvs -> forallb wf_feat kvs = true.
Proof.
  revert kvs. induction items as [|x items IH]; intros kvs Hc Hb.
  - intros [= <-]. reflexivity.
  - cbn [forallb] in Hc, Hb.
    apply andb_prop in Hc as [Hcx Hc]. apply andb_prop in Hb as [Hbx Hb].
    cbn [read_feats_items]. intros H.
    apply bind_OK in H as (kv & Hkv & H).
    apply bind_OK in H as (kvs' & Hkvs & H). injection H as <-.
    cbn [forallb]. rewrite (read_feat_wf x kv Hcx Hbx Hkv), (IH kvs' Hc Hb Hkvs).
    reflexivity.
Qed.

Lemma distinct_snoc l k :
  distinct l = true -> existsb (String.eqb k) l = false ->
  distinct (l ++ [k]) = true.
Proof.
  intros Hl Hk. apply distinct_NoDup.
  apply (Permutation_NoDup (Permutation_cons_append l k)).
  constructor; [| apply distinct_NoDup, Hl].
  intros Hin. apply Bool.not_true_iff_false in Hk. apply Hk.
  apply existsb_exists. exists k. split; [exact Hin | apply String.eqb_refl].
Qed.

Lemma dict_of_wf_from (kvs : list (string * list string)) :
  forall acc,
    wf_feats acc = true -> forallb wf_feat kvs = true ->
    wf_feats (fold_left (fun d kv => dict_set (fst kv) (snd kv) d) kvs acc) = true.
Proof.
  induction kvs as [|[k v] kvs IH]; intros acc Hacc Hkvs; [exact Hacc |].
  cbn [forallb] in Hkvs. apply andb_prop in Hkvs as [Hkv Hkvs].
  cbn [fold_left fst snd]. apply IH; [| exact Hkvs].
  unfold wf_feats in *. apply andb_prop in Hacc as [Hd Hall].
  apply andb_true_intro. split.
  - rewrite dict_set_keys.
    destruct (existsb (String.eqb k) (map fst acc)) eqn:Hk; [exact Hd |].
    apply distinct_snoc; assumption.
  - rewrite forallb_forall. intros [k' v'] Hin.
    apply dict_set_In in Hin as [Hin | [-> ->]];
      [apply (forallb_In _ _ _ Hall Hin) | exact Hkv].
Qed.

Lemma read_feats_wf s d :
  clean s = true -> read_feats s = OK d -> wf_feats d = true.
Proof.
  intros Hc. unfold read_feats. intros H.
  apply bind_OK in H as (kvs & Hkvs & H). injection H as <-.
  apply dict_of_wf_from; [reflexivity |].
  apply (read_feats_items_wf (split "|" s)); [| | exact Hkvs].
  - apply split_pieces_forall, Hc.
  - apply split_pieces_no_sep.
Qed.

Lemma assert_OK b u : assert b = OK u -> b = true.
Proof. destruct b; [reflexivity | discriminate]. Qed.

(** The word parsed from clean columns, the last of which does not end
    in white space, is well formed. *)
Lemma read_word_wf ds fields w :
  forallb clean fields = true ->
  rstrip (last fields "") = last fields "" ->
  _read_word ds fields = OK w ->
  wf_word ds w = true.
Proof.
  intros Hc Hr. unfold _read_word. intros H.
  apply bind_OK in H as ([] & Ha & H). apply assert_OK in Ha.
  apply andb_prop in Ha as [_ Hne].
  destruct fields as [|f0 [|f1 [|f2 [|f3 [|f4 [|f5 [|f6 [|f7 [|f8 [|f9 [|? ?]]]]]]]]]]];
    try discriminate H.
  apply bind_OK in H as (id & Hid & H).
  apply bind_OK in H as ([] & Hu & H). apply assert_OK in Hu.
  apply bind_OK in H as (fs & Hfs & H).
  apply bind_OK in H as (head & Hhead & H).
  injection H as <-.
  cbn [forallb] in Hc, Hne. cbn [last] in Hr.
  repeat match goal with
         | Hx : _ && _ = true |- _ => apply andb_prop in Hx as [? Hx]
         end.
  unfold wf_word, column.
  cbn [ID FORM LEMMA UPOSTAG XPOSTAG FEATS HEAD DEPREL DEPS MISC].
  assert (Hwid : wf_id id = true).
  { destruct (isdigit f0) eqn:Hd.
    - apply bind_OK in Hid as (n & Hn & [= <-]). cbn [wf_id].
      apply Z.leb_le. apply (int_isdigit_nonneg f0 n Hd Hn).
    - apply bind_OK in Hid as ([] & Has & [= <-]). apply assert_OK in Has.
      cbn [wf_id]. unfold span_id. rewrite Hd, Has.
      match goal with Hx : nonempty f0 = true |- _ => rewrite Hx end.
      reflexivity. }
  assert (Hwfs : wf_feats fs = true).
  { destruct (String.eqb f5 "_").
    - injection Hfs as <-. reflexivity.
    - apply (read_feats_wf f5); assumption. }
  assert (Hwh : wf_head head = true).
  { destruct (String.eqb f6 "_") eqn:E; cbn [negb] in Hhead.
    - injection Hhead as <-. exact E.
    - apply bind_OK in Hhead as (n & _ & [= <-]). reflexivity. }
  rewrite Hwid, Hwfs, Hwh. fold (upos_ok ds f3) in Hu. rewrite Hu, Hr.
  rewrite String.eqb_refl.
  repeat match goal with
         | Hx : nonempty _ = true |- _ => rewrite Hx; clear Hx
         | Hx : clean _ = true |- _ => rewrite Hx; clear Hx
         end.
  reflexivity.
Qed.

Lemma join_last sep l x :
  exists pre, join sep (l ++ [x]) = (pre ++ x)%string.
Proof.
  induction l as [|y l [pre IH]]; [exists ""; reflexivity |].
  exists (y ++ sep ++ pre)%string. cbn [app].
  destruct (l ++ [x]) eqn:E; [destruct l; discriminate |].
  change (join sep (y :: s :: l0)) with (y ++ sep ++ join sep (s :: l0))%string.
  rewrite IH, !append_assoc. reflexivity.
Qed.

Lemma rstrip_last_piece c line :
  rstrip line = line ->
  rstrip (last (split c line) "") = last (split c line) "".
Proof.
  intros Hr. pose proof (join_split c line) as Hj.
  pose proof (split_not_nil c line) as Hn.
  rewrite (app_removelast_last "" Hn) in Hj.
  destruct (join_last (String c "") (removelast (split c line))
              (last (split c line) "")) as [pre Hpre].
  rewrite Hpre in Hj.
  destruct (last (split c line) "") as [|a r] eqn:E; [reflexivity |].
  apply (rstrip_app_inv pre); [discriminate |].
  rewrite Hj. exact Hr.
Qed.

(** The word parsed from a stripped line without line ends. *)
Lemma read_line_wf ds raw w :
  one_line raw = true ->
  _read_word ds (split tab (strip raw)) = OK w ->
  wf_word ds w = true.
Proof.
  intros H1. apply read_word_wf.
  - pose proof (split_pieces_no_sep tab (strip raw)) as Ht.
    pose proof (split_pieces_forall _ tab (strip raw) (strip_forall _ raw H1)) as Ho.
    rewrite forallb_forall in *. intros x Hx.
    apply clean_of; [apply Ht, Hx | apply Ho, Hx].
  - apply rstrip_last_piece, rstrip_strip.
Qed.

(** *** What the reader yields is well formed *)

Lemma universal_newlines_no_cr t : no_char cr (universal_newlines t) = true.
Proof.
  unfold no_char. induction t as [|c t IH]; [reflexivity |].
  cbn [universal_newlines]. destruct (Ascii.eqb c cr) eqn:Hc.
  - destruct t as [|d t']; [reflexivity |].
    destruct (Ascii.eqb d newline); [exact IH |].
    cbn [forallb_str]. rewrite IH. reflexivity.
  - cbn [forallb_str]. rewrite Hc, IH. reflexivity.
Qed.

Lemma one_line_of s :
  no_char newline s = true -> no_char cr s = true -> one_line s = true.
Proof.
  unfold no_char, one_line. induction s as [|c s IH]; [reflexivity |].
  cbn [forallb_str]. intros H1 H2.
  apply andb_prop in H1 as [Hn H1]. apply andb_prop in H2 as [Hc H2].
  rewrite (IH H1 H2). apply negb_true_iff in Hn, Hc. rewrite Hn, Hc.
  reflexivity.
Qed.

Lemma forallb_removelast {A : Type} (p : A -> bool) l :
  forallb p l = true -> forallb p (removelast l) = true.
Proof.
  induction l as [|x l IH]; [reflexivity |].
  cbn [forallb]. intros H. apply andb_prop in H as [Hx Hl].
  destruct l as [|y l]; [reflexivity |].
  change (removelast (x :: y :: l)) with (x :: removelast (y :: l)).
  cbn [forallb]. rewrite Hx, (IH Hl). reflexivity.
Qed.

Lemma file_lines_one_line text : forallb one_line (file_lines text) = true.
Proof.
  unfold file_lines.
  set (pieces := split newline (universal_newlines text)).
  assert (H : forallb one_line pieces = true).
  { pose proof (split_pieces_no_sep newline (universal_newlines text)) as Hn.
    pose proof (split_pieces_forall _ newline _ (universal_newlines_no_cr text))
      as Hc.
    fold pieces in Hn, Hc. rewrite forallb_forall in *. intros x Hx.
    apply one_line_of; [apply Hn, Hx | apply Hc, Hx]. }
  destruct (last pieces ""); [apply forallb_removelast, H | exact H].
Qed.

Lemma kept_app ds inc a b :
  kept ds inc (a ++ b) = kept ds inc a && kept ds inc b.
Proof. apply forallb_app. Qed.

Lemma read_line_kept ds inc st raw st' y :
  one_line raw = true ->
  kept ds inc (sent st) = true ->
  read_line ds inc st (strip raw) = OK (st', y) ->
  kept ds inc (sent st') = true
  /\ (forall s, y = Some s -> kept ds inc (snd s) = true).
Proof.
  intros H1 Hk. unfold read_line.
  destruct (startswith "#" (strip raw)).
  - destruct (contains (doc_id_prefix ds) (strip raw)).
    + intros H. apply bind_OK in H as (v & _ & [= <- <-]).
      split; [exact Hk | discriminate].
    + destruct (contains (sent_id_prefix ds) (strip raw)).
      * intros H. apply bind_OK in H as (v & _ & [= <- <-]).
        split; [exact Hk | discriminate].
      * intros [= <- <-]. split; [exact Hk | discriminate].
  - destruct (nonempty (strip raw)).
    + intros H. apply bind_OK in H as (word & Hw & H).
      pose proof (read_line_wf ds raw word H1 Hw) as Hwf.
      destruct (inc || is_int (ID word)) eqn:Hi; injection H as <- <-;
        (split; [| discriminate]); [| exact Hk].
      cbn [sent]. rewrite kept_app, Hk. cbn [kept forallb].
      rewrite Hwf, Hi. reflexivity.
    + intros [= <- <-]. split; [reflexivity |].
      intros s [= <-]. exact Hk.
Qed.

Lemma read_loop_kept ds inc lines :
  forallb one_line lines = true ->
  forall st n,
    kept ds inc (sent st) = true ->
    forallb (fun y => kept ds inc (snd y)) (fst (read_loop ds inc st n lines))
    = true.
Proof.
  induction lines as [|raw lines IH]; intros Hl st n Hk; [reflexivity |].
  cbn [forallb] in Hl. apply andb_prop in Hl as [Hraw Hl].
  cbn [read_loop].
  destruct (read_line ds inc st (strip raw)) as [[st' y]|e] eqn:Hr;
    [| reflexivity].
  destruct (read_line_kept _ _ _ _ _ _ Hraw Hk Hr) as [Hk' Hy].
  specialize (IH Hl st' (S n) Hk').
  destruct (read_loop ds inc st' (S n) lines) as [ys r]. cbn [fst] in *.
  destruct y as [s|]; [| exact IH].
  cbn [forallb]. rewrite (Hy s eq_refl), IH. reflexivity.
Qed.

Lemma gen_sentences_kept ds text inc :
  forallb (fun y => kept ds inc (snd y))
    (fst (gen_sentences ds (text_file text) inc)) = true.
Proof.
  unfold gen_sentences, text_file.
  pose proof (read_loop_kept ds inc (file_lines text)
                (file_lines_one_line text) initial_reader 0 eq_refl) as H.
  destruct (read_loop ds inc initial_reader 0 (file_lines text)) as [ys r].
  exact H.
Qed.

Lemma kept_sentences ds inc (ys : list (string * list Word)) :
  forallb (fun y => kept ds inc (snd y)) ys = true ->
  wf_sentences ds (map snd ys) = true
  /\ forallb (forallb (fun w => inc || is_int (ID w))) (map snd ys) = true.
Proof.
  unfold wf_sentences, kept. induction ys as [|y ys IH]; [split; reflexivity |].
  cbn [forallb map]. intros H. apply andb_prop in H as [Hy Hys].
  destruct (IH Hys) as [-> ->]. rewrite !andb_true_r.
  split; rewrite forallb_forall in *; intros w Hw;
    specialize (Hy w Hw); apply andb_prop in Hy as [Ha Hb]; assumption.
Qed.

Lemma written_lines_norm S :
  written_lines (map (map norm_word) S) = written_lines S.
Proof.
  unfold written_lines. induction S as [|s S IH]; [reflexivity |].
  cbn [map flat_map]. rewrite IH. f_equal. f_equal.
  rewrite map_map. apply map_ext. intros w. apply format_word_norm.
Qed.

Lemma read_back_words S :
  map (fun y : string * list Word => map IWord (snd y)) (read_back S)
  = map (map IWord) (map (map norm_word) S).
Proof. unfold read_back. rewrite !map_map. reflexivity. Qed.

(** C8. Whatever conformant file is read, writing the sentences read,
    reading what was written and writing again gives the text of the
    first writing, byte for byte. *)
Theorem format_idempotent ds text inc ys :
  gen_sentences ds (text_file text) inc = (ys, None) ->
  exists text1 ys1,
    write_sentences ds true (map (fun y => map IWord (snd y)) ys) = OK text1
    /\ gen_sentences ds (text_file text1) inc = (ys1, None)
    /\ write_sentences ds true (map (fun y => map IWord (snd y)) ys1)
       = OK text1.
Proof.
  intros H. pose proof (gen_sentences_kept ds text inc) as Hk.
  rewrite H in Hk. cbn [fst] in Hk.
  destruct (kept_sentences ds inc ys Hk) as [Hwf Hint].
  exists (terminated (written_lines (map snd ys))), (read_back (map snd ys)).
  rewrite <- (map_map snd (map IWord) ys).
  split; [apply write_sentences_text |].
  split; [apply read_written; assumption |].
  rewrite read_back_words, write_sentences_text, written_lines_norm.
  reflexivity.
Qed.

Lemma format_idempotent_witness :
  let ys := fst (gen_sentences example_ds (text_file two_sentences) false) in
  gen_sentences example_ds (text_file two_sentences) false = (ys, None)
  /\ exists text1 ys1,
      write_sentences example_ds true (map (fun y => map IWord (snd y)) ys)
      = OK text1
      /\ gen_sentences example_ds (text_file text1) false = (ys1, None)
      /\ write_sentences example_ds true
           (map (fun y => map IWord (snd y)) ys1)
         = OK text1.
Proof.
  intros ys.
  assert (H : gen_sentences example_ds (text_file two_sentences) false = (ys, None))
    by (vm_compute; reflexivity).
  split; [exact H |].
  exact (format_idempotent example_ds two_sentences false ys H).
Defined.

End Idempotence.

(* ===================================================================== *)
(** ** Further properties of the line parser *)
(* ===================================================================== *)

Module ParserProps.
Import Py Conllu Spec Props PyFacts.
Local Open Scope string_scope.
Local Open Scope list_scope.

Lemma int_isdigit_value s n :
  isdigit s = true -> int s = OK n ->
  integer_id s = true /\ n = digits_value 0 s.
Proof.
  intros Hd Hi. pose proof (int_isdigit s Hd) as He.
  rewrite Hi in He. cbn [is_error] in He.
  symmetry in He. apply negb_false_iff in He.
  unfold isdigit in Hd. apply andb_prop in Hd as [Hne _].
  unfold integer_id. rewrite Hne, He. split; [reflexivity |].
  unfold int in Hi.
  rewrite (int_strip_decimal s He), (int_decimal s Hne He) in Hi.
  injection Hi as <-. reflexivity.
Qed.

(** X1. When the parser accepts a line, the line has ten non-empty
    fields; FORM, LEMMA, UPOSTAG, XPOSTAG, DEPREL, DEPS and MISC are the
    fields 1, 2, 3, 4, 7, 8 and 9 as they stand, the tag being in the tag
    set or "_"; ID is the number that field 0 writes in decimal digits, or
    field 0 itself when it is an id made of digits, "-" and "."; HEAD is
    the integer that field 6 writes, or "_". *)
Theorem parsed_columns ds line w :
  _read_word ds line = OK w ->
  ten_fields line = true
  /\ [FORM w; LEMMA w; UPOSTAG w; XPOSTAG w; DEPREL w; DEPS w; MISC w]
     = [field 1 line; field 2 line; field 3 line; field 4 line;
        field 7 line; field 8 line; field 9 line]
  /\ upos_ok ds (UPOSTAG w) = true
  /\ match ID w with
     | PInt n => integer_id (field 0 line) = true
                 /\ n = digits_value 0 (field 0 line)
     | PStr s => s = field 0 line /\ span_id s = true
     end
  /\ match HEAD w with
     | PInt n => int (field 6 line) = OK n
     | PStr s => s = "_" /\ field 6 line = "_"
     end.
Proof.
  unfold _read_word. intros H.
  apply bind_OK in H as ([] & Ha & H).
  assert (Hten : ten_fields line = true)
    by (unfold ten_fields; destruct (_ && _); [reflexivity | discriminate Ha]).
  split; [exact Hten |].
  destruct line as [|f0 [|f1 [|f2 [|f3 [|f4 [|f5 [|f6 [|f7 [|f8 [|f9 [|? ?]]]]]]]]]]];
    try discriminate H.
  apply bind_OK in H as (id & Hid & H).
  apply bind_OK in H as ([] & Hu & H).
  apply bind_OK in H as (fs & Hfs & H).
  apply bind_OK in H as (head & Hhead & H).
  injection H as <-. unfold field.
  cbn [nth ID FORM LEMMA UPOSTAG XPOSTAG FEATS HEAD DEPREL DEPS MISC].
  split; [reflexivity |]. split.
  { unfold upos_ok. destruct (_ || _); [reflexivity | discriminate Hu]. }
  split.
  - destruct (isdigit f0) eqn:Hd.
    + apply bind_OK in Hid as (n & Hn & [= <-]).
      apply (int_isdigit_value f0 n Hd Hn).
    + apply bind_OK in Hid as ([] & Has & [= <-]).
      unfold span_id. rewrite Hd.
      destruct (forallb_str id_char f0); [split; reflexivity | discriminate Has].
  - destruct (String.eqb_spec f6 "_") as [-> | Hne]; cbn [negb] in Hhead.
    + injection Hhead as <-. split; reflexivity.
    + apply bind_OK in Hhead as (n & Hn & [= <-]). exact Hn.
Qed.

Lemma parsed_columns_witness :
  let line := ["7"; "dog"; "dog"; "NOUN"; "_"; "_"; "0"; "root"; "_"; "_"] in
  _read_word example_ds line
  = OK (mkWord (PInt 7) "dog" "dog" "NOUN" "_" [] (PInt 0) "root" "_" "_")
  /\ ten_fields line = true.
Proof.
  intros line.
  assert (H : _read_word example_ds line
              = OK (mkWord (PInt 7) "dog" "dog" "NOUN" "_" [] (PInt 0)
                      "root" "_" "_")) by (vm_compute; reflexivity).
  split; [exact H |].
  exact (proj1 (parsed_columns example_ds line _ H)).
Defined.

(** *** FEATS *)

Lemma dict_of_keys_from {V : Type} (kvs : list (string * V)) :
  forall acc,
    distinct (map fst acc) = true ->
    distinct
      (map fst (fold_left (fun d kv => dict_set (fst kv) (snd kv) d) kvs acc))
    = true.
Proof.
  induction kvs as [|[k v] kvs IH]; intros acc Hacc; [exact Hacc |].
  cbn [fold_left fst snd]. apply IH. rewrite dict_set_keys.
  destruct (existsb (String.eqb k) (map fst acc)) eqn:Hk; [exact Hacc |].
  apply Idempotence.distinct_snoc; assumption.
Qed.

Lemma dict_of_forall_from {V : Type} (p : string * V -> bool)
    (kvs : list (string * V)) :
  forall acc,
    forallb p acc = true -> forallb p kvs = true ->
    forallb p (fold_left (fun d kv => dict_set (fst kv) (snd kv) d) kvs acc)
    = true.
Proof.
  induction kvs as [|[k v] kvs IH]; intros acc Hacc Hkvs; [exact Hacc |].
  cbn [forallb] in Hkvs. apply andb_prop in Hkvs as [Hkv Hkvs].
  cbn [fold_left fst snd]. apply IH; [| exact Hkvs].
  rewrite forallb_forall. intros [k' v'] Hin.
  apply dict_set_In in Hin as [Hin | [-> ->]]; [| exact Hkv].
  rewrite forallb_forall in Hacc. apply Hacc, Hin.
Qed.

Lemma dict_of_not_nil_from {V : Type} (kvs : list (string * V)) :
  forall acc,
    acc <> [] ->
    fold_left (fun d kv => dict_set (fst kv) (snd kv) d) kvs acc <> [].
Proof.
  induction kvs as [|[k v] kvs IH]; intros acc Hacc; [exact Hacc |].
  cbn [fold_left fst snd]. apply IH.
  destruct acc as [|[k' v'] acc]; [discriminate |].
  cbn [dict_set]. destruct (String.eqb k' k); discriminate.
Qed.

Lemma read_feat_value_set x kv : read_feat x = OK kv -> value_set kv = true.
Proof.
  unfold read_feat.
  destruct (split "=" x) as [|k [|v [|? ?]]]; try discriminate.
  intros [= <-]. unfold value_set. cbn [snd].
  pose proof (Idempotence.frozenset_not_nil (split "," v) (split_not_nil "," v))
    as Hne.
  destruct (frozenset (split "," v)) as [|v0 vs0] eqn:E;
    [contradiction Hne; reflexivity |].
  rewrite <- E. cbn [andb]. apply distinct_NoDup, NoDup_nodup.
Qed.

Lemma read_feats_items_value_sets items kvs :
  read_feats_items items = OK kvs -> forallb value_set kvs = true.
Proof.
  revert kvs. induction items as [|x items IH]; intros kvs.
  - intros [= <-]. reflexivity.
  - cbn [read_feats_items]. intros H.
    apply bind_OK in H as (kv & Hkv & H).
    apply bind_OK in H as (kvs' & Hkvs & H). injection H as <-.
    cbn [forallb]. rewrite (read_feat_value_set x kv Hkv), (IH kvs' Hkvs).
    reflexivity.
Qed.

Lemma read_feats_items_length items kvs :
  read_feats_items items = OK kvs -> length kvs = length items.
Proof.
  revert kvs. induction items as [|x items IH]; intros kvs.
  - intros [= <-]. reflexivity.
  - cbn [read_feats_items]. intros H.
    apply bind_OK in H as (kv & Hkv & H).
    apply bind_OK in H as (kvs' & Hkvs & H). injection H as <-.
    cbn [length]. rewrite (IH kvs' Hkvs). reflexivity.
Qed.

Lemma read_feats_shape s d :
  read_feats s = OK d ->
  d <> [] /\ distinct (map fst d) = true /\ forallb value_set d = true.
Proof.
  unfold read_feats. intros H.
  apply bind_OK in H as (kvs & Hkvs & H). injection H as <-.
  pose proof (read_feats_items_length _ _ Hkvs) as Hlen.
  pose proof (read_feats_items_value_sets _ _ Hkvs) as Hv.
  split; [| split].
  - unfold dict_of. destruct kvs as [|[k v] kvs].
    + pose proof (split_not_nil "|" s) as Hn.
      destruct (split "|" s); [contradiction Hn; reflexivity | discriminate Hlen].
    + cbn [fold_left fst snd dict_set]. apply dict_of_not_nil_from. discriminate.
  - apply dict_of_keys_from. reflexivity.
  - apply dict_of_forall_from; [reflexivity | exact Hv].
Qed.

(** X2. The FEATS of a parsed word is the empty dict exactly when the
    FEATS field is "_"; otherwise it has at least one key, its keys are
    distinct, and every key has a set of one or more values. *)
Theorem parsed_feats ds line w :
  _read_word ds line = OK w ->
  (FEATS w = [] <-> field 5 line = "_")
  /\ distinct (map fst (FEATS w)) = true
  /\ forallb value_set (FEATS w) = true.
Proof.
  unfold _read_word. intros H.
  apply bind_OK in H as ([] & Ha & H).
  destruct line as [|f0 [|f1 [|f2 [|f3 [|f4 [|f5 [|f6 [|f7 [|f8 [|f9 [|? ?]]]]]]]]]]];
    try discriminate H.
  apply bind_OK in H as (id & Hid & H).
  apply bind_OK in H as ([] & Hu & H).
  apply bind_OK in H as (fs & Hfs & H).
  apply bind_OK in H as (head & Hhead & H).
  injection H as <-. unfold field. cbn [nth FEATS].
  destruct (String.eqb_spec f5 "_") as [-> | Hne].
  - injection Hfs as <-. repeat split; reflexivity.
  - destruct (read_feats_shape f5 fs Hfs) as (Hn & Hk & Hv).
    split; [| split; assumption].
    split; [intros E; contradiction | intros E; contradiction].
Qed.

Lemma parsed_feats_witness :
  let line := ["7"; "dog"; "dog"; "NOUN"; "_"; "Number=Sing,Plur|Number=Sing";
               "0"; "root"; "_"; "_"] in
  _read_word example_ds line
  = OK (mkWord (PInt 7) "dog" "dog" "NOUN" "_" [("Number", ["Sing"])]
          (PInt 0) "root" "_" "_")
  /\ distinct (map fst [("Number", ["Sing"])]) = true.
Proof.
  intros line.
  assert (H : _read_word example_ds line
              = OK (mkWord (PInt 7) "dog" "dog" "NOUN" "_"
                      [("Number", ["Sing"])] (PInt 0) "root" "_" "_"))
    by (vm_compute; reflexivity).
  split; [exact H |].
  exact (proj1 (proj2 (parsed_feats example_ds line _ H))).
Defined.

(** *** A key that occurs twice *)

Lemma split_app_piece c a b :
  split c (a ++ String c b) = split c a ++ split c b.
Proof.
  induction a as [|x a IH].
  - cbn [append split]. rewrite Ascii.eqb_refl. reflexivity.
  - cbn [append split]. rewrite IH.
    destruct (Ascii.eqb x c); [reflexivity |].
    pose proof (split_not_nil c a) as Hn.
    destruct (split c a) as [|h t]; [contradiction Hn; reflexivity |].
    reflexivity.
Qed.

Lemma read_feats_items_app a b kvs :
  read_feats_items (a ++ b) = OK kvs ->
  exists ka kb,
    read_feats_items a = OK ka /\ read_feats_items b = OK kb
    /\ kvs = ka ++ kb.
Proof.
  revert kvs. induction a as [|x a IH]; intros kvs.
  - intros H. exists [], kvs. repeat split; assumption.
  - cbn [app read_feats_items]. intros H.
    apply bind_OK in H as (kv & Hkv & H).
    apply bind_OK in H as (kvs' & Hkvs & H). injection H as <-.
    destruct (IH kvs' Hkvs) as (ka & kb & Ha & Hb & ->).
    exists (kv :: ka), kb. rewrite Hkv, Ha. repeat split; assumption.
Qed.

Lemma lookup_dict_set {V : Type} k (v : V) d :
  lookup k (dict_set k v d) = Some v.
Proof.
  induction d as [|[k' v'] d IH]; cbn [dict_set lookup].
  - rewrite String.eqb_refl. reflexivity.
  - destruct (String.eqb k' k) eqn:E; cbn [lookup]; rewrite E;
      [reflexivity | exact IH].
Qed.

(** X3. When the last item of the FEATS field is "k=v", the parsed dict
    gives for k the set of the values of v, whatever the items before it
    say about k: of two items with the same key the later one wins. *)
Theorem last_feature_wins a k v d :
  no_char "|" k = true -> no_char "=" k = true ->
  no_char "|" v = true -> no_char "=" v = true ->
  read_feats (a ++ "|" ++ k ++ "=" ++ v) = OK d ->
  lookup k d = Some (frozenset (split "," v)).
Proof.
  intros Hbk Hek Hbv Hev. unfold read_feats. intros H.
  apply bind_OK in H as (kvs & Hkvs & H). injection H as <-.
  change (a ++ "|" ++ k ++ "=" ++ v)%string
    with (a ++ String "|" (k ++ String "=" v))%string in Hkvs.
  rewrite split_app_piece in Hkvs.
  assert (Hx : split "|" (k ++ String "=" v) = [(k ++ String "=" v)%string]).
  { apply split_no_sep. unfold no_char in *. rewrite forallb_str_app.
    cbn [forallb_str]. rewrite Hbk, Hbv. reflexivity. }
  rewrite Hx in Hkvs.
  apply read_feats_items_app in Hkvs as (ka & kb & Ha & Hb & ->).
  cbn [read_feats_items] in Hb. unfold read_feat in Hb.
  rewrite (split_app_sep "=" k v Hek), (split_no_sep "=" v Hev) in Hb.
  cbn [bind] in Hb. injection Hb as <-.
  unfold dict_of. rewrite fold_left_app. cbn [fold_left fst snd].
  apply lookup_dict_set.
Qed.

Lemma last_feature_wins_witness :
  read_feats ("Number=Plur|Case=Nom" ++ "|" ++ "Number" ++ "=" ++ "Sing")
  = OK [("Number", ["Sing"]); ("Case", ["Nom"])]
  /\ lookup "Number" [("Number", ["Sing"]); ("Case", ["Nom"])]
     = Some (frozenset (split "," "Sing")).
Proof.
  assert (H : read_feats ("Number=Plur|Case=Nom" ++ "|" ++ "Number" ++ "="
                          ++ "Sing")
              = OK [("Number", ["Sing"]); ("Case", ["Nom"])])
    by (vm_compute; reflexivity).
  split; [exact H |].
  exact (last_feature_wins "Number=Plur|Case=Nom" "Number" "Sing" _
           eq_refl eq_refl eq_refl eq_refl H).
Defined.

End ParserProps.

(* ===================================================================== *)
(** ** Further properties of the sentence reader *)
(* ===================================================================== *)

Module ReaderProps.
Import Py Conllu Spec Props PyFacts.
Local Open Scope string_scope.
Local Open Scope list_scope.

(** *** With and without multiwords *)

Lemma int_words_app a b : int_words (a ++ b) = int_words a ++ int_words b.
Proof. apply filter_app. Qed.

Lemma read_line_drop_multiwords ds st line :
  read_line ds false (drop_multiwords st) line
  = match read_line ds true st line with
    | OK (st', y) => OK (drop_multiwords st', option_map without_multiwords y)
    | Raise e => Raise e
    end.
Proof.
  unfold read_line.
  destruct (startswith "#" line).
  - destruct (contains (doc_id_prefix ds) line).
    + destruct (partition_last (doc_id_prefix ds) line); reflexivity.
    + destruct (contains (sent_id_prefix ds) line).
      * destruct (partition_last (sent_id_prefix ds) line); reflexivity.
      * reflexivity.
  - destruct (nonempty line).
    + destruct (_read_word ds (split tab line)) as [word|e]; [| reflexivity].
      cbn [bind orb]. unfold drop_multiwords. cbn [sent doc_id sent_id
        sentence_counter option_map]. rewrite int_words_app.
      assert (Hw : int_words [word] = if is_int (ID word) then [word] else [])
        by reflexivity.
      rewrite Hw. destruct (is_int (ID word)); [reflexivity |].
      rewrite app_nil_r. reflexivity.
    + reflexivity.
Qed.

Lemma read_loop_drop_multiwords ds lines :
  forall st n,
    read_loop ds false (drop_multiwords st) n lines
    = (map without_multiwords (fst (read_loop ds true st n lines)),
       snd (read_loop ds true st n lines)).
Proof.
  induction lines as [|raw lines IH]; intros st n; [reflexivity |].
  cbn [read_loop]. rewrite read_line_drop_multiwords.
  destruct (read_line ds true st (strip raw)) as [[st' y]|e]; [| reflexivity].
  rewrite IH. destruct (read_loop ds true st' (S n) lines) as [ys r].
  destruct y; reflexivity.
Qed.

(** X4. Whatever the file, [gen_sentences] without multiwords yields the
    sentences that it yields with multiwords, under the same names and
    with the same final exception, each reduced to its words with an
    integer id. *)
Theorem sentences_without_multiwords ds f :
  gen_sentences ds f false
  = (map without_multiwords (fst (gen_sentences ds f true)),
     snd (gen_sentences ds f true)).
Proof.
  destruct f as [|text failure]; [reflexivity |].
  unfold gen_sentences.
  pose proof (read_loop_drop_multiwords ds (file_lines text) initial_reader 0)
    as H.
  change (drop_multiwords initial_reader) with initial_reader in H.
  rewrite H.
  destruct (read_loop ds true initial_reader 0 (file_lines text)) as [ys r].
  reflexivity.
Qed.

(** *** Comments *)

Lemma read_plain_comment ds inc st raw :
  plain_comment ds raw = true ->
  read_line ds inc st (strip raw) = OK (st, None).
Proof.
  unfold plain_comment, is_comment, read_line. intros H.
  apply andb_prop in H as [H Hs]. apply andb_prop in H as [-> Hd].
  apply negb_true_iff in Hd, Hs. rewrite Hd, Hs. reflexivity.
Qed.

Lemma read_loop_plain_comments ds inc lines :
  forall st n m,
    fst (read_loop ds inc st n lines)
    = fst (read_loop ds inc st m
             (filter (fun raw => negb (plain_comment ds raw)) lines))
    /\ (snd (read_loop ds inc st n lines) = None
        <-> snd (read_loop ds inc st m
                   (filter (fun raw => negb (plain_comment ds raw)) lines))
            = None).
Proof.
  induction lines as [|raw lines IH]; intros st n m;
    [split; [reflexivity | split; trivial] |].
  cbn [read_loop filter].
  destruct (plain_comment ds raw) eqn:Hc; cbn [negb].
  - rewrite (read_plain_comment ds inc st raw Hc).
    specialize (IH st (S n) m).
    destruct (read_loop ds inc st (S n) lines) as [ys r]. exact IH.
  - cbn [read_loop].
    destruct (read_line ds inc st (strip raw)) as [[st' y]|e].
    + specialize (IH st' (S n) (S m)).
      destruct (read_loop ds inc st' (S n) lines) as [ys r].
      destruct (read_loop ds inc st' (S m) _) as [ys' r'].
      cbn [fst snd] in *. destruct IH as [-> IH].
      split; [reflexivity | exact IH].
    + split; [reflexivity | split; discriminate].
Qed.

(** X5. Comment lines that hold neither the document id prefix nor the
    sentence id prefix are ignored: a file read to its end and the file
    without these lines yield the same sentences, and one is read without
    error exactly when the other is. *)
Theorem plain_comments_ignored ds inc text text' :
  file_lines text'
  = filter (fun raw => negb (plain_comment ds raw)) (file_lines text) ->
  fst (gen_sentences ds (text_file text) inc)
  = fst (gen_sentences ds (text_file text') inc)
  /\ (snd (gen_sentences ds (text_file text) inc) = None
      <-> snd (gen_sentences ds (text_file text') inc) = None).
Proof.
  intros Hl. unfold gen_sentences, text_file. rewrite Hl.
  pose proof (read_loop_plain_comments ds inc (file_lines text)
                initial_reader 0 0) as H.
  destruct (read_loop ds inc initial_reader 0 (file_lines text))
    as [ys [[e k]|]];
    destruct (read_loop ds inc initial_reader 0 _) as [ys' [[e' k']|]];
    cbn [fst snd] in *; destruct H as [-> H];
    (split; [reflexivity |]); split; intros E;
    try discriminate E; try reflexivity; exfalso.
  - discriminate (proj2 H eq_refl).
  - discriminate (proj1 H eq_refl).
Qed.

Lemma plain_comments_ignored_witness :
  file_lines the_dog
  = filter (fun raw => negb (plain_comment example_ds raw))
      (file_lines commented)
  /\ fst (gen_sentences example_ds (text_file commented) false)
     = fst (gen_sentences example_ds (text_file the_dog) false).
Proof.
  assert (H : file_lines the_dog
              = filter (fun raw => negb (plain_comment example_ds raw))
                  (file_lines commented)) by (vm_compute; reflexivity).
  split; [exact H |].
  exact (proj1 (plain_comments_ignored example_ds false commented the_dog H)).
Defined.

(** *** An empty prefix *)

Lemma read_comment_empty_prefix ds inc st raw :
  doc_id_prefix ds = "" -> is_comment raw = true ->
  read_line ds inc st (strip raw) = Raise ValueError.
Proof.
  unfold is_comment, read_line. intros Hp ->. rewrite Hp.
  destruct (strip raw); reflexivity.
Qed.

Lemma read_loop_empty_prefix ds inc lines :
  doc_id_prefix ds = "" ->
  existsb is_comment lines = true ->
  forall st n, snd (read_loop ds inc st n lines) <> None.
Proof.
  intros Hp. induction lines as [|raw lines IH]; [discriminate |].
  cbn [existsb]. intros H st n. cbn [read_loop].
  destruct (read_line ds inc st (strip raw)) as [[st' y]|e] eqn:Hr;
    [| discriminate].
  destruct (is_comment raw) eqn:Hc.
  - rewrite (read_comment_empty_prefix ds inc st raw Hp Hc) in Hr.
    discriminate Hr.
  - specialize (IH H st' (S n)).
    destruct (read_loop ds inc st' (S n) lines) as [ys r]. exact IH.
Qed.

(** X6. With an empty document id prefix every comment line is refused:
    the prefix is found in the line and [partition] raises ValueError on
    an empty separator, so a file with a comment line is never read to
    its end, it fails with the format error of some line. *)
Theorem empty_prefix_refuses_comments ds inc text :
  doc_id_prefix ds = "" ->
  existsb is_comment (file_lines text) = true ->
  exists n, snd (gen_sentences ds (text_file text) inc)
            = Some (format_error ds n).
Proof.
  intros Hp Hc. unfold gen_sentences, text_file.
  pose proof (read_loop_empty_prefix ds inc _ Hp Hc initial_reader 0) as H.
  destruct (read_loop ds inc initial_reader 0 (file_lines text))
    as [ys [[e m]|]] eqn:Hl; [| contradiction H; reflexivity].
  destruct (ReaderFacts.read_loop_error _ _ _ _ _ _ _ _ Hl)
    as (i & raw & st & -> & _ & He & _).
  exists (0 + i)%nat. cbn [snd]. f_equal.
  apply ReaderFacts.read_handler_format,
    (ReaderFacts.read_line_raises _ _ _ _ _ He).
Qed.

Lemma empty_prefix_refuses_comments_witness :
  doc_id_prefix no_doc_prefix = ""
  /\ existsb is_comment (file_lines commented) = true
  /\ gen_sentences no_doc_prefix (text_file commented) false
     = ([], Some (format_error no_doc_prefix 0))
  /\ exists n, snd (gen_sentences no_doc_prefix (text_file commented) false)
               = Some (format_error no_doc_prefix n).
Proof.
  assert (H : existsb is_comment (file_lines commented) = true)
    by (vm_compute; reflexivity).
  split; [reflexivity |]. split; [exact H |].
  split; [vm_compute; reflexivity |].
  exact (empty_prefix_refuses_comments no_doc_prefix false commented
           eq_refl H).
Defined.

(** *** Failing *)

(** X7. When the reader fails on a file that can be read to its end, the
    exception is the format error of a line [n] of the file, counted from
    0: the reader refuses that line, and the sentences it has yielded are
    those of the lines before it, none of which it refused. *)
Theorem reader_fails_at_first_refused_line ds text inc ys e :
  gen_sentences ds (text_file text) inc = (ys, Some e) ->
  exists n raw st,
    nth_error (file_lines text) n = Some raw
    /\ e = format_error ds n
    /\ is_error (read_line ds inc st (strip raw)) = true
    /\ read_loop ds inc initial_reader 0 (firstn n (file_lines text))
       = (ys, None).
Proof.
  unfold gen_sentences, text_file. intros H.
  destruct (read_loop ds inc initial_reader 0 (file_lines text))
    as [ys1 [[e1 m]|]] eqn:Hl; [| discriminate].
  injection H as <- <-.
  destruct (ReaderFacts.read_loop_error _ _ _ _ _ _ _ _ Hl)
    as (i & raw & st & -> & Hn & He & Hf).
  exists i, raw, st. split; [exact Hn |]. split.
  - apply ReaderFacts.read_handler_format,
      (ReaderFacts.read_line_raises _ _ _ _ _ He).
  - rewrite He. split; [reflexivity | exact Hf].
Qed.

Lemma reader_fails_at_first_refused_line_witness :
  gen_sentences example_ds (text_file nine_fields) false
  = (fst (gen_sentences example_ds (text_file the_dog) false),
     Some (format_error example_ds 3))
  /\ exists n raw st,
      nth_error (file_lines nine_fields) n = Some raw
      /\ format_error example_ds 3 = format_error example_ds n
      /\ is_error (read_line example_ds false st (strip raw)) = true
      /\ read_loop example_ds false initial_reader 0
           (firstn n (file_lines nine_fields))
         = (fst (gen_sentences example_ds (text_file the_dog) false), None).
Proof.
  assert (H : gen_sentences example_ds (text_file nine_fields) false
              = (fst (gen_sentences example_ds (text_file the_dog) false),
                 Some (format_error example_ds 3)))
    by (vm_compute; reflexivity).
  split; [exact H |].
  exact (reader_fails_at_first_refused_line example_ds nine_fields false _ _ H).
Defined.

(** *** Names *)

Lemma read_line_pending_name ds inc st line st' y :
  negb (startswith "#" line)
  || (negb (contains (doc_id_prefix ds) line)
      && negb (contains (sent_id_prefix ds) line)) = true ->
  read_line ds inc st line = OK (st', y) ->
  pending_name st' = pending_name st
  /\ (forall s, y = Some s -> fst s = pending_name st).
Proof.
  intros Hline. unfold read_line.
  destruct (startswith "#" line) eqn:Hc; cbn [negb orb] in Hline.
  - apply andb_prop in Hline as [Hd Hs].
    apply negb_true_iff in Hd, Hs. rewrite Hd, Hs.
    intros [= <- <-]. split; [reflexivity | discriminate].
  - destruct (nonempty line).
    + intros H. apply bind_OK in H as (word & _ & H).
      destruct (inc || is_int (ID word)); injection H as <- <-;
        (split; [reflexivity | discriminate]).
    + intros [= <- <-]. split; [| intros s [= <-]; reflexivity].
      unfold pending_name. cbn [doc_id sent_id sentence_counter].
      assert (Hfix : forall v : pyval,
                 (if pyval_eqb (if pyval_eqb v (PStr "") then PInt 0 else v)
                       (PStr "")
                  then PInt 0
                  else if pyval_eqb v (PStr "") then PInt 0 else v)
                 = (if pyval_eqb v (PStr "") then PInt 0 else v)).
      { intros v. destruct (pyval_eqb v (PStr "")) eqn:E;
          [reflexivity | rewrite E; reflexivity]. }
      rewrite Hfix. f_equal. f_equal.
      destruct (pyval_eqb (sent_id st) (PStr "")) eqn:E;
        [reflexivity | rewrite E; reflexivity].
Qed.

Lemma read_loop_pending_name ds inc lines :
  no_id_comments ds lines = true ->
  forall st n,
    Forall (fun y => fst y = pending_name st)
      (fst (read_loop ds inc st n lines)).
Proof.
  induction lines as [|raw lines IH]; intros Hno st n; [constructor |].
  cbn [no_id_comments forallb] in Hno. apply andb_prop in Hno as [Hraw Hno].
  cbn [read_loop].
  destruct (read_line ds inc st (strip raw)) as [[st' y]|e] eqn:Hr;
    [| constructor].
  destruct (read_line_pending_name _ _ _ _ _ _ Hraw Hr) as [Hst' Hy].
  specialize (IH Hno st' (S n)). rewrite Hst' in IH.
  destruct (read_loop ds inc st' (S n) lines) as [ys r]. cbn [fst] in *.
  destruct y as [s|]; [constructor; auto | exact IH].
Qed.

Lemma read_loop_app ds inc l1 :
  forall st n ys1,
    read_loop ds inc st n l1 = (ys1, None) ->
    exists st',
      forall l2,
        read_loop ds inc st n (l1 ++ l2)
        = (ys1 ++ fst (read_loop ds inc st' (n + length l1) l2),
           snd (read_loop ds inc st' (n + length l1) l2)).
Proof.
  induction l1 as [|raw l1 IH]; intros st n ys1.
  - intros [= <-]. exists st. intros l2. cbn [app length].
    rewrite Nat.add_0_r. destruct (read_loop ds inc st n l2); reflexivity.
  - cbn [read_loop app].
    destruct (read_line ds inc st (strip raw)) as [[st1 y]|e]; [| discriminate].
    destruct (read_loop ds inc st1 (S n) l1) as [ys r] eqn:H1.
    intros [= <- ->]. destruct (IH _ _ _ H1) as [st' Hst'].
    exists st'. intros l2. rewrite Hst'. cbn [length].
    rewrite Nat.add_succ_r. cbn [Nat.add].
    destruct y; reflexivity.
Qed.

(** X8. The ids that comments give stay pending: when the lines of a file
    are [l1], read without error, followed by lines without id comment,
    the sentences closed in these later lines all bear one and the same
    name, however many they are. *)
Theorem one_name_between_id_comments ds inc text l1 l2 ys1 :
  file_lines text = l1 ++ l2 ->
  read_loop ds inc initial_reader 0 l1 = (ys1, None) ->
  no_id_comments ds l2 = true ->
  exists name ys2,
    fst (gen_sentences ds (text_file text) inc) = ys1 ++ ys2
    /\ Forall (fun y => fst y = name) ys2.
Proof.
  intros Hl H1 Hno.
  destruct (read_loop_app ds inc l1 _ _ _ H1) as [st' Hst'].
  exists (pending_name st'),
    (fst (read_loop ds inc st' (0 + length l1) l2)).
  split.
  - unfold gen_sentences, text_file. rewrite Hl, Hst'. reflexivity.
  - apply read_loop_pending_name, Hno.
Qed.

Lemma one_name_between_id_comments_witness :
  map fst (fst (gen_sentences example_ds (text_file named_file) false))
  = ["d7_s1"; "d7_s2"; "d7_s2"]
  /\ exists name ys2,
      fst (gen_sentences example_ds (text_file named_file) false)
      = fst (read_loop example_ds false initial_reader 0
               (firstn 7 (file_lines named_file))) ++ ys2
      /\ Forall (fun y => fst y = name) ys2.
Proof.
  split; [vm_compute; reflexivity |].
  apply (one_name_between_id_comments example_ds false named_file
           (firstn 7 (file_lines named_file))
           (skipn 7 (file_lines named_file))).
  - symmetry. apply firstn_skipn.
  - vm_compute. reflexivity.
  - vm_compute. reflexivity.
Defined.

End ReaderProps.

(* ===================================================================== *)
(** ** Further properties of the formatter and of the writer *)
(* ===================================================================== *)

Module WriterProps.
Import Py Conllu Spec Props PyFacts.
Local Open Scope string_scope.
Local Open Scope list_scope.

(** *** What [write_sentences] checks *)

Lemma write_loop_result ss :
  write_loop ss
  = if forallb (forallb is_word) ss
    then OK (terminated (written_lines (map words_of ss)))
    else Raise AssertionError.
Proof.
  induction ss as [|s ss IH]; [reflexivity |].
  cbn [write_loop forallb map]. destruct (forallb is_word s); [| reflexivity].
  cbn [assert bind andb]. rewrite IH.
  destruct (forallb (forallb is_word) ss); [| reflexivity].
  cbn [bind]. unfold written_lines. cbn [flat_map].
  rewrite RoundTrip.terminated_app, RoundTrip.format_sentence_terminated.
  reflexivity.
Qed.

(** X9. [write_sentences] checks nothing but that the elements of the
    sentences are Words.  When the file cannot be opened it fails with
    "Could not write" and the path; otherwise it fails exactly when some
    sentence holds something that is not a Word, and else writes, for
    each sentence, one line per word and an empty line, each ended by a
    line feed, whatever the columns hold. *)
Theorem write_sentences_result ds writable ss :
  write_sentences ds writable ss
  = if negb writable
    then Raise (ConlluError ("Could not write " ++ file_path ds))
    else if forallb (forallb is_word) ss
         then OK (terminated (written_lines (map words_of ss)))
         else Raise (ConlluError "Sentences must be sequences of Word tuples").
Proof.
  unfold write_sentences. destruct writable; [| reflexivity].
  rewrite write_loop_result.
  destruct (forallb (forallb is_word) ss); reflexivity.
Qed.

(** *** The order of FEATS does not show *)

Lemma leb_cons x a y b :
  String.leb (String x a) (String y b) = true
  <-> (N_of_ascii x < N_of_ascii y)%N \/ (x = y /\ String.leb a b = true).
Proof.
  unfold String.leb. cbn [String.compare]. unfold Ascii.compare.
  destruct (N.compare_spec (N_of_ascii x) (N_of_ascii y)) as [E | L | G].
  - assert (x = y).
    { rewrite <- (ascii_N_embedding x), <- (ascii_N_embedding y), E.
      reflexivity. }
    subst y. split; [intros H; right; split; [reflexivity | exact H] |].
    intros [H | [_ H]]; [lia | exact H].
  - split; [intros _; left; exact L | reflexivity].
  - split; [discriminate |].
    intros [H | [-> _]]; lia.
Qed.

Lemma leb_trans a :
  forall b c,
    String.leb a b = true -> String.leb b c = true -> String.leb a c = true.
Proof.
  induction a as [|x a IH]; intros b c Hab Hbc.
  - destruct c; reflexivity.
  - destruct b as [|y b]; [discriminate Hab |].
    destruct c as [|z c]; [discriminate Hbc |].
    apply leb_cons in Hab, Hbc. apply leb_cons.
    destruct Hab as [Hab | [-> Hab]], Hbc as [Hbc | [-> Hbc]].
    + left; lia.
    + left; exact Hab.
    + left; exact Hbc.
    + right; split; [reflexivity | apply (IH b c Hab Hbc)].
Qed.

Section SortUnique.
Context {A : Type} (le : A -> A -> bool).
Hypothesis le_total : forall a b, le a b = true \/ le b a = true.
Hypothesis le_trans :
  forall a b c, le a b = true -> le b c = true -> le a c = true.

Lemma strongly_sorted_perm_eq l1 :
  forall l2,
    StronglySorted (holds le) l1 -> StronglySorted (holds le) l2 ->
    Permutation l1 l2 ->
    (forall a b, In a l1 -> In b l1 ->
                 le a b = true -> le b a = true -> a = b) ->
    l1 = l2.
Proof.
  induction l1 as [|x t1 IH]; intros l2 S1 S2 P Hanti.
  - apply Permutation_nil in P. symmetry. exact P.
  - destruct l2 as [|y t2];
      [apply Permutation_sym, Permutation_nil in P; discriminate P |].
    apply StronglySorted_inv in S1 as [S1 F1].
    apply StronglySorted_inv in S2 as [S2 F2].
    assert (Hxy : x = y).
    { assert (Hx : In x (y :: t2))
        by (apply (Permutation_in x P); left; reflexivity).
      assert (Hy : In y (x :: t1))
        by (apply (Permutation_in y (Permutation_sym P)); left; reflexivity).
      destruct Hx as [Hx | Hx]; [symmetry; exact Hx |].
      destruct Hy as [Hy | Hy]; [exact Hy |].
      rewrite Forall_forall in F1, F2.
      apply Hanti; [left; reflexivity | right; exact Hy
                   | apply F1, Hy | apply F2, Hx]. }
    subst y. f_equal. apply IH; try assumption.
    + apply (Permutation_cons_inv P).
    + intros a b Ha Hb. apply Hanti; right; assumption.
Qed.

Lemma sort_strongly_sorted l : StronglySorted (holds le) (sort le l).
Proof.
  apply Sorted_StronglySorted.
  - intros a b c. apply le_trans.
  - apply sort_sorted, le_total.
Qed.

Lemma sort_perm_eq l l' :
  Permutation l l' ->
  (forall a b, In a l -> In b l ->
               le a b = true -> le b a = true -> a = b) ->
  sort le l = sort le l'.
Proof.
  intros P Hanti. apply strongly_sorted_perm_eq.
  - apply sort_strongly_sorted.
  - apply sort_strongly_sorted.
  - rewrite (sort_perm le l), (sort_perm le l'). exact P.
  - intros a b Ha Hb. apply Hanti.
    + apply (Permutation_in a (sort_perm le l) Ha).
    + apply (Permutation_in b (sort_perm le l) Hb).
Qed.

End SortUnique.

Lemma sorted_perm l l' : Permutation l l' -> sorted l = sorted l'.
Proof.
  intros P. apply sort_perm_eq; try assumption.
  - apply String.leb_total.
  - intros a b c. apply leb_trans.
  - intros a b _ _. apply String.leb_antisym.
Qed.

Lemma key_unique (d : feats) a b :
  NoDup (map fst d) -> In a d -> In b d -> fst a = fst b -> a = b.
Proof.
  induction d as [|kv d IH]; intros Hn Ha Hb Hk; [destruct Ha |].
  cbn [map] in Hn. inversion Hn as [|? ? Hnot Hn']; subst.
  destruct Ha as [-> | Ha], Hb as [-> | Hb].
  - reflexivity.
  - contradiction Hnot. rewrite Hk. apply in_map, Hb.
  - contradiction Hnot. rewrite <- Hk. apply in_map, Ha.
  - apply (IH Hn' Ha Hb Hk).
Qed.

Lemma sorted_items_perm d d' :
  Permutation d d' -> distinct (map fst d) = true ->
  sorted_items d = sorted_items d'.
Proof.
  intros P Hd. apply sort_perm_eq; try assumption.
  - intros a b. apply String.leb_total.
  - intros a b c. apply leb_trans.
  - intros a b Ha Hb Hab Hba.
    apply (key_unique d); try assumption.
    + apply distinct_NoDup, Hd.
    + apply String.leb_antisym; assumption.
Qed.

(** X10. What [format_word] writes for FEATS does not depend on the order
    in which the dict lists its keys nor on the order in which a set
    lists its values: two dicts with the same entries give the same
    column, and two listings of the same values give the same item. *)
Theorem format_feats_order_free d d' :
  Permutation d d' -> distinct (map fst d) = true ->
  format_feats d = format_feats d'
  /\ (forall k vs vs', Permutation vs vs' ->
                       format_feat (k, vs) = format_feat (k, vs')).
Proof.
  intros P Hd. split.
  - unfold format_feats. rewrite (sorted_items_perm d d' P Hd).
    destruct d as [|kv d].
    + apply Permutation_nil in P. subst d'. reflexivity.
    + destruct d' as [|kv' d'];
        [apply Permutation_sym, Permutation_nil in P; discriminate P |].
      reflexivity.
  - intros k vs vs' Pv. unfold format_feat. cbn [fst snd].
    rewrite (sorted_perm vs vs' Pv). reflexivity.
Qed.

Lemma format_feats_order_free_witness :
  Permutation [("PronType", ["Art"]); ("Definite", ["Def"])]
    [("Definite", ["Def"]); ("PronType", ["Art"])]
  /\ map format_word the_dog_words = map format_word the_dog_words'.
Proof.
  assert (P : Permutation [("PronType", ["Art"]); ("Definite", ["Def"])]
                [("Definite", ["Def"]); ("PronType", ["Art"])])
    by apply perm_swap.
  split; [exact P |].
  unfold the_dog_words, the_dog_words', format_word.
  cbn [map ID FORM LEMMA UPOSTAG XPOSTAG FEATS HEAD DEPREL DEPS MISC].
  rewrite (proj1 (format_feats_order_free _ _ P eq_refl)). reflexivity.
Defined.

End WriterProps.

(* ===================================================================== *)
(** ** Further properties of the graph builder and serializer *)
(* ===================================================================== *)

Module GraphProps.
Import Py Conllu Spec Props PyFacts.
Local Open Scope string_scope.
Local Open Scope list_scope.

Lemma pyval_eqb_eq a b : pyval_eqb a b = true <-> a = b.
Proof.
  destruct a as [n|s], b as [m|t]; cbn [pyval_eqb].
  - rewrite Z.eqb_eq. split; [intros ->; reflexivity | intros [= ->]; reflexivity].
  - split; discriminate.
  - split; discriminate.
  - rewrite String.eqb_eq.
    split; [intros ->; reflexivity | intros [= ->]; reflexivity].
Qed.

Lemma pyval_eqb_refl a : pyval_eqb a a = true.
Proof. apply pyval_eqb_eq. reflexivity. Qed.

Lemma pyval_eqb_neq a b : a <> b -> pyval_eqb a b = false.
Proof.
  intros H. apply Bool.not_true_iff_false. intros E.
  apply H, pyval_eqb_eq, E.
Qed.

Lemma str_of_Z_inj n m : str_of_Z n = str_of_Z m -> n = m.
Proof.
  intros H. pose proof (int_str n) as Hn. rewrite H, int_str in Hn.
  injection Hn as ->. reflexivity.
Qed.

(** *** The nodes that [gen_graphs] makes *)

Lemma set_node_keys ns n data k :
  In k (map fst (set_node ns n data)) <-> In k (map fst ns) \/ k = n.
Proof.
  induction ns as [|[k0 d0] ns IH]; cbn [set_node map fst In].
  - split; [intros [<- | []]; right; reflexivity
           | intros [[] | ->]; left; reflexivity].
  - destruct (pyval_eqb k0 n) eqn:E; cbn [map fst In].
    + apply pyval_eqb_eq in E. subst k0.
      split; [intros H; left; exact H |].
      intros [H | ->]; [exact H | left; reflexivity].
    + rewrite IH. tauto.
Qed.

Lemma set_node_NoDup ns n data :
  NoDup (map fst ns) -> NoDup (map fst (set_node ns n data)).
Proof.
  induction ns as [|[k0 d0] ns IH]; cbn [set_node map fst]; intros H.
  - constructor; [intros [] | constructor].
  - inversion H as [|? ? Hnot Hn]; subst.
    destruct (pyval_eqb k0 n) eqn:E; cbn [map fst].
    + constructor; assumption.
    + constructor; [| apply IH, Hn].
      intros Hin. apply set_node_keys in Hin as [Hin | ->];
        [contradiction |].
      rewrite pyval_eqb_refl in E. discriminate E.
Qed.

Lemma add_word_keys ds edgeless g w k :
  In k (map fst (nodes (add_word ds edgeless g w)))
  <-> In k (map fst (nodes g))
      \/ (is_int (ID w) = true
          /\ (k = PStr (str (ID w))
              \/ (edgeless = false /\ headed w = true
                  /\ k = PStr (str (HEAD w))))).
Proof.
  unfold add_word, headed. destruct (is_int (ID w)); cbn [andb].
  - destruct edgeless; cbn [negb andb].
    + cbn [add_node nodes]. rewrite set_node_keys.
      split; [intros [H | H]; [left | right; split; [| left]]; auto |].
      intros [H | [_ [H | (E & _)]]]; [left | right | discriminate E]; auto.
    + destruct (negb (pyval_eqb (HEAD w) (PStr "_"))).
      * cbn [add_edge add_node nodes]. rewrite !set_node_keys.
        split.
        -- intros [[[H | H] | H] | H]; [left; exact H | | | ].
           ++ right. split; [reflexivity | left; exact H].
           ++ right. split; [reflexivity |]. right. repeat split. exact H.
           ++ right. split; [reflexivity | left; exact H].
        -- intros [H | [_ [H | (_ & _ & H)]]].
           ++ left; left; left; exact H.
           ++ right; exact H.
           ++ left; right; exact H.
      * cbn [add_node nodes]. rewrite set_node_keys.
        split; [intros [H | H]; [left | right; split; [| left]]; auto |].
        intros [H | [_ [H | (_ & E & _)]]]; [left | right | discriminate E];
          auto.
  - cbn [nodes]. split; [intros H; left; exact H |].
    intros [H | [E _]]; [exact H | discriminate E].
Qed.

Lemma add_word_NoDup ds edgeless g w :
  NoDup (map fst (nodes g)) ->
  NoDup (map fst (nodes (add_word ds edgeless g w))).
Proof.
  intros H. unfold add_word. destruct (is_int (ID w)); [| exact H].
  destruct (negb edgeless && negb (pyval_eqb (HEAD w) (PStr "_")));
    cbn [add_edge add_node nodes]; repeat apply set_node_NoDup; exact H.
Qed.

Lemma add_word_edgeless ds g w :
  edges (add_word ds true g w) = edges g.
Proof. unfold add_word. destruct (is_int (ID w)); reflexivity. Qed.

Lemma fold_add_word_nodes ds edgeless sent :
  forall g,
    NoDup (map fst (nodes g)) ->
    let g' := fold_left (add_word ds edgeless) sent g in
    NoDup (map fst (nodes g'))
    /\ (edgeless = true -> edges g' = edges g)
    /\ (forall k,
           In k (map fst (nodes g'))
           <-> In k (map fst (nodes g))
               \/ exists w,
                   In w (int_words sent)
                   /\ (k = PStr (str (ID w))
                       \/ (edgeless = false /\ headed w = true
                           /\ k = PStr (str (HEAD w))))).
Proof.
  induction sent as [|w sent IH]; intros g Hg.
  - cbn [fold_left]. split; [exact Hg |]. split; [reflexivity |].
    intros k. split; [intros H; left; exact H |].
    intros [H | (w & [] & _)]. exact H.
  - cbn [fold_left].
    destruct (IH (add_word ds edgeless g w) (add_word_NoDup ds edgeless g w Hg))
      as (Hn & He & Hk).
    split; [exact Hn |]. split.
    + intros ->. rewrite (He eq_refl). apply add_word_edgeless.
    + intros k. rewrite Hk, add_word_keys. unfold int_words. cbn [filter].
      split.
      * intros [[H | (Hi & H)] | (w' & Hw' & H)].
        -- left; exact H.
        -- right. exists w. rewrite Hi. split; [left; reflexivity | exact H].
        -- right. exists w'. split; [| exact H].
           destruct (is_int (ID w)); [right |]; exact Hw'.
      * intros [H | (w' & Hw' & H)]; [left; left; exact H |].
        destruct (is_int (ID w)) eqn:Hi.
        -- destruct Hw' as [<- | Hw'].
           ++ left; right. split; [reflexivity | exact H].
           ++ right. exists w'. split; assumption.
        -- right. exists w'. split; assumption.
Qed.

(** X11. The nodes of a graph that [gen_graphs] builds are the root "0",
    one node for each word with an integer id and, when edges are built,
    the heads of these words, so a head that is the id of no word is a
    node all the same; no key occurs twice; with [edgeless] the graph has
    no edge. *)
Theorem sentence_graph_nodes ds edgeless sent :
  let g := sentence_graph ds edgeless sent in
  NoDup (map fst (nodes g))
  /\ (edgeless = true -> edges g = [])
  /\ (forall k,
         In k (map fst (nodes g))
         <-> k = PStr "0"
             \/ exists w,
                 In w (int_words sent)
                 /\ (k = PStr (str (ID w))
                     \/ (edgeless = false /\ headed w = true
                         /\ k = PStr (str (HEAD w))))).
Proof.
  unfold sentence_graph.
  destruct (fold_add_word_nodes ds edgeless sent
              (add_node empty_graph (PStr "0") (label_data nbsp)))
    as (Hn & He & Hk).
  { cbn. constructor; [intros [] | constructor]. }
  split; [exact Hn |]. split; [exact He |].
  intros k. rewrite Hk. cbn [add_node empty_graph nodes set_node map fst In].
  split; [intros [[<- | []] | H]; [left; reflexivity | right; exact H] |].
  intros [-> | H]; [left; left; reflexivity | right; exact H].
Qed.

(** *** The edges that [gen_graphs] makes *)

Lemma set_edge_fresh es u v data :
  (forall e, In e es -> snd (fst e) <> v) ->
  set_edge es u v data = es ++ [(u, v, data)].
Proof.
  induction es as [|[[u' v'] d'] es IH]; intros H; [reflexivity |].
  cbn [set_edge app].
  assert (Hv : pyval_eqb v' v = false).
  { apply pyval_eqb_neq. apply (H (u', v', d')). left; reflexivity. }
  rewrite Hv, andb_false_r, IH; [reflexivity |].
  intros e He. apply H. right; exact He.
Qed.

Lemma int_word_key_inj w w' :
  is_int (ID w) = true -> is_int (ID w') = true ->
  PStr (str (ID w)) = PStr (str (ID w')) -> ID w = ID w'.
Proof.
  destruct (ID w) as [n|s], (ID w') as [m|t]; try discriminate.
  intros _ _ [= H]. apply str_of_Z_inj in H. subst m. reflexivity.
Qed.

Lemma fold_add_word_edges ds sent :
  forall g,
    NoDup (map ID (int_words sent)) ->
    (forall e w, In e (edges g) -> In w (int_words sent) ->
                 snd (fst e) <> PStr (str (ID w))) ->
    edges (fold_left (add_word ds false) sent g)
    = edges g ++ map word_edge (filter headed sent).
Proof.
  induction sent as [|w sent IH]; intros g Hn Hg.
  - cbn [fold_left filter map]. rewrite app_nil_r. reflexivity.
  - cbn [fold_left filter]. unfold int_words in Hn, Hg. cbn [filter] in Hn, Hg.
    unfold headed at 1. unfold add_word at 2.
    destruct (is_int (ID w)) eqn:Hi; cbn [andb negb].
    + cbn [map] in Hn. inversion Hn as [|? ? Hnot Hn']; subst.
      destruct (negb (pyval_eqb (HEAD w) (PStr "_"))) eqn:Hh.
      * rewrite IH; [| exact Hn' |].
        -- cbn [add_edge add_node edges map].
           rewrite set_edge_fresh.
           ++ rewrite <- app_assoc. reflexivity.
           ++ intros e He. apply (Hg e w He). left; reflexivity.
        -- cbn [add_edge add_node edges].
           rewrite set_edge_fresh
             by (intros e He; apply (Hg e w He); left; reflexivity).
           intros e w' He Hw'. apply in_app_or in He as [He | [<- | []]].
           ++ apply (Hg e w' He). right; exact Hw'.
           ++ cbn [fst snd]. intros E. apply Hnot.
              apply filter_In in Hw' as Hw''. destruct Hw'' as [_ Hi'].
              rewrite (int_word_key_inj w w' Hi Hi' E).
              apply in_map. exact Hw'.
      * rewrite IH; [reflexivity | exact Hn' |].
        cbn [add_node edges]. intros e w' He Hw'.
        apply (Hg e w' He). right; exact Hw'.
    + rewrite IH; [reflexivity | exact Hn |].
      cbn [edges]. exact Hg.
Qed.

Lemma no_edge_to ws k :
  (forall w, In w ws -> is_int (ID w) = true -> PStr (str (ID w)) <> k) ->
  filter (fun e => pyval_eqb (snd (fst e)) k) (map word_edge (filter headed ws))
  = [].
Proof.
  induction ws as [|w ws IH]; intros H; [reflexivity |].
  cbn [filter]. destruct (headed w) eqn:Hh.
  - cbn [map filter word_edge fst snd].
    unfold headed in Hh. apply andb_prop in Hh as [Hi _].
    rewrite (pyval_eqb_neq _ _ (H w (or_introl eq_refl) Hi)).
    apply IH. intros w' Hw'. apply H. right; exact Hw'.
  - apply IH. intros w' Hw'. apply H. right; exact Hw'.
Qed.

Lemma one_edge_to ws :
  NoDup (map ID (int_words ws)) ->
  forall w,
    In w ws -> is_int (ID w) = true ->
    filter (fun e => pyval_eqb (snd (fst e)) (PStr (str (ID w))))
      (map word_edge (filter headed ws))
    = if headed w then [word_edge w] else [].
Proof.
  induction ws as [|w0 ws IH]; intros Hn w Hw Hi; [destruct Hw |].
  unfold int_words in Hn. cbn [filter] in Hn.
  destruct Hw as [-> | Hw].
  - rewrite Hi in Hn. cbn [map] in Hn. inversion Hn as [|? ? Hnot Hn']; subst.
    assert (Hrest : filter (fun e => pyval_eqb (snd (fst e)) (PStr (str (ID w))))
                      (map word_edge (filter headed ws)) = []).
    { apply no_edge_to. intros w' Hw' Hi' E. apply Hnot.
      rewrite <- (int_word_key_inj w' w Hi' Hi E).
      apply in_map, filter_In. split; assumption. }
    cbn [filter]. destruct (headed w); [| exact Hrest].
    cbn [map filter word_edge fst snd]. rewrite pyval_eqb_refl, Hrest.
    reflexivity.
  - assert (Hn' : NoDup (map ID (int_words ws))).
    { destruct (is_int (ID w0)); [| exact Hn].
      cbn [map] in Hn. inversion Hn; assumption. }
    cbn [filter]. destruct (headed w0) eqn:Hh; [| apply (IH Hn' w Hw Hi)].
    cbn [map filter word_edge fst snd].
    unfold headed in Hh. apply andb_prop in Hh as [Hi0 _].
    rewrite Hi0 in Hn. cbn [map] in Hn. inversion Hn as [|? ? Hnot _]; subst.
    rewrite pyval_eqb_neq; [apply (IH Hn' w Hw Hi) |].
    intros E. apply Hnot. rewrite (int_word_key_inj w0 w Hi0 Hi E).
    apply in_map, filter_In. split; assumption.
Qed.

(** X12. For a sentence whose integer ids are distinct, [gen_graphs] with
    edges builds a graph in which each word with an integer id has one
    incoming edge, from the node of its head and labelled with its
    relation, or none when its head is "_"; the root has no incoming edge
    unless a word has the id 0. *)
Theorem one_incoming_edge_per_word ds sent :
  NoDup (map ID (int_words sent)) ->
  let g := sentence_graph ds false sent in
  edges g = map word_edge (filter headed sent)
  /\ (forall w, In w sent -> is_int (ID w) = true ->
                in_edges g (PStr (str (ID w)))
                = if headed w then [word_edge w] else [])
  /\ ((forall w, In w sent -> ID w <> PInt 0) ->
      in_edges g (PStr "0") = []).
Proof.
  intros Hn g.
  assert (He : edges g = map word_edge (filter headed sent)).
  { unfold g, sentence_graph. rewrite fold_add_word_edges; [reflexivity | exact Hn |].
    intros e w []. }
  split; [exact He |]. split.
  - intros w Hw Hi. unfold in_edges. rewrite He.
    apply (one_edge_to sent Hn w Hw Hi).
  - intros H0. unfold in_edges. rewrite He. apply no_edge_to.
    intros w Hw Hi E. apply (H0 w Hw).
    destruct (ID w) as [n|s]; [| discriminate Hi].
    injection E as E. change "0" with (str_of_Z 0) in E.
    apply str_of_Z_inj in E. subst n. reflexivity.
Qed.

Lemma one_incoming_edge_per_word_witness :
  NoDup (map ID (int_words the_dog_sentence))
  /\ edges (sentence_graph example_ds false the_dog_sentence)
     = [(PStr "2", PStr "1", mkEdgeData (Some "det") None);
        (PStr "0", PStr "2", mkEdgeData (Some "root") None)]
  /\ edges (sentence_graph example_ds false the_dog_sentence)
     = map word_edge (filter headed the_dog_sentence).
Proof.
  assert (H : NoDup (map ID (int_words the_dog_sentence))).
  { vm_compute. repeat constructor; cbn; intuition discriminate. }
  split; [exact H |]. split; [vm_compute; reflexivity |].
  exact (proj1 (one_incoming_edge_per_word example_ds the_dog_sentence H)).
Defined.

(** *** The attributes of the nodes that [gen_graphs] makes *)













(** *** Where the serializer puts the stored records *)

Lemma next_index_anchor ws w post k i :
  (forall w', In w' ws -> ID w' <> PInt k) ->
  ID w = PInt k ->
  next_index (map IWord ws ++ IWord w :: post) k i = OK (i + length ws).
Proof.
  intros Hpre Hw. revert i.
  induction ws as [|w0 ws IH]; intros i; cbn [map app next_index length].
  - rewrite Hw, pyval_eqb_refl. f_equal. lia.
  - rewrite (pyval_eqb_neq _ _ (Hpre w0 (or_introl eq_refl))).
    rewrite IH by (intros w' Hw'; apply Hpre; right; exact Hw').
    f_equal. lia.
Qed.

Lemma next_index_none ws k i :
  (forall w, In w ws -> ID w <> PInt k) ->
  next_index (map IWord ws) k i = Raise StopIteration.
Proof.
  intros H. revert i.
  induction ws as [|w ws IH]; intros i; cbn [map next_index]; [reflexivity |].
  rewrite (pyval_eqb_neq _ _ (H w (or_introl eq_refl))).
  apply IH. intros w' Hw'. apply H. right; exact Hw'.
Qed.

Lemma next_index_str ws t post k i :
  (forall w, In w ws -> ID w <> PInt k) ->
  next_index (map IWord ws ++ IStr t :: post) k i = Raise AttributeError.
Proof.
  intros H. revert i.
  induction ws as [|w ws IH]; intros i; cbn [map app next_index];
    [reflexivity |].
  rewrite (pyval_eqb_neq _ _ (H w (or_introl eq_refl))).
  apply IH. intros w' Hw'. apply H. right; exact Hw'.
Qed.

Lemma list_insert_app {A : Type} (pre post : list A) x :
  list_insert (0 + length pre) x (pre ++ post) = pre ++ x :: post.
Proof.
  unfold list_insert. cbn [Nat.add].
  rewrite firstn_app, firstn_all, Nat.sub_diag, skipn_app, skipn_all,
    Nat.sub_diag.
  cbn [firstn skipn app]. rewrite app_nil_r. reflexivity.
Qed.

(** X13. [write_graphs] inserts a record stored in the graph's attributes
    immediately before the first word whose id is the integer before the
    first hyphen of its key, and goes on with the next record from the
    sentence so extended. *)
Theorem annotation_before_anchor ws w post key k x rest :
  int (hd "" (split "-" key)) = OK k ->
  (forall w', In w' ws -> ID w' <> PInt k) ->
  ID w = PInt k ->
  splice (map IWord ws ++ IWord w :: post) ((key, x) :: rest)
  = splice (map IWord ws ++ x :: IWord w :: post) rest.
Proof.
  intros Hk Hpre Hw. cbn [splice]. rewrite Hk. cbn [bind].
  rewrite (next_index_anchor ws w post k 0 Hpre Hw). cbn [bind try].
  rewrite <- (length_map IWord ws), list_insert_app. reflexivity.
Qed.

Lemma annotation_before_anchor_witness :
  int (hd "" (split "-" "3-4")) = OK 3%Z
  /\ splice (map IWord the_dog_sentence ++ [IWord gon_word; IWord na_word])
       [("3-4", IWord gonna_token)]
     = OK (map IWord the_dog_sentence
           ++ [IWord gonna_token; IWord gon_word; IWord na_word]).
Proof.
  assert (Hk : int (hd "" (split "-" "3-4")) = OK 3%Z)
    by (vm_compute; reflexivity).
  split; [exact Hk |].
  apply (annotation_before_anchor the_dog_sentence gon_word [IWord na_word]
           "3-4" 3%Z (IWord gonna_token) [] Hk).
  - intros w' Hw'. vm_compute in Hw'.
    destruct Hw' as [<- | [<- | []]]; discriminate.
  - reflexivity.
Defined.

(** X14. [write_graphs] refuses with ConlluError a stored record whose key
    does not begin with an integer, such as the key "5.1" of an empty
    node, or whose integer is the id of no word of the sentence. *)
Theorem annotation_without_anchor s key x rest :
  is_error (int (hd "" (split "-" key))) = true
  \/ (exists k ws,
         int (hd "" (split "-" key)) = OK k
         /\ s = map IWord ws
         /\ forall w, In w ws -> ID w <> PInt k) ->
  splice s ((key, x) :: rest)
  = Raise (ConlluError "Graphs do not conform to the spec").
Proof.
  intros [H | (k & ws & Hk & -> & Hws)]; cbn [splice].
  - unfold int in *. destruct (int_signed _); [discriminate H | reflexivity].
  - rewrite Hk. cbn [bind]. rewrite (next_index_none ws k 0 Hws). reflexivity.
Qed.

Lemma annotation_without_anchor_witness :
  is_error (int (hd "" (split "-" "5.1"))) = true
  /\ splice [IWord gon_word; IWord na_word] [("5.1", IWord gonna_token)]
     = Raise (ConlluError "Graphs do not conform to the spec")
  /\ splice (map IWord the_dog_sentence) [("3-4", IWord gonna_token)]
     = Raise (ConlluError "Graphs do not conform to the spec").
Proof.
  assert (H : is_error (int (hd "" (split "-" "5.1"))) = true)
    by (vm_compute; reflexivity).
  split; [exact H |]. split.
  - exact (annotation_without_anchor [IWord gon_word; IWord na_word] "5.1"
             (IWord gonna_token) [] (or_introl H)).
  - apply (annotation_without_anchor (map IWord the_dog_sentence) "3-4"
             (IWord gonna_token) []).
    right. exists 3%Z, the_dog_sentence.
    split; [vm_compute; reflexivity |]. split; [reflexivity |].
    intros w Hw. vm_compute in Hw.
    destruct Hw as [<- | [<- | []]]; discriminate.
Defined.

(** X15. When a [str] stands in the sentence before every word with the
    id looked for, the search for the anchor raises AttributeError, which
    [write_graphs] does not turn into a ConlluError. *)
Theorem str_before_anchor ws t post key k x rest :
  int (hd "" (split "-" key)) = OK k ->
  (forall w, In w ws -> ID w <> PInt k) ->
  splice (map IWord ws ++ IStr t :: post) ((key, x) :: rest)
  = Raise AttributeError.
Proof.
  intros Hk Hws. cbn [splice]. rewrite Hk. cbn [bind].
  rewrite (next_index_str ws t post k 0 Hws). reflexivity.
Qed.

Lemma str_before_anchor_witness :
  int (hd "" (split "-" "3-4")) = OK 3%Z
  /\ splice (map IWord the_dog_sentence
             ++ [IStr "3-4"; IWord gon_word; IWord na_word])
       [("3-4", IWord gonna_token)]
     = Raise AttributeError.
Proof.
  assert (Hk : int (hd "" (split "-" "3-4")) = OK 3%Z)
    by (vm_compute; reflexivity).
  split; [exact Hk |].
  apply (str_before_anchor the_dog_sentence "3-4"
           [IWord gon_word; IWord na_word] "3-4" 3%Z (IWord gonna_token) []
           Hk).
  intros w Hw. vm_compute in Hw.
  destruct Hw as [<- | [<- | []]]; discriminate.
Defined.

(** *** What the serializer accepts *)

Lemma node_word_OK g key data w :
  node_word g key data = OK w ->
  in_edges g key <> [] /\ has_word_data data = true.
Proof.
  unfold node_word, has_word_data.
  destruct (in_edges g key) as [|e es]; [discriminate |].
  cbn [first bind].
  destruct (attr_FORM data); [| discriminate].
  destruct (attr_LEMMA data); [| discriminate].
  destruct (attr_UPOSTAG data); [| discriminate].
  cbn [is_some assert bind try getitem].
  destruct (attr_FEATS data); [| discriminate].
  intros _. split; [discriminate | reflexivity].
Qed.

Lemma node_words_OK g ns s :
  node_words g ns = OK s ->
  forall key data,
    In (key, data) ns -> not_root key = true ->
    in_edges g key <> [] /\ has_word_data data = true.
Proof.
  revert s. induction ns as [|[k d] ns IH]; intros s H key data Hin Hr;
    [destruct Hin |].
  cbn [node_words] in H. unfold not_root in Hr.
  destruct (pyval_eqb k (PInt 0)) eqn:Ek.
  - destruct Hin as [[= -> ->] | Hin]; [rewrite Ek in Hr; discriminate Hr |].
    apply (IH s H key data Hin). exact Hr.
  - destruct (node_word g k d) as [w|e] eqn:Ew; [| discriminate H].
    cbn [bind] in H.
    destruct (node_words g ns) as [s'|e] eqn:Es; [| discriminate H].
    destruct Hin as [[= -> ->] | Hin].
    + apply (node_word_OK g key data w Ew).
    + apply (IH s' eq_refl key data Hin). exact Hr.
Qed.

Lemma list_insert_In {A : Type} i (x y : A) l :
  In y (list_insert i x l) <-> y = x \/ In y l.
Proof.
  unfold list_insert. rewrite in_app_iff. cbn [In].
  assert (Hl : In y l <-> In y (firstn i l) \/ In y (skipn i l)).
  { rewrite <- in_app_iff, firstn_skipn. reflexivity. }
  rewrite Hl.
  split; [intros [H | [H | H]] | intros [H | [H | H]]]; auto.
Qed.

Lemma splice_OK annotations :
  forall s s',
    splice s annotations = OK s' ->
    (forall y, In y s -> In y s')
    /\ (forall key x, In (key, x) annotations ->
                      In x s'
                      /\ is_error (int (hd "" (split "-" key))) = false).
Proof.
  induction annotations as [|[key x] rest IH]; intros s s' H.
  - injection H as <-. split; [auto | intros key x []].
  - cbn [splice] in H.
    destruct (int (hd "" (split "-" key))) as [k|e] eqn:Ek; [| discriminate H].
    cbn [bind] in H.
    destruct (next_index s k 0) as [i|e] eqn:Ei; [| discriminate H].
    cbn [bind try] in H.
    destruct (IH _ _ H) as [Hkeep Hrest].
    split.
    + intros y Hy. apply Hkeep, list_insert_In. right; exact Hy.
    + intros key' x' [[= <- <-] | Hin].
      * split; [| rewrite Ek; reflexivity].
        apply Hkeep, list_insert_In. left; reflexivity.
      * apply Hrest, Hin.
Qed.

Lemma graph_sentences_OK graphs :
  forall ss,
    graph_sentences graphs = OK ss ->
    forall g, In g graphs -> exists s, In s ss /\ graph_sentence g = OK s.
Proof.
  induction graphs as [|g0 graphs IH]; intros ss H g Hg; [destruct Hg |].
  cbn [graph_sentences] in H.
  destruct (graph_sentence g0) as [s0|e] eqn:E0; [| discriminate H].
  cbn [bind] in H.
  destruct (graph_sentences graphs) as [ss0|e] eqn:Es; [| discriminate H].
  injection H as <-.
  destruct Hg as [<- | Hg].
  - exists s0. split; [left; reflexivity | exact E0].
  - destruct (IH ss0 eq_refl g Hg) as (s & Hs & E).
    exists s. split; [right; exact Hs | exact E].
Qed.

(** X16. What [write_graphs] writes without an exception: the file could
    be opened and, in every graph, each node whose key is not the integer
    0 has an incoming edge and the attributes FORM, LEMMA, UPOSTAG and
    FEATS, and each record stored in the graph's attributes is a Word
    under a key that begins with an integer. *)
Theorem written_graphs_conform ds writable graphs text :
  write_graphs ds writable graphs = OK text ->
  writable = true
  /\ forall g,
      In g graphs ->
      (forall key data,
          In (key, data) (nodes g) -> not_root key = true ->
          in_edges g key <> [] /\ has_word_data data = true)
      /\ (forall key x,
             In (key, x) (graph g) ->
             is_word x = true
             /\ is_error (int (hd "" (split "-" key))) = false).
Proof.
  unfold write_graphs, write_sentences.
  destruct (graph_sentences graphs) as [ss|e] eqn:Ess; [| discriminate].
  cbn [bind]. destruct writable; [| discriminate].
  rewrite WriterProps.write_loop_result.
  destruct (forallb (forallb is_word) ss) eqn:Hw; [| discriminate].
  intros _. split; [reflexivity |].
  intros g Hg.
  destruct (graph_sentences_OK graphs ss Ess g Hg) as (s & Hs & E).
  unfold graph_sentence in E.
  destruct (node_words g (nodes g)) as [s0|e] eqn:E0; [| discriminate E].
  cbn [bind] in E. split.
  - apply (node_words_OK g (nodes g) s0 E0).
  - intros key x Hin.
    destruct (splice_OK (graph g) s0 s E) as [_ Hann].
    destruct (Hann key x Hin) as [Hx Hk]. split; [| exact Hk].
    rewrite forallb_forall in Hw. specialize (Hw s Hs).
    rewrite forallb_forall in Hw. apply Hw, Hx.
Qed.

Lemma written_graphs_conform_witness :
  write_graphs example_ds true [gonna_graph] = OK gonna
  /\ forall key data,
      In (key, data) (nodes gonna_graph) -> not_root key = true ->
      in_edges gonna_graph key <> [] /\ has_word_data data = true.
Proof.
  assert (H : write_graphs example_ds true [gonna_graph] = OK gonna)
    by (vm_compute; reflexivity).
  split; [exact H |].
  exact (proj1 (proj2 (written_graphs_conform example_ds true [gonna_graph]
                         gonna H)
                  gonna_graph (or_introl eq_refl))).
Defined.

End GraphProps.
